(** * Consensus: claims, replies, private threads and messages

    A shallow embedding of the discussion platform: the relational schema
    with its constraints, row-level-security policies and triggers
    (supabase/schema.sql), and the client and server handlers that talk to
    it (app/new/page.tsx, app/claim/[id]/ReplySection.tsx,
    app/thread/[id]/page.tsx and ThreadView.tsx, app/page.tsx).

    Tables are lists of rows in insertion order.  A statement sent to the
    store either commits a new database or fails with an error and leaves
    the database as it was. *)

From Stdlib Require Import List ZArith NArith Bool String Ascii Lia.
From Stdlib Require Import Sorted Permutation.
Import ListNotations.

(* ================================================================== *)
(** ** JavaScript strings *)

(** A JavaScript string is a sequence of UTF-16 code units. *)
Definition code_unit := N.
Definition jsstring := list code_unit.

(** [String.prototype.trim] strips WhiteSpace and LineTerminator code
    points (ECMA-262, 22.1.3.32): TAB, LF, VT, FF, CR, SP, NBSP, the Zs
    category, LS, PS and the byte-order mark. *)
Definition is_white_space (c : code_unit) : bool :=
  ((0x09 <=? c) && (c <=? 0x0D) || (c =? 0x20) || (c =? 0xA0)
   || (c =? 0x1680) || (0x2000 <=? c) && (c <=? 0x200A)
   || (c =? 0x2028) || (c =? 0x2029) || (c =? 0x202F) || (c =? 0x205F)
   || (c =? 0x3000) || (c =? 0xFEFF))%N.

Fixpoint trimStart (s : jsstring) : jsstring :=
  match s with
  | c :: s' => if is_white_space c then trimStart s' else s
  | [] => []
  end.

Definition trimEnd (s : jsstring) : jsstring := rev (trimStart (rev s)).

Definition trim (s : jsstring) : jsstring := trimEnd (trimStart s).

(** Empty or made of white space only. *)
Definition blank (s : jsstring) : bool := forallb is_white_space s.

(** ASCII literals, for examples. *)
Definition js (s : string) : jsstring := map N_of_ascii (list_ascii_of_string s).

(** SQL [LENGTH(text)] counts characters, not UTF-16 code units: the
    trailing half of a surrogate pair does not count. *)
Definition is_low_surrogate (c : code_unit) : bool :=
  ((0xDC00 <=? c) && (c <=? 0xDFFF))%N.

Definition LENGTH (s : jsstring) : nat :=
  List.length (filter (fun c => negb (is_low_surrogate c)) s).

(* ================================================================== *)
(** ** Schema (lib/supabase.ts, supabase/schema.sql) *)

Definition uuid := N.
Definition timestamptz := Z.

Inductive ClaimType := fact | value | policy.
Inductive StanceType := supports | contradicts.
Inductive ReplyStatus := pending | accepted | rejected.

Module Claim.
Record t := mk
  { id : uuid;
    text : jsstring;
    claim_type : ClaimType;
    author_id : uuid;
    created_at : timestamptz }.
End Claim.

Module Reply.
Record t := mk
  { id : uuid;
    parent_claim_id : uuid;
    text : jsstring;
    stance : StanceType;
    status : ReplyStatus;
    rejection_reason : option jsstring;
    author_id : uuid;
    created_at : timestamptz }.
End Reply.

Module Thread.
Record t := mk
  { id : uuid;
    reply_id : uuid;
    claim_owner_id : uuid;
    reply_author_id : uuid;
    created_at : timestamptz }.
End Thread.

Module Message.
Record t := mk
  { id : uuid;
    thread_id : uuid;
    sender_id : uuid;
    body : jsstring;
    created_at : timestamptz }.
End Message.

(** The database: [users] stands for the ids of auth.users, the target of
    every author, participant and sender reference. *)
Record database := mkDb
  { users : list uuid;
    claims : list Claim.t;
    replies : list Reply.t;
    threads : list Thread.t;
    messages : list Message.t }.

Definition with_claims (d : database) (cs : list Claim.t) : database :=
  mkDb d.(users) cs d.(replies) d.(threads) d.(messages).
Definition with_replies (d : database) (rs : list Reply.t) : database :=
  mkDb d.(users) d.(claims) rs d.(threads) d.(messages).
Definition with_threads (d : database) (ts : list Thread.t) : database :=
  mkDb d.(users) d.(claims) d.(replies) ts d.(messages).
Definition with_messages (d : database) (ms : list Message.t) : database :=
  mkDb d.(users) d.(claims) d.(replies) d.(threads) ms.

(* ================================================================== *)
(** ** Statements and their errors *)

Inductive pg_error :=
| untranslatable_character  (* 22P05: \u0000 cannot be converted to text *)
| unpaired_surrogate        (* a surrogate without its other half in the body *)
| insufficient_privilege   (* new row violates row-level security policy *)
| not_null_violation
| check_violation
| unique_violation
| foreign_key_violation.

Inductive result (A : Type) :=
| Ok (a : A)
| Err (e : pg_error).
Arguments Ok {A} a.
Arguments Err {A} e.

Definition bind {A B} (r : result A) (k : A -> result B) : result B :=
  match r with
  | Ok a => k a
  | Err e => Err e
  end.

Definition guard (b : bool) (e : pg_error) : result unit :=
  if b then Ok tt else Err e.

Notation "x <- c ;; k" := (bind c (fun x => k))
  (at level 61, c at next level, right associativity).
Notation "'check' b 'else' e ;; k" := (bind (guard b e) (fun _ => k))
  (at level 61, b at next level, e at next level, right associativity).
Notation "'run' c ;; k" := (bind c (fun _ => k))
  (at level 61, c at next level, right associativity).

(** Rows travel to the store as JSON: the client sends JSON.stringify of
    the object it is given, and the store reads the columns off that
    body.  A string with U+0000, or with a surrogate that is not half of
    a pair, cannot be converted to TEXT, and the statement fails when the
    body is read, which is before the row it makes meets a policy or a
    constraint.  [pending_high]: the unit before was a high surrogate,
    which waits for its low half. *)
Definition is_high_surrogate (c : code_unit) : bool :=
  ((0xD800 <=? c) && (c <=? 0xDBFF))%N.

Fixpoint text_error_from (pending_high : bool) (s : jsstring)
    : option pg_error :=
  match s with
  | [] => if pending_high then Some unpaired_surrogate else None
  | c :: s' =>
      if pending_high then
        if is_low_surrogate c then text_error_from false s'
        else Some unpaired_surrogate
      else if (c =? 0)%N then Some untranslatable_character
      else if is_high_surrogate c then text_error_from true s'
      else if is_low_surrogate c then Some unpaired_surrogate
      else text_error_from false s'
  end.

(** The error a string meets on its way into a TEXT column, if any. *)
Definition text_error (s : jsstring) : option pg_error :=
  text_error_from false s.

Definition decode_text (s : jsstring) : result unit :=
  match text_error s with
  | Some e => Err e
  | None => Ok tt
  end.

(** A column the body may leave out, or give as null. *)
Definition decode_optional (s : option jsstring) : result unit :=
  match s with
  | Some text => decode_text text
  | None => Ok tt
  end.

(** The caller's session: [auth.uid()] is its user id, [auth.role()] is
    'authenticated' exactly when there is one. *)
Definition session := option uuid.

Definition auth_uid_is (s : session) (u : uuid) : bool :=
  match s with
  | Some a => (a =? u)%N
  | None => false
  end.

Definition authenticated (s : session) : bool :=
  match s with
  | Some _ => true
  | None => false
  end.

Definition mem (u : uuid) (l : list uuid) : bool := existsb (N.eqb u) l.

(* ================================================================== *)
(** ** The store: constraints, policies and triggers (schema.sql)

    Every statement takes the caller's session.  Fresh primary keys
    ([uuid_generate_v4()]) and the transaction time ([NOW()]) are inputs.
    Checks run in the order the executor runs them: the body is decoded,
    then come the policy's WITH CHECK, NOT NULL and CHECK constraints,
    unique indexes, and the AFTER ROW work (foreign keys and triggers).
    Columns have the types of lib/supabase.ts: a row with a NULL status
    or date is not represented. *)

Definition has_id {A} (id : A -> uuid) (k : uuid) (l : list A) : bool :=
  existsb (fun x => (id x =? k)%N) l.

(** [.single()]: the row when the result has exactly one, else null. *)
Definition single {A} (rows : list A) : option A :=
  match rows with
  | [x] => Some x
  | _ => None
  end.

(** *** claims *)

(** INSERT: policy "Authenticated users can create claims",
    CHECK (LENGTH(text) <= 300), primary key, author reference. *)
Definition insert_claim (s : session) (new_id : uuid) (now : timestamptz)
    (text : jsstring) (claim_type : ClaimType) (author_id : uuid)
    (d : database) : result database :=
  run decode_text text ;;
  check authenticated s else insufficient_privilege ;;
  check (LENGTH text <=? 300) else check_violation ;;
  check negb (has_id Claim.id new_id d.(claims)) else unique_violation ;;
  check mem author_id d.(users) else foreign_key_violation ;;
  Ok (with_claims d
        (d.(claims) ++ [Claim.mk new_id text claim_type author_id now])).

(** The body of an UPDATE: the columns it sets.  No policy of the schema
    names a column, so a statement may set any of them. *)
Module ClaimPatch.
Record t := mk
  { id : option uuid;
    text : option jsstring;
    claim_type : option ClaimType;
    author_id : option uuid;
    created_at : option timestamptz }.
End ClaimPatch.

Definition or_keep {A} (new : option A) (old : A) : A :=
  match new with
  | Some a => a
  | None => old
  end.

Definition apply_claim_patch (p : ClaimPatch.t) (c : Claim.t) : Claim.t :=
  Claim.mk (or_keep p.(ClaimPatch.id) c.(Claim.id))
           (or_keep p.(ClaimPatch.text) c.(Claim.text))
           (or_keep p.(ClaimPatch.claim_type) c.(Claim.claim_type))
           (or_keep p.(ClaimPatch.author_id) c.(Claim.author_id))
           (or_keep p.(ClaimPatch.created_at) c.(Claim.created_at)).

(** Rewrite the rows selected by [sel]; the first failing row aborts the
    statement. *)
Fixpoint update_where {A} (sel : A -> bool) (f : A -> result A)
    (l : list A) : result (list A) :=
  match l with
  | [] => Ok []
  | x :: l' =>
      x' <- (if sel x then f x else Ok x) ;;
      l'' <- update_where sel f l' ;;
      Ok (x' :: l'')
  end.

(** UPDATE ... WHERE id = claimId: policy "Authors can update their own
    claims".  Its USING clause selects the rows the caller may touch (the
    others are not seen, which is not an error) and, no WITH CHECK being
    given, is checked again on the new row.  Then come the CHECK on the
    text, the primary key when the id changes, the author reference when
    the author changes and, when the id changes, the references of
    replies to the old id (no ON UPDATE action is declared). *)
Definition update_claim (s : session) (claimId : uuid) (p : ClaimPatch.t)
    (d : database) : result database :=
  run decode_optional p.(ClaimPatch.text) ;;
  cs <- update_where
          (fun c => (c.(Claim.id) =? claimId)%N
                    && auth_uid_is s c.(Claim.author_id))
          (fun c =>
             let c' := apply_claim_patch p c in
             check auth_uid_is s c'.(Claim.author_id)
               else insufficient_privilege ;;
             check (LENGTH c'.(Claim.text) <=? 300) else check_violation ;;
             check ((c'.(Claim.id) =? c.(Claim.id))%N
                    || negb (has_id Claim.id c'.(Claim.id) d.(claims)))
               else unique_violation ;;
             check ((c'.(Claim.author_id) =? c.(Claim.author_id))%N
                    || mem c'.(Claim.author_id) d.(users))
               else foreign_key_violation ;;
             check ((c'.(Claim.id) =? c.(Claim.id))%N
                    || negb (has_id Reply.parent_claim_id c.(Claim.id)
                                    d.(replies)))
               else foreign_key_violation ;;
             Ok c')
          d.(claims) ;;
  Ok (with_claims d cs).

(** DELETE ... WHERE id = claimId: policy "Authors can delete their own
    claims"; ON DELETE CASCADE from claims to replies, from replies to
    threads and from threads to messages. *)
Definition delete_claim (s : session) (claimId : uuid) (d : database)
    : database :=
  let doomed c :=
    (c.(Claim.id) =? claimId)%N && auth_uid_is s c.(Claim.author_id) in
  let gone_claims := map Claim.id (filter doomed d.(claims)) in
  let dead_reply r := mem r.(Reply.parent_claim_id) gone_claims in
  let gone_replies := map Reply.id (filter dead_reply d.(replies)) in
  let dead_thread t := mem t.(Thread.reply_id) gone_replies in
  let gone_threads := map Thread.id (filter dead_thread d.(threads)) in
  let dead_message m := mem m.(Message.thread_id) gone_threads in
  mkDb d.(users)
       (filter (fun c => negb (doomed c)) d.(claims))
       (filter (fun r => negb (dead_reply r)) d.(replies))
       (filter (fun t => negb (dead_thread t)) d.(threads))
       (filter (fun m => negb (dead_message m)) d.(messages)).

(** *** threads *)

(** The thread insertion of [handle_new_reply]: SECURITY DEFINER, so no
    policy applies; NOT NULL on claim_owner_id; ON CONFLICT (reply_id) DO
    NOTHING; primary key; references to replies and users. *)
Definition insert_thread_on_conflict_do_nothing (new_id : uuid)
    (now : timestamptz) (reply_id : uuid) (claim_owner_id : option uuid)
    (reply_author_id : uuid) (d : database) : result database :=
  match claim_owner_id with
  | None => Err not_null_violation
  | Some owner =>
      if has_id Thread.reply_id reply_id d.(threads) then Ok d
      else
        check negb (has_id Thread.id new_id d.(threads))
          else unique_violation ;;
        check has_id Reply.id reply_id d.(replies)
          else foreign_key_violation ;;
        check mem owner d.(users) else foreign_key_violation ;;
        check mem reply_author_id d.(users) else foreign_key_violation ;;
        Ok (with_threads d
              (d.(threads)
                 ++ [Thread.mk new_id reply_id owner reply_author_id now]))
  end.

(** Trigger function [public.handle_new_reply()]. *)
Definition handle_new_reply (thread_id : uuid) (now : timestamptz)
    (NEW : Reply.t) (d : database) : result database :=
  let v_claim_owner_id :=
    option_map Claim.author_id
      (find (fun c => (c.(Claim.id) =? NEW.(Reply.parent_claim_id))%N)
            d.(claims)) in
  insert_thread_on_conflict_do_nothing thread_id now NEW.(Reply.id)
    v_claim_owner_id NEW.(Reply.author_id) d.

(** Policy "Participants can read threads". *)
Definition is_participant (s : session) (t : Thread.t) : bool :=
  auth_uid_is s t.(Thread.claim_owner_id)
  || auth_uid_is s t.(Thread.reply_author_id).

Definition select_threads (s : session) (d : database) : list Thread.t :=
  filter (is_participant s) d.(threads).

(** INSERT into threads through the API: policy "Authenticated users can
    create threads", primary key, UNIQUE(reply_id), references. *)
Definition insert_thread (s : session) (new_id : uuid) (now : timestamptz)
    (reply_id claim_owner_id reply_author_id : uuid) (d : database)
    : result database :=
  check authenticated s else insufficient_privilege ;;
  check negb (has_id Thread.id new_id d.(threads)) else unique_violation ;;
  check negb (has_id Thread.reply_id reply_id d.(threads))
    else unique_violation ;;
  check has_id Reply.id reply_id d.(replies) else foreign_key_violation ;;
  check mem claim_owner_id d.(users) else foreign_key_violation ;;
  check mem reply_author_id d.(users) else foreign_key_violation ;;
  Ok (with_threads d
        (d.(threads)
           ++ [Thread.mk new_id reply_id claim_owner_id reply_author_id
                         now])).

Module ThreadPatch.
Record t := mk
  { id : option uuid;
    reply_id : option uuid;
    claim_owner_id : option uuid;
    reply_author_id : option uuid;
    created_at : option timestamptz }.
End ThreadPatch.

Definition apply_thread_patch (p : ThreadPatch.t) (t : Thread.t)
    : Thread.t :=
  Thread.mk (or_keep p.(ThreadPatch.id) t.(Thread.id))
            (or_keep p.(ThreadPatch.reply_id) t.(Thread.reply_id))
            (or_keep p.(ThreadPatch.claim_owner_id) t.(Thread.claim_owner_id))
            (or_keep p.(ThreadPatch.reply_author_id)
                     t.(Thread.reply_author_id))
            (or_keep p.(ThreadPatch.created_at) t.(Thread.created_at)).

(** UPDATE threads SET ... WHERE id = threadId: policy "Participants can
    update threads".  The USING clause selects the rows the caller takes
    part in and is checked again on the new row; then the primary key,
    UNIQUE(reply_id), the references that changed and, when the id
    changes, the references of messages to the old id. *)
Definition update_thread (s : session) (threadId : uuid) (p : ThreadPatch.t)
    (d : database) : result database :=
  ts <- update_where
          (fun t => (t.(Thread.id) =? threadId)%N && is_participant s t)
          (fun t =>
             let t' := apply_thread_patch p t in
             check is_participant s t' else insufficient_privilege ;;
             check ((t'.(Thread.id) =? t.(Thread.id))%N
                    || negb (has_id Thread.id t'.(Thread.id) d.(threads)))
               else unique_violation ;;
             check ((t'.(Thread.reply_id) =? t.(Thread.reply_id))%N
                    || negb (has_id Thread.reply_id t'.(Thread.reply_id)
                                    d.(threads)))
               else unique_violation ;;
             check ((t'.(Thread.reply_id) =? t.(Thread.reply_id))%N
                    || has_id Reply.id t'.(Thread.reply_id) d.(replies))
               else foreign_key_violation ;;
             check ((t'.(Thread.claim_owner_id)
                     =? t.(Thread.claim_owner_id))%N
                    || mem t'.(Thread.claim_owner_id) d.(users))
               else foreign_key_violation ;;
             check ((t'.(Thread.reply_author_id)
                     =? t.(Thread.reply_author_id))%N
                    || mem t'.(Thread.reply_author_id) d.(users))
               else foreign_key_violation ;;
             check ((t'.(Thread.id) =? t.(Thread.id))%N
                    || negb (has_id Message.thread_id t.(Thread.id)
                                    d.(messages)))
               else foreign_key_violation ;;
             Ok t')
          d.(threads) ;;
  Ok (with_threads d ts).

(** *** replies *)

(** INSERT of the row [NEW]: policy "Authenticated users can create
    replies"; primary key; the references to claims and users; then
    trigger [on_reply_created] AFTER INSERT FOR EACH ROW, which gives the
    thread the id [thread_id] and the date [now].  The trigger runs
    inside the statement: if it fails, the reply is not inserted
    either. *)
Definition insert_reply_row (s : session) (thread_id : uuid)
    (now : timestamptz) (NEW : Reply.t) (d : database) : result database :=
  run decode_text NEW.(Reply.text) ;;
  run decode_optional NEW.(Reply.rejection_reason) ;;
  check authenticated s else insufficient_privilege ;;
  check negb (has_id Reply.id NEW.(Reply.id) d.(replies))
    else unique_violation ;;
  check has_id Claim.id NEW.(Reply.parent_claim_id) d.(claims)
    else foreign_key_violation ;;
  check mem NEW.(Reply.author_id) d.(users) else foreign_key_violation ;;
  handle_new_reply thread_id now NEW (with_replies d (d.(replies) ++ [NEW])).

(** The INSERT the application sends: it names parent_claim_id, text,
    stance and author_id; status defaults to 'pending', rejection_reason
    to NULL and created_at to NOW(). *)
Definition insert_reply (s : session) (new_id thread_id : uuid)
    (now : timestamptz) (parent_claim_id : uuid) (text : jsstring)
    (stance : StanceType) (author_id : uuid) (d : database)
    : result database :=
  insert_reply_row s thread_id now
    (Reply.mk new_id parent_claim_id text stance pending None author_id now)
    d.

(** Policy "Claim owner can update reply status": EXISTS (SELECT 1 FROM
    claims WHERE id = parent_claim_id AND author_id = auth.uid()). *)
Definition owns_parent_claim (s : session) (d : database) (r : Reply.t)
    : bool :=
  existsb (fun c => (c.(Claim.id) =? r.(Reply.parent_claim_id))%N
                    && auth_uid_is s c.(Claim.author_id))
          d.(claims).

Module ReplyPatch.
Record t := mk
  { id : option uuid;
    parent_claim_id : option uuid;
    text : option jsstring;
    stance : option StanceType;
    status : option ReplyStatus;
    rejection_reason : option (option jsstring);
    author_id : option uuid;
    created_at : option timestamptz }.
End ReplyPatch.

Definition apply_reply_patch (p : ReplyPatch.t) (r : Reply.t) : Reply.t :=
  Reply.mk (or_keep p.(ReplyPatch.id) r.(Reply.id))
           (or_keep p.(ReplyPatch.parent_claim_id) r.(Reply.parent_claim_id))
           (or_keep p.(ReplyPatch.text) r.(Reply.text))
           (or_keep p.(ReplyPatch.stance) r.(Reply.stance))
           (or_keep p.(ReplyPatch.status) r.(Reply.status))
           (or_keep p.(ReplyPatch.rejection_reason)
                    r.(Reply.rejection_reason))
           (or_keep p.(ReplyPatch.author_id) r.(Reply.author_id))
           (or_keep p.(ReplyPatch.created_at) r.(Reply.created_at)).

(** The two bodies the application sends: { status } and { status,
    rejection_reason }. *)
Definition status_patch (status : ReplyStatus)
    (rejection_reason : option (option jsstring)) : ReplyPatch.t :=
  ReplyPatch.mk None None None None (Some status) rejection_reason None None.

(** UPDATE replies SET ... WHERE id = replyId.  Rows the USING clause does
    not select are left alone without an error; the clause is checked
    again on the new row.  Then the primary key when the id changes, the
    references that changed and, when the id changes, the reference of
    the thread to the old id. *)
Definition update_reply (s : session) (replyId : uuid) (p : ReplyPatch.t)
    (d : database) : result database :=
  run decode_optional p.(ReplyPatch.text) ;;
  run decode_optional
        (match p.(ReplyPatch.rejection_reason) with
         | Some reason => reason
         | None => None
         end) ;;
  rs <- update_where
          (fun r => (r.(Reply.id) =? replyId)%N && owns_parent_claim s d r)
          (fun r =>
             let r' := apply_reply_patch p r in
             check owns_parent_claim s d r' else insufficient_privilege ;;
             check ((r'.(Reply.id) =? r.(Reply.id))%N
                    || negb (has_id Reply.id r'.(Reply.id) d.(replies)))
               else unique_violation ;;
             check ((r'.(Reply.parent_claim_id)
                     =? r.(Reply.parent_claim_id))%N
                    || has_id Claim.id r'.(Reply.parent_claim_id)
                              d.(claims))
               else foreign_key_violation ;;
             check ((r'.(Reply.author_id) =? r.(Reply.author_id))%N
                    || mem r'.(Reply.author_id) d.(users))
               else foreign_key_violation ;;
             check ((r'.(Reply.id) =? r.(Reply.id))%N
                    || negb (has_id Thread.reply_id r.(Reply.id)
                                    d.(threads)))
               else foreign_key_violation ;;
             Ok r')
          d.(replies) ;;
  Ok (with_replies d rs).

(** *** messages *)

(** The EXISTS clause of both message policies. *)
Definition participates_in (s : session) (d : database) (thread_id : uuid)
    : bool :=
  existsb (fun t => (t.(Thread.id) =? thread_id)%N && is_participant s t)
          d.(threads).

(** INSERT: policy "Participants can send messages" (the caller takes
    part in the thread and is the sender), primary key, references. *)
Definition insert_message (s : session) (new_id : uuid) (now : timestamptz)
    (thread_id sender_id : uuid) (body : jsstring) (d : database)
    : result database :=
  run decode_text body ;;
  check (participates_in s d thread_id && auth_uid_is s sender_id)
    else insufficient_privilege ;;
  check negb (has_id Message.id new_id d.(messages)) else unique_violation ;;
  check has_id Thread.id thread_id d.(threads) else foreign_key_violation ;;
  check mem sender_id d.(users) else foreign_key_violation ;;
  Ok (with_messages d
        (d.(messages) ++ [Message.mk new_id thread_id sender_id body now])).

(** Policy "Participants can read messages". *)
Definition select_messages (s : session) (d : database) : list Message.t :=
  filter (fun m => participates_in s d m.(Message.thread_id)) d.(messages).

(** ORDER BY created_at: insertion sort on a comparison of rows.  Rows
    with equal keys come out in table order; the store promises no order
    among them, and what is proved of a listing does not depend on one. *)
Fixpoint insert_by {A} (le : A -> A -> bool) (x : A) (l : list A) : list A :=
  match l with
  | [] => [x]
  | y :: l' => if le x y then x :: l else y :: insert_by le x l'
  end.

Fixpoint order_by {A} (le : A -> A -> bool) (l : list A) : list A :=
  match l with
  | [] => []
  | x :: l' => insert_by le x (order_by le l')
  end.

Definition ascending {A} (created_at : A -> timestamptz) (a b : A) : bool :=
  (created_at a <=? created_at b)%Z.
Definition descending {A} (created_at : A -> timestamptz) (a b : A) : bool :=
  (created_at b <=? created_at a)%Z.

(* ================================================================== *)
(** ** The application *)

Inductive route :=
| LoginRoute                (* /auth/login *)
| HomeRoute                 (* / *)
| ClaimRoute (id : uuid).   (* /claim/:id *)

Inductive error_message :=
| Text (msg : string)
| StoreMessage (e : pg_error).

(** What a client handler leaves behind on the screen.  The handlers of
    the two forms throw [new Error(insertError.message)] and show the
    store's message; the others throw the error object the client
    returned, which is no instance of Error, and show their fixed
    text. *)
Inductive feedback :=
| SetError (msg : error_message)   (* setError(msg) *)
| Alert (msg : error_message)      (* alert(msg) *)
| Push (r : route)                 (* router.push(r) *)
| Refresh                          (* router.refresh() *)
| ClearInput                       (* setNewMessage("") *)
| Nothing.                         (* a bare return *)

(** What a server page answers. *)
Inductive page (A : Type) :=
| Redirect (r : route)
| NotFound
| Render (view : A).
Arguments Redirect {A} r.
Arguments NotFound {A}.
Arguments Render {A} view.

(** *** app/new/page.tsx *)

Definition handleSubmit (s : session) (new_id : uuid) (now : timestamptz)
    (text : jsstring) (claimType : ClaimType) (d : database)
    : database * feedback :=
  if 300 <? List.length text then
    (d, SetError (Text "Claim must be 300 characters or less"))
  else if List.length (trim text) =? 0 then
    (d, SetError (Text "Claim cannot be empty"))
  else
    match s with
    | None => (d, Push LoginRoute)
    | Some user =>
        match insert_claim s new_id now (trim text) claimType user d with
        | Err insertError => (d, SetError (StoreMessage insertError))
        | Ok d' => (d', Push (ClaimRoute new_id))
        end
    end.

(** *** app/claim/[id]/ReplySection.tsx *)

Definition handleReplySubmit (s : session) (new_id thread_id : uuid)
    (now : timestamptz) (claimId : uuid) (replyText : jsstring)
    (stance : StanceType) (d : database) : database * feedback :=
  if List.length (trim replyText) =? 0 then
    (d, SetError (Text "Reply cannot be empty"))
  else
    match s with
    | None => (d, Push LoginRoute)
    | Some user =>
        match insert_reply s new_id thread_id now claimId (trim replyText)
                           stance user d with
        | Err insertError => (d, SetError (StoreMessage insertError))
        | Ok d' => (d', Refresh)
        end
    end.

Definition handleAcceptReply (s : session) (replyId : uuid) (d : database)
    : database * feedback :=
  match update_reply s replyId (status_patch accepted None) d with
  | Err error => (d, Alert (Text "An error occurred"))
  | Ok d' => (d', Refresh)
  end.

(** [x || null] on a string: the empty string is falsy. *)
Definition or_null (x : jsstring) : option jsstring :=
  match x with
  | [] => None
  | _ => Some x
  end.

Definition handleRejectReply (s : session) (replyId : uuid)
    (rejectReason : jsstring) (d : database) : database * feedback :=
  match update_reply s replyId
          (status_patch rejected (Some (or_null (trim rejectReason)))) d with
  | Err error => (d, Alert (Text "An error occurred"))
  | Ok d' => (d', Refresh)
  end.

(** The props ClaimPage (app/claim/[id]/page.tsx) hands to ReplySection. *)
Record ReplySectionProps := mkReplySectionProps
  { claimId : uuid;
    claimOwnerId : uuid;
    isLoggedIn : bool;
    isClaimOwner : bool;
    repliesAccepted : list Reply.t;
    repliesPending : list Reply.t;
    repliesRejected : list Reply.t }.

Definition status_eqb (a b : ReplyStatus) : bool :=
  match a, b with
  | pending, pending | accepted, accepted | rejected, rejected => true
  | _, _ => false
  end.

Definition ClaimPage (s : session) (id : uuid) (d : database)
    : page ReplySectionProps :=
  match single (filter (fun c => (c.(Claim.id) =? id)%N) d.(claims)) with
  | None => NotFound
  | Some claim =>
      let replies :=
        order_by (ascending Reply.created_at)
          (filter (fun r => (r.(Reply.parent_claim_id) =? id)%N)
                  d.(replies)) in
      let by_status st :=
        filter (fun r => status_eqb r.(Reply.status) st) replies in
      Render
        (mkReplySectionProps id claim.(Claim.author_id) (authenticated s)
           (auth_uid_is s claim.(Claim.author_id))
           (by_status accepted) (by_status pending) (by_status rejected))
  end.

(** renderReplyGroup: the Accept and Reject buttons. *)
Definition shows_accept_reject (props : ReplySectionProps) (reply : Reply.t)
    : bool :=
  props.(isClaimOwner) && status_eqb reply.(Reply.status) pending.

(** renderReplyGroup: the "Open Discussion" link. *)
Definition shows_open_discussion (props : ReplySectionProps)
    (reply : Reply.t) : bool :=
  props.(isClaimOwner)
  || (props.(isLoggedIn)
      && (reply.(Reply.author_id) =? props.(claimOwnerId))%N).

(** *** app/thread/[id]/page.tsx and ThreadView.tsx *)

Record ThreadViewProps := mkThreadViewProps
  { threadId : uuid;
    context_reply : Reply.t;
    initial_messages : list Message.t;
    currentUserId : uuid }.

Definition ThreadPage (s : session) (id : uuid) (d : database)
    : page ThreadViewProps :=
  match s with
  | None => Redirect LoginRoute
  | Some user =>
      match single (filter (fun t => (t.(Thread.id) =? id)%N)
                           (select_threads s d)) with
      | None => NotFound
      | Some thread =>
          if negb (thread.(Thread.claim_owner_id) =? user)%N
             && negb (thread.(Thread.reply_author_id) =? user)%N
          then Redirect HomeRoute
          else
            match single (filter (fun r => (r.(Reply.id)
                                            =? thread.(Thread.reply_id))%N)
                                 d.(replies)) with
            | None => NotFound
            | Some reply =>
                Render
                  (mkThreadViewProps id reply
                     (order_by (ascending Message.created_at)
                        (filter (fun m => (m.(Message.thread_id) =? id)%N)
                                (select_messages s d)))
                     user)
            end
      end
  end.

Definition handleSendMessage (s : session) (new_id : uuid)
    (now : timestamptz) (threadId currentUserId : uuid)
    (newMessage : jsstring) (d : database) : database * feedback :=
  if List.length (trim newMessage) =? 0 then (d, Nothing)
  else
    match insert_message s new_id now threadId currentUserId
                         (trim newMessage) d with
    | Err error => (d, Alert (Text "Failed to send message"))
    | Ok d' => (d', ClearInput)
    end.

(** *** app/page.tsx *)

Record ClaimWithAuthor := mkClaimWithAuthor
  { listed : Claim.t;
    reply_count : nat }.

(** The head request with count "exact" on replies of one claim; [count]
    is null when the request fails ([answers] is false). *)
Definition count_replies (answers : bool) (claim_id : uuid) (d : database)
    : option nat :=
  if answers then
    Some (List.length
            (filter (fun r => (r.(Reply.parent_claim_id) =? claim_id)%N)
                    d.(replies)))
  else None.

(** [count || 0]. *)
Definition or_zero (count : option nat) : nat :=
  match count with
  | Some n => n
  | None => 0
  end.

Definition HomePage (answers : uuid -> bool) (d : database)
    : list ClaimWithAuthor :=
  map (fun claim =>
         mkClaimWithAuthor claim
           (or_zero (count_replies (answers claim.(Claim.id))
                                   claim.(Claim.id) d)))
      (firstn 50 (order_by (descending Claim.created_at) d.(claims))).

(* ================================================================== *)
(** ** Queries used in the statements *)

(** Looking a row up by its primary key. *)
Definition find_claim (d : database) (k : uuid) : option Claim.t :=
  find (fun c => (c.(Claim.id) =? k)%N) d.(claims).
Definition find_reply (d : database) (k : uuid) : option Reply.t :=
  find (fun r => (r.(Reply.id) =? k)%N) d.(replies).
Definition threads_of_reply (d : database) (k : uuid) : list Thread.t :=
  filter (fun t => (t.(Thread.reply_id) =? k)%N) d.(threads).

(** FOREIGN KEY threads.reply_id REFERENCES replies(id). *)
Definition threads_reference_replies (d : database) : Prop :=
  forall t, In t d.(threads) ->
            has_id Reply.id t.(Thread.reply_id) d.(replies) = true.

(** PRIMARY KEY of the four tables. *)
Definition primary_keys (d : database) : Prop :=
  NoDup (map Claim.id d.(claims))
  /\ NoDup (map Reply.id d.(replies))
  /\ NoDup (map Thread.id d.(threads))
  /\ NoDup (map Message.id d.(messages)).

(** A run of decisions taken on one reply through the two handlers. *)
Inductive decision :=
| Accept
| Reject (reason : jsstring).

Definition decided_status (dec : decision) : ReplyStatus :=
  match dec with
  | Accept => accepted
  | Reject _ => rejected
  end.

(** The body a decision sends, and the rows it rewrites when the
    statement commits: those with that id whose parent claim the caller
    owns. *)
Definition decision_patch (dec : decision) : ReplyPatch.t :=
  match dec with
  | Accept => status_patch accepted None
  | Reject reason => status_patch rejected (Some (or_null (trim reason)))
  end.

Definition rewrite_reply (s : session) (replyId : uuid) (p : ReplyPatch.t)
    (d : database) : database :=
  with_replies d
    (map (fun r =>
            if (r.(Reply.id) =? replyId)%N && owns_parent_claim s d r
            then apply_reply_patch p r else r)
         d.(replies)).

(** What the store answers to the text a decision carries. *)
Definition decision_error (dec : decision) : option pg_error :=
  match dec with
  | Accept => None
  | Reject reason => text_error (trim reason)
  end.

Definition decide (s : session) (replyId : uuid) (dec : decision)
    (d : database) : database * feedback :=
  match dec with
  | Accept => handleAcceptReply s replyId d
  | Reject reason => handleRejectReply s replyId reason d
  end.

Definition decide_all (s : session) (replyId : uuid) (decs : list decision)
    (d : database) : database :=
  fold_left (fun d dec => fst (decide s replyId dec d)) decs d.

(** An error shown to the user, whatever its text. *)
Definition reports_error (f : feedback) : Prop :=
  match f with
  | SetError _ | Alert _ => True
  | _ => False
  end.

(** The requests the client components send (the server pages only
    read). *)
Inductive request :=
| SubmitClaim (new_id : uuid) (now : timestamptz) (text : jsstring)
              (claimType : ClaimType)
| SubmitReply (new_id thread_id : uuid) (now : timestamptz) (claimId : uuid)
              (replyText : jsstring) (stance : StanceType)
| AcceptReply (replyId : uuid)
| RejectReply (replyId : uuid) (rejectReason : jsstring)
| SendMessage (new_id : uuid) (now : timestamptz)
              (threadId currentUserId : uuid) (newMessage : jsstring).

Definition perform (s : session) (req : request) (d : database)
    : database * feedback :=
  match req with
  | SubmitClaim new_id now text claimType =>
      handleSubmit s new_id now text claimType d
  | SubmitReply new_id thread_id now claimId replyText stance =>
      handleReplySubmit s new_id thread_id now claimId replyText stance d
  | AcceptReply replyId => handleAcceptReply s replyId d
  | RejectReply replyId rejectReason =>
      handleRejectReply s replyId rejectReason d
  | SendMessage new_id now threadId currentUserId newMessage =>
      handleSendMessage s new_id now threadId currentUserId newMessage d
  end.

(** The rows that hang on a claim through the references. *)
Definition thread_of_claim (d : database) (claimId : uuid) (t : Thread.t)
    : Prop :=
  exists r, In r d.(replies)
            /\ r.(Reply.id) = t.(Thread.reply_id)
            /\ r.(Reply.parent_claim_id) = claimId.

Definition message_of_claim (d : database) (claimId : uuid) (m : Message.t)
    : Prop :=
  exists t, In t d.(threads)
            /\ t.(Thread.id) = m.(Message.thread_id)
            /\ thread_of_claim d claimId t.

(** One step of the system: a request of the application, or a
    statement sent to the store by whoever holds a session, under the
    policies of the schema.  The tables have no other policy: a DELETE of
    replies, threads or messages and an UPDATE of messages select no row.
    A statement addresses its row by primary key, as the application's
    do; one with another filter does what a sequence of these does. *)
Inductive step (d : database) : database -> Prop :=
| step_request (s : session) (req : request) :
    step d (fst (perform s req d))
| step_insert_claim (s : session) (new_id : uuid) (now : timestamptz)
                    (text : jsstring) (claim_type : ClaimType)
                    (author_id : uuid) d' :
    insert_claim s new_id now text claim_type author_id d = Ok d' ->
    step d d'
| step_update_claim (s : session) (claimId : uuid) (p : ClaimPatch.t) d' :
    update_claim s claimId p d = Ok d' -> step d d'
| step_delete_claim (s : session) (claimId : uuid) :
    step d (delete_claim s claimId d)
| step_insert_reply (s : session) (thread_id : uuid) (now : timestamptz)
                    (NEW : Reply.t) d' :
    insert_reply_row s thread_id now NEW d = Ok d' -> step d d'
| step_update_reply (s : session) (replyId : uuid) (p : ReplyPatch.t) d' :
    update_reply s replyId p d = Ok d' -> step d d'
| step_insert_thread (s : session) (new_id : uuid) (now : timestamptz)
                     (reply_id claim_owner_id reply_author_id : uuid) d' :
    insert_thread s new_id now reply_id claim_owner_id reply_author_id d
    = Ok d' ->
    step d d'
| step_update_thread (s : session) (threadId : uuid) (p : ThreadPatch.t) d' :
    update_thread s threadId p d = Ok d' -> step d d'
| step_insert_message (s : session) (new_id : uuid) (now : timestamptz)
                      (thread_id sender_id : uuid) (body : jsstring) d' :
    insert_message s new_id now thread_id sender_id body d = Ok d' ->
    step d d'.

(** The databases that can be reached from empty tables.  The accounts
    are given once and for all: none is added later, which would permit
    nothing new, and none is deleted. *)
Inductive reachable : database -> Prop :=
| reachable_empty (accounts : list uuid) :
    reachable (mkDb accounts [] [] [] [])
| reachable_step d d' : reachable d -> step d d' -> reachable d'.

(* ================================================================== *)
(** ** A sample database: the scenario of the README's usage flow *)

Definition alice : uuid := 1%N.
Definition bob : uuid := 2%N.
Definition carol : uuid := 3%N.

(** Three accounts, nothing posted. *)
Definition db_empty : database := mkDb [alice; bob; carol] [] [] [] [].

(** Alice posts claim 10. *)
Definition claim10 : Claim.t :=
  Claim.mk 10%N (js "X is true") fact alice 100%Z.

Definition db_claim : database :=
  mkDb [alice; bob; carol] [claim10] [] [] [].

(** Bob replies with reply 20; the trigger opens thread 30. *)
Definition reply20 : Reply.t :=
  Reply.mk 20%N 10%N (js "X is false") contradicts pending None bob 200%Z.

Definition thread30 : Thread.t := Thread.mk 30%N 20%N alice bob 200%Z.

Definition db_reply : database :=
  mkDb [alice; bob; carol] [claim10] [reply20] [thread30] [].

(** Bob submits the same reply again: reply 21 with thread 31. *)
Definition db_reply_again : database :=
  mkDb [alice; bob; carol] [claim10]
       [reply20;
        Reply.mk 21%N 10%N (js "X is false") contradicts pending None bob
                 201%Z]
       [thread30; Thread.mk 31%N 21%N alice bob 201%Z] [].

(** Bob writes message 40 in thread 30. *)
Definition message40 : Message.t :=
  Message.mk 40%N 30%N bob (js "let's discuss") 300%Z.

Definition db_chat : database :=
  mkDb [alice; bob; carol] [claim10] [reply20] [thread30] [message40].

(** A text of [n] code units, none of them white space. *)
Definition text_of_length (n : nat) : jsstring := repeat 120%N n.


(* ================================================================== *)
(** ** More of the claim page (ReplySection.tsx, renderReplyGroup) *)

(** The "Rejection reason" paragraph: rendered when the status is
    'rejected' and the reason is a non-empty string. *)
Definition displayed_rejection_reason (reply : Reply.t) : option jsstring :=
  if status_eqb reply.(Reply.status) rejected then
    match reply.(Reply.rejection_reason) with
    | Some (c :: reason) => Some (c :: reason)
    | _ => None
    end
  else None.

(** The group ClaimPage files a status under. *)
Definition replies_with_status (st : ReplyStatus) (props : ReplySectionProps)
    : list Reply.t :=
  match st with
  | accepted => props.(repliesAccepted)
  | pending => props.(repliesPending)
  | rejected => props.(repliesRejected)
  end.

(** What a request leaves of a reply: everything but its status and its
    rejection reason. *)
Definition same_content (r r' : Reply.t) : Prop :=
  r'.(Reply.id) = r.(Reply.id)
  /\ r'.(Reply.parent_claim_id) = r.(Reply.parent_claim_id)
  /\ r'.(Reply.text) = r.(Reply.text)
  /\ r'.(Reply.stance) = r.(Reply.stance)
  /\ r'.(Reply.author_id) = r.(Reply.author_id)
  /\ r'.(Reply.created_at) = r.(Reply.created_at).

(** A string that neither starts nor ends with white space. *)
Definition no_outer_white_space (s : jsstring) : Prop :=
  match s with
  | [] => True
  | c :: _ => is_white_space c = false /\ is_white_space (last s c) = false
  end.

(* ================================================================== *)
(** ** The links between the tables *)

(** FOREIGN KEY replies.parent_claim_id REFERENCES claims(id). *)
Definition replies_reference_claims (d : database) : Prop :=
  forall r, In r d.(replies) ->
            has_id Claim.id r.(Reply.parent_claim_id) d.(claims) = true.

(** UNIQUE(reply_id) on threads. *)
Definition unique_reply_id (d : database) : Prop :=
  NoDup (map Thread.reply_id d.(threads)).

(** Every reply has a thread. *)
Definition replies_have_threads (d : database) : Prop :=
  forall r, In r d.(replies) ->
            has_id Thread.reply_id r.(Reply.id) d.(threads) = true.

(** FOREIGN KEY messages.thread_id REFERENCES threads(id). *)
Definition messages_reference_threads (d : database) : Prop :=
  forall m, In m d.(messages) ->
            has_id Thread.id m.(Message.thread_id) d.(threads) = true.

Record linked (d : database) : Prop := mkLinked
  { linked_keys : primary_keys d;
    linked_threads : threads_reference_replies d;
    linked_replies : replies_reference_claims d;
    linked_unique : unique_reply_id d;
    linked_provisioned : replies_have_threads d;
    linked_messages : messages_reference_threads d }.

(* ================================================================== *)
(** ** The live feed of a thread (ThreadView.tsx) *)

(** The callback of the subscription: fetch the inserted message by its
    id, as the viewer, and append it to the local list when it is
    returned. *)
Definition on_message_inserted (s : session) (payload_new_id : uuid)
    (d : database) (prev : list Message.t) : list Message.t :=
  match single (filter (fun m => (m.(Message.id) =? payload_new_id)%N)
                       (select_messages s d)) with
  | Some newMessage => prev ++ [newMessage]
  | None => prev
  end.

(** An INSERT event on messages reaches the callback of a view when it
    passes the filter thread_id=eq.threadId of its channel. *)
Definition deliver (s : session) (threadId : uuid) (inserted : Message.t)
    (d : database) (localMessages : list Message.t) : list Message.t :=
  if (inserted.(Message.thread_id) =? threadId)%N
  then on_message_inserted s inserted.(Message.id) d localMessages
  else localMessages.

(* ================================================================== *)
(** ** Accounts and profiles (schema.sql, lib/supabase.ts, app/page.tsx) *)

(** A row of auth.users, as far as the schema reads it: [full_name] is
    raw_user_meta_data->>'full_name', NULL when the key is missing. *)
Module AuthUser.
Record t := mk
  { id : uuid;
    email : option jsstring;
    full_name : option jsstring }.
End AuthUser.

Module Profile.
Record t := mk
  { id : uuid;
    display_name : option jsstring;
    created_at : timestamptz }.
End Profile.

Record accounts := mkAccounts
  { auth_users : list AuthUser.t;
    profiles : list Profile.t }.

Definition COALESCE {A} (a b : option A) : option A :=
  match a with
  | Some x => Some x
  | None => b
  end.

(** Trigger function [public.handle_new_user()]: SECURITY DEFINER, so no
    policy applies; primary key of profiles and its reference to
    auth.users. *)
Definition handle_new_user (now : timestamptz) (NEW : AuthUser.t)
    (a : accounts) : result accounts :=
  check negb (has_id Profile.id NEW.(AuthUser.id) a.(profiles))
    else unique_violation ;;
  check has_id AuthUser.id NEW.(AuthUser.id) a.(auth_users)
    else foreign_key_violation ;;
  Ok (mkAccounts a.(auth_users)
        (a.(profiles)
           ++ [Profile.mk NEW.(AuthUser.id)
                          (COALESCE NEW.(AuthUser.full_name)
                                    NEW.(AuthUser.email))
                          now])).

(** A sign-up: the row goes into auth.users and trigger
    [on_auth_user_created] runs AFTER INSERT, inside the statement. *)
Definition sign_up (now : timestamptz) (NEW : AuthUser.t) (a : accounts)
    : result accounts :=
  check negb (has_id AuthUser.id NEW.(AuthUser.id) a.(auth_users))
    else unique_violation ;;
  handle_new_user now NEW
    (mkAccounts (a.(auth_users) ++ [NEW]) a.(profiles)).

(** INSERT into profiles through the API: policy "Users can insert their
    own profile". *)
Definition insert_profile (s : session) (id : uuid)
    (display_name : option jsstring) (now : timestamptz) (a : accounts)
    : result accounts :=
  run decode_optional display_name ;;
  check auth_uid_is s id else insufficient_privilege ;;
  check negb (has_id Profile.id id a.(profiles)) else unique_violation ;;
  check has_id AuthUser.id id a.(auth_users) else foreign_key_violation ;;
  Ok (mkAccounts a.(auth_users)
        (a.(profiles) ++ [Profile.mk id display_name now])).

Module ProfilePatch.
Record t := mk
  { id : option uuid;
    display_name : option (option jsstring);
    created_at : option timestamptz }.
End ProfilePatch.

Definition apply_profile_patch (p : ProfilePatch.t) (q : Profile.t)
    : Profile.t :=
  Profile.mk (or_keep p.(ProfilePatch.id) q.(Profile.id))
             (or_keep p.(ProfilePatch.display_name) q.(Profile.display_name))
             (or_keep p.(ProfilePatch.created_at) q.(Profile.created_at)).

(** UPDATE profiles SET ... WHERE id = profileId: policy "Users can
    update their own profile".  The USING clause is checked again on the
    new row; then the primary key and the reference to auth.users when
    the id changes. *)
Definition update_profile (s : session) (profileId : uuid)
    (p : ProfilePatch.t) (a : accounts) : result accounts :=
  run decode_optional
        (match p.(ProfilePatch.display_name) with
         | Some name => name
         | None => None
         end) ;;
  ps <- update_where
          (fun q => (q.(Profile.id) =? profileId)%N
                    && auth_uid_is s q.(Profile.id))
          (fun q =>
             let q' := apply_profile_patch p q in
             check auth_uid_is s q'.(Profile.id)
               else insufficient_privilege ;;
             check ((q'.(Profile.id) =? q.(Profile.id))%N
                    || negb (has_id Profile.id q'.(Profile.id)
                                    a.(profiles)))
               else unique_violation ;;
             check ((q'.(Profile.id) =? q.(Profile.id))%N
                    || has_id AuthUser.id q'.(Profile.id) a.(auth_users))
               else foreign_key_violation ;;
             Ok q')
          a.(profiles) ;;
  Ok (mkAccounts a.(auth_users) ps).

Inductive account_step (a : accounts) : accounts -> Prop :=
| step_sign_up now NEW a' : sign_up now NEW a = Ok a' -> account_step a a'
| step_insert_profile s id display_name now a' :
    insert_profile s id display_name now a = Ok a' -> account_step a a'
| step_update_profile s profileId p a' :
    update_profile s profileId p a = Ok a' -> account_step a a'.

Inductive reachable_accounts : accounts -> Prop :=
| no_accounts : reachable_accounts (mkAccounts [] [])
| more_accounts a a' :
    reachable_accounts a -> account_step a a' -> reachable_accounts a'.

(** The embedded profiles of a listed claim, as getDisplayName takes
    them: null, one object, or an array of objects. *)
Inductive embedded_profiles :=
| NoProfiles
| OneProfile (display_name : option jsstring)
| ProfileArray (display_names : list (option jsstring)).

(** [name || "Anonymous"]: null and the empty string are falsy. *)
Definition or_anonymous (name : option jsstring) : jsstring :=
  match name with
  | Some (c :: rest) => c :: rest
  | _ => js "Anonymous"
  end.

Definition getDisplayName (profiles : embedded_profiles) : jsstring :=
  match profiles with
  | NoProfiles => js "Anonymous"
  | ProfileArray display_names =>
      or_anonymous (match display_names with
                    | first :: _ => first
                    | [] => None
                    end)
  | OneProfile display_name => or_anonymous display_name
  end.

(** The name the pages show for a profile created at sign-up. *)
Definition name_after_sign_up (NEW : AuthUser.t) : jsstring :=
  match NEW.(AuthUser.full_name) with
  | Some (c :: name) => c :: name
  | Some [] => js "Anonymous"
  | None => or_anonymous NEW.(AuthUser.email)
  end.

Definition sample_accounts : accounts :=
  mkAccounts [AuthUser.mk alice (Some (js "alice@example.org")) None]
             [Profile.mk alice (Some (js "alice@example.org")) 50%Z].
(* ================================================================== *)
(** ** The sample databases are what the handlers produce *)

Lemma sample_databases_are_runs :
  handleSubmit (Some alice) 10%N 100%Z (js "X is true") fact db_empty
  = (db_claim, Push (ClaimRoute 10%N))
  /\ handleReplySubmit (Some bob) 20%N 30%N 200%Z 10%N (js "X is false")
       contradicts db_claim
     = (db_reply, Refresh)
  /\ handleSendMessage (Some bob) 40%N 300%Z 30%N bob (js "let's discuss")
       db_reply
     = (db_chat, ClearInput).
Proof. repeat split. Qed.

(* ================================================================== *)
(** ** Strings: trimming *)

Lemma trimStart_blank (s : jsstring) : blank s = true -> trimStart s = [].
Proof.
  induction s as [|c s IH]; simpl; [reflexivity|].
  intros H. apply andb_true_iff in H as [Hc Hs].
  rewrite Hc. now apply IH.
Qed.

Lemma trimStart_nil (s : jsstring) : trimStart s = [] -> blank s = true.
Proof.
  induction s as [|c s IH]; simpl; [reflexivity|].
  destruct (is_white_space c); [intros H; now apply IH | discriminate].
Qed.

Lemma blank_app (s t : jsstring) : blank (s ++ t) = blank s && blank t.
Proof. apply forallb_app. Qed.

Lemma blank_rev (s : jsstring) : blank (rev s) = blank s.
Proof.
  induction s as [|c s IH]; simpl; [reflexivity|].
  rewrite blank_app, IH. simpl. rewrite andb_true_r. apply andb_comm.
Qed.

(** What [trimStart] keeps is blank only when it is empty. *)
Lemma blank_trimStart (s : jsstring) : blank (trimStart s) = blank s.
Proof.
  induction s as [|c s IH]; simpl; [reflexivity|].
  destruct (is_white_space c) eqn:Hc; simpl; [exact IH | now rewrite Hc].
Qed.

Lemma trim_nil_iff (s : jsstring) : trim s = [] <-> blank s = true.
Proof.
  unfold trim, trimEnd. split.
  - intros H. apply (f_equal (@rev _)) in H. rewrite rev_involutive in H.
    simpl in H. apply trimStart_nil in H.
    now rewrite blank_rev, blank_trimStart in H.
  - intros H. rewrite (trimStart_blank s H). reflexivity.
Qed.

Lemma trim_length_zero (s : jsstring) :
  (List.length (trim s) =? 0) = blank s.
Proof.
  destruct (blank s) eqn:Hb.
  - apply trim_nil_iff in Hb. now rewrite Hb.
  - destruct (trim s) eqn:Ht; [|reflexivity].
    apply trim_nil_iff in Ht. congruence.
Qed.

Lemma LENGTH_le_length (s : jsstring) : LENGTH s <= List.length s.
Proof. apply filter_length_le. Qed.

Lemma length_trimStart (s : jsstring) :
  List.length (trimStart s) <= List.length s.
Proof.
  induction s as [|c s IH]; simpl; [lia|].
  destruct (is_white_space c); simpl; lia.
Qed.

Lemma length_trim (s : jsstring) : List.length (trim s) <= List.length s.
Proof.
  unfold trim, trimEnd. rewrite length_rev.
  etransitivity; [apply length_trimStart|].
  rewrite length_rev. apply length_trimStart.
Qed.

Lemma LENGTH_trim (s : jsstring) : LENGTH (trim s) <= List.length s.
Proof.
  etransitivity; [apply LENGTH_le_length | apply length_trim].
Qed.

Lemma trimStart_split (s : jsstring) :
  exists p, s = p ++ trimStart s /\ blank p = true.
Proof.
  induction s as [|c s (p & Hs & Hp)]; simpl.
  - exists []. auto.
  - destruct (is_white_space c) eqn:Hc.
    + exists (c :: p). simpl. rewrite Hc, Hp. split; [congruence | reflexivity].
    + exists []. auto.
Qed.

Lemma trimStart_head (s : jsstring) :
  match trimStart s with
  | c :: _ => is_white_space c = false
  | [] => True
  end.
Proof.
  induction s as [|c s IH]; simpl; [exact I|].
  destruct (is_white_space c) eqn:Hc; [exact IH | exact Hc].
Qed.

Lemma trimStart_fixed (s : jsstring) :
  match s with
  | c :: _ => is_white_space c = false
  | [] => True
  end ->
  trimStart s = s.
Proof. destruct s as [|c s]; simpl; [reflexivity|]. now intros ->. Qed.

Lemma trimEnd_split (s : jsstring) :
  exists q, s = trimEnd s ++ q /\ blank q = true.
Proof.
  destruct (trimStart_split (rev s)) as (p & Hs & Hp).
  exists (rev p). split; [|now rewrite blank_rev].
  unfold trimEnd. rewrite <- rev_app_distr, <- Hs. symmetry.
  apply rev_involutive.
Qed.

Lemma trimEnd_last (s : jsstring) (d : code_unit) :
  trimEnd s <> [] -> is_white_space (last (trimEnd s) d) = false.
Proof.
  unfold trimEnd. pose proof (trimStart_head (rev s)) as H.
  destruct (trimStart (rev s)) as [|h u]; [now intros []|].
  intros _. simpl. now rewrite last_last.
Qed.

Lemma trimEnd_fixed (s : jsstring) (d : code_unit) :
  s <> [] -> is_white_space (last s d) = false -> trimEnd s = s.
Proof.
  intros Hne Hlast. unfold trimEnd.
  rewrite trimStart_fixed; [apply rev_involutive|].
  destruct (rev s) as [|h u] eqn:Hr; [exact I|].
  apply (f_equal (@rev _)) in Hr. rewrite rev_involutive in Hr.
  simpl in Hr. subst s. now rewrite last_last in Hlast.
Qed.

(** Trimming keeps the head of a string that does not start with white
    space. *)
Lemma trimEnd_head (c : code_unit) (s : jsstring) :
  is_white_space c = false -> exists t, trimEnd (c :: s) = c :: t.
Proof.
  intros Hc. destruct (trimEnd_split (c :: s)) as (q & Hs & Hq).
  destruct (trimEnd (c :: s)) as [|c' t].
  - simpl in Hs. subst q. simpl in Hq. rewrite Hc in Hq. discriminate.
  - injection Hs as <- _. now exists t.
Qed.

Lemma trim_no_outer_white_space (s : jsstring) :
  no_outer_white_space (trim s).
Proof.
  unfold trim. pose proof (trimStart_head (trimStart s)) as Hh.
  rewrite (trimStart_fixed _ (trimStart_head s)) in Hh.
  destruct (trimStart s) as [|c t] eqn:Hs; [exact I|].
  destruct (trimEnd_head c t Hh) as (t' & Ht).
  unfold no_outer_white_space. rewrite Ht. split; [exact Hh|].
  rewrite <- Ht. apply trimEnd_last. rewrite Ht. discriminate.
Qed.

(** [trim] returns the string without a blank prefix and a blank
    suffix, and what it returns neither starts nor ends with white space;
    so trimming twice is trimming once. *)
Lemma trim_strips_outer_white_space (s : jsstring) :
  (exists p q,
      s = p ++ trim s ++ q /\ blank p = true /\ blank q = true)
  /\ no_outer_white_space (trim s)
  /\ trim (trim s) = trim s.
Proof.
  split; [|split].
  - destruct (trimStart_split s) as (p & Hs & Hp).
    destruct (trimEnd_split (trimStart s)) as (q & Ht & Hq).
    exists p, q. unfold trim. now rewrite <- Ht.
  - apply trim_no_outer_white_space.
  - pose proof (trim_no_outer_white_space s) as H.
    destruct (trim s) as [|c t] eqn:Ht; [reflexivity|].
    destruct H as [Hc Hlast]. unfold trim.
    rewrite (trimStart_fixed (c :: t) Hc).
    apply (trimEnd_fixed (c :: t) c); [discriminate | exact Hlast].
Qed.

Lemma trim_not_nil (s : jsstring) :
  (List.length (trim s) =? 0) = false -> trim s <> [].
Proof. intros H Hnil. rewrite Hnil in H. discriminate. Qed.

Lemma trim_fixed (s : jsstring) : no_outer_white_space s -> trim s = s.
Proof.
  destruct s as [|c t]; [reflexivity|]. intros [Hc Hlast]. unfold trim.
  rewrite (trimStart_fixed (c :: t) Hc).
  apply (trimEnd_fixed (c :: t) c); [discriminate | exact Hlast].
Qed.

(* ================================================================== *)
(** ** Strings the store can hold *)

(** White space is neither U+0000 nor half of a surrogate pair. *)
Lemma white_space_plain (c : code_unit) :
  is_white_space c = true ->
  (c =? 0)%N = false
  /\ is_high_surrogate c = false
  /\ is_low_surrogate c = false.
Proof.
  unfold is_white_space, is_high_surrogate, is_low_surrogate. intros H.
  repeat rewrite ?orb_true_iff, ?andb_true_iff, ?N.leb_le, ?N.eqb_eq in H.
  split; [apply N.eqb_neq; lia|].
  split; apply andb_false_iff; rewrite !N.leb_gt; lia.
Qed.

Lemma text_error_blank (b : bool) (w : jsstring) :
  blank w = true -> text_error_from b w = text_error_from b [].
Proof.
  revert b. induction w as [|c w IH]; intros b H; [reflexivity|].
  simpl in H. apply andb_true_iff in H as [Hc Hw].
  destruct (white_space_plain c Hc) as (H0 & Hh & Hl).
  destruct b; simpl; rewrite ?H0, ?Hh, Hl; [reflexivity|].
  now apply IH.
Qed.

Lemma text_error_blank_suffix (b : bool) (s w : jsstring) :
  blank w = true -> text_error_from b (s ++ w) = text_error_from b s.
Proof.
  intros Hw. revert b. induction s as [|c s IH]; intros b.
  - now apply text_error_blank.
  - simpl. destruct b.
    + destruct (is_low_surrogate c); [apply IH | reflexivity].
    + destruct (c =? 0)%N; [reflexivity|].
      destruct (is_high_surrogate c); [apply IH|].
      destruct (is_low_surrogate c); [reflexivity | apply IH].
Qed.

Lemma text_error_blank_prefix (p s : jsstring) :
  blank p = true -> text_error (p ++ s) = text_error s.
Proof.
  induction p as [|c p IH]; simpl; intros H; [reflexivity|].
  apply andb_true_iff in H as [Hc Hp].
  destruct (white_space_plain c Hc) as (H0 & Hh & Hl).
  unfold text_error in *. simpl. rewrite H0, Hh, Hl. now apply IH.
Qed.

(** Trimming neither makes a string storable nor spoils one. *)
Lemma text_error_trim (s : jsstring) : text_error (trim s) = text_error s.
Proof.
  destruct (trim_strips_outer_white_space s) as ((p & q & Hs & Hp & Hq) & _).
  rewrite Hs at 2. rewrite (text_error_blank_prefix p _ Hp).
  unfold text_error. symmetry. now apply text_error_blank_suffix.
Qed.

Lemma decode_text_Ok (s : jsstring) :
  text_error s = None -> decode_text s = Ok tt.
Proof. unfold decode_text. now intros ->. Qed.

Lemma decode_text_Err (s : jsstring) (e : pg_error) :
  text_error s = Some e -> decode_text s = Err e.
Proof. unfold decode_text. now intros ->. Qed.

Lemma decode_text_inv (s : jsstring) u :
  decode_text s = Ok u -> text_error s = None.
Proof. unfold decode_text. now destruct (text_error s). Qed.

(* ================================================================== *)
(** ** Validation of submitted text (new/page.tsx, ReplySection.tsx) *)

Lemma handleSubmit_too_long s new_id now text ct d :
  300 < List.length text ->
  handleSubmit s new_id now text ct d
  = (d, SetError (Text "Claim must be 300 characters or less")).
Proof.
  intros H. unfold handleSubmit.
  apply Nat.ltb_lt in H. now rewrite H.
Qed.

Lemma handleSubmit_blank s new_id now text ct d :
  blank text = true ->
  handleSubmit s new_id now text ct d
  = (d, SetError (Text (if 300 <? List.length text
                        then "Claim must be 300 characters or less"
                        else "Claim cannot be empty"))).
Proof.
  intros H. unfold handleSubmit.
  destruct (300 <? List.length text); [reflexivity|].
  now rewrite trim_length_zero, H.
Qed.

Lemma handleSubmit_inserts user new_id now text ct d :
  List.length text <= 300 ->
  blank text = false ->
  text_error text = None ->
  mem user d.(users) = true ->
  has_id Claim.id new_id d.(claims) = false ->
  handleSubmit (Some user) new_id now text ct d
  = (with_claims d
       (d.(claims) ++ [Claim.mk new_id (trim text) ct user now]),
     Push (ClaimRoute new_id)).
Proof.
  intros Hlen Hb Htext Hu Hid. unfold handleSubmit.
  assert (Hl : (300 <? List.length text) = false)
    by (apply Nat.ltb_ge; exact Hlen).
  rewrite Hl, trim_length_zero, Hb.
  unfold insert_claim.
  rewrite decode_text_Ok by (now rewrite text_error_trim). simpl.
  assert (Hc : (LENGTH (trim text) <=? 300) = true).
  { apply Nat.leb_le. pose proof (LENGTH_trim text). lia. }
  rewrite Hc, Hid, Hu. reflexivity.
Qed.

(** A text the store cannot hold is refused by the store, and the form
    shows the store's message. *)
Lemma handleSubmit_unstorable user new_id now text ct d e :
  List.length text <= 300 ->
  blank text = false ->
  text_error text = Some e ->
  handleSubmit (Some user) new_id now text ct d
  = (d, SetError (StoreMessage e)).
Proof.
  intros Hlen Hb Htext. unfold handleSubmit.
  assert (Hl : (300 <? List.length text) = false)
    by (apply Nat.ltb_ge; exact Hlen).
  rewrite Hl, trim_length_zero, Hb.
  unfold insert_claim.
  rewrite (decode_text_Err _ e) by (now rewrite text_error_trim).
  reflexivity.
Qed.

Lemma handleReplySubmit_blank s new_id thread_id now claimId text st d :
  blank text = true ->
  handleReplySubmit s new_id thread_id now claimId text st d
  = (d, SetError (Text "Reply cannot be empty")).
Proof.
  intros H. unfold handleReplySubmit. now rewrite trim_length_zero, H.
Qed.

(** C4, as the code has it.  A claim text of 301 code units is refused
    with an error and no row is inserted.  A text of 300 that is not
    blank, sent by a signed-in user, is inserted when the store can hold
    it; when it cannot (the text has U+0000 or an unpaired surrogate) the
    store refuses it, no row is inserted and the form shows the store's
    error.  A blank (empty or white-space-only) text is refused with an
    error and without an insertion, for claims and for replies. *)
Theorem C4_text_validation :
  forall (s : session) (new_id thread_id : uuid) (now : timestamptz)
         (d : database),
    (forall text ct,
        List.length text = 301 ->
        handleSubmit s new_id now text ct d
        = (d, SetError (Text "Claim must be 300 characters or less")))
    /\ (forall user text ct,
          List.length text = 300 ->
          blank text = false ->
          text_error text = None ->
          s = Some user ->
          mem user d.(users) = true ->
          has_id Claim.id new_id d.(claims) = false ->
          handleSubmit s new_id now text ct d
          = (with_claims d
               (d.(claims) ++ [Claim.mk new_id (trim text) ct user now]),
             Push (ClaimRoute new_id)))
    /\ (forall user text ct,
          List.length text = 300 ->
          blank text = false ->
          text_error text <> None ->
          s = Some user ->
          exists e,
            handleSubmit s new_id now text ct d
            = (d, SetError (StoreMessage e)))
    /\ (forall text ct,
          blank text = true ->
          exists msg,
            handleSubmit s new_id now text ct d = (d, SetError (Text msg)))
    /\ (forall claimId text st,
          blank text = true ->
          handleReplySubmit s new_id thread_id now claimId text st d
          = (d, SetError (Text "Reply cannot be empty"))).
Proof.
  intros s new_id thread_id now d. split; [|split; [|split; [|split]]].
  - intros text ct H. apply handleSubmit_too_long. lia.
  - intros user text ct Hlen Hb Htext -> Hu Hid.
    apply handleSubmit_inserts; auto. lia.
  - intros user text ct Hlen Hb Htext ->.
    destruct (text_error text) as [e|] eqn:He; [|congruence].
    exists e. apply handleSubmit_unstorable; auto. lia.
  - intros text ct Hb. eexists. now apply handleSubmit_blank.
  - intros claimId text st Hb. now apply handleReplySubmit_blank.
Qed.

Lemma C4_text_validation_witness :
  fst (handleSubmit (Some alice) 11%N 150%Z (text_of_length 301) fact db_claim)
  = db_claim
  /\ List.length
       (claims (fst (handleSubmit (Some alice) 11%N 150%Z
                       (text_of_length 300) fact db_claim))) = 2
  /\ handleSubmit (Some alice) 11%N 150%Z (text_of_length 299 ++ [0%N]) fact
       db_claim
     = (db_claim, SetError (StoreMessage untranslatable_character))
  /\ fst (handleSubmit (Some alice) 11%N 150%Z (js "   ") fact db_claim)
     = db_claim
  /\ handleReplySubmit (Some alice) 11%N 12%N 150%Z 10%N (js "   ")
       supports db_claim
     = (db_claim, SetError (Text "Reply cannot be empty")).
Proof.
  destruct (C4_text_validation (Some alice) 11%N 12%N 150%Z db_claim)
    as (H301 & H300 & Hrefused & Hblank & Hreply).
  split; [|split; [|split; [|split]]].
  - rewrite (H301 (text_of_length 301) fact); reflexivity.
  - rewrite (H300 alice (text_of_length 300) fact); reflexivity.
  - destruct (Hrefused alice (text_of_length 299 ++ [0%N]) fact eq_refl
                eq_refl)
      as (e & He); [vm_compute; discriminate | reflexivity |].
    rewrite He. vm_compute in He. now injection He as <-.
  - destruct (Hblank (js "   ") fact) as [msg ->]; reflexivity.
  - apply Hreply. reflexivity.
Defined.

(** The claim's "text of length 300 is accepted" does not hold of every
    such text: Alice, signed in, submits 299 letters followed by U+0000.
    The text has 300 code units and is not blank; the store refuses it,
    no claim is inserted and the form shows the store's error. *)
Lemma C4_text_of_300_refused :
  let text := text_of_length 299 ++ [0%N] in
  List.length text = 300
  /\ blank text = false
  /\ mem alice (users db_claim) = true
  /\ has_id Claim.id 11%N (claims db_claim) = false
  /\ handleSubmit (Some alice) 11%N 150%Z text fact db_claim
     = (db_claim, SetError (StoreMessage untranslatable_character))
  /\ reports_error
       (snd (handleSubmit (Some alice) 11%N 150%Z text fact db_claim)).
Proof.
  cbv zeta. split; [reflexivity|]. split; [reflexivity|].
  split; [reflexivity|]. split; [reflexivity|].
  split; [vm_compute; reflexivity | vm_compute; exact I].
Qed.

(* ================================================================== *)
(** ** What a committed statement has checked *)

(** Split the guards of a statement that is known to have committed. *)
Ltac inv_checks H :=
  unfold bind, guard, decode_text in H;
  repeat match type of H with
         | context [match text_error ?t with _ => _ end] =>
             let E := fresh "Htext" in
             destruct (text_error t) eqn:E; try discriminate H
         | context [if ?b then _ else _] =>
             let E := fresh "Hchk" in
             destruct b eqn:E; try discriminate H
         end.

Lemma insert_claim_Ok s new_id now text ct author d d' :
  insert_claim s new_id now text ct author d = Ok d' ->
  authenticated s = true
  /\ LENGTH text <= 300
  /\ has_id Claim.id new_id d.(claims) = false
  /\ mem author d.(users) = true
  /\ d' = with_claims d (d.(claims) ++ [Claim.mk new_id text ct author now]).
Proof.
  unfold insert_claim. intros H. inv_checks H.
  apply Nat.leb_le in Hchk0. apply negb_true_iff in Hchk1.
  injection H as <-. auto.
Qed.

Lemma insert_thread_Ok new_id now reply_id owner author d d' :
  insert_thread_on_conflict_do_nothing new_id now reply_id owner author d
  = Ok d' ->
  exists o,
    owner = Some o
    /\ ((has_id Thread.reply_id reply_id d.(threads) = true /\ d' = d)
        \/ (has_id Thread.reply_id reply_id d.(threads) = false
            /\ has_id Thread.id new_id d.(threads) = false
            /\ d' = with_threads d
                      (d.(threads)
                         ++ [Thread.mk new_id reply_id o author now]))).
Proof.
  unfold insert_thread_on_conflict_do_nothing. intros H.
  destruct owner as [o|]; [|discriminate]. exists o. split; [reflexivity|].
  destruct (has_id Thread.reply_id reply_id (threads d)) eqn:Hc.
  - injection H as <-. now left.
  - inv_checks H. apply negb_true_iff in Hchk.
    injection H as <-. right. auto.
Qed.

Lemma insert_message_Ok s new_id now thread_id sender body d d' :
  insert_message s new_id now thread_id sender body d = Ok d' ->
  participates_in s d thread_id = true
  /\ s = Some sender
  /\ has_id Message.id new_id d.(messages) = false
  /\ d' = with_messages d
            (d.(messages) ++ [Message.mk new_id thread_id sender body now]).
Proof.
  unfold insert_message. intros H. inv_checks H.
  apply andb_true_iff in Hchk as [Hp Hs]. apply negb_true_iff in Hchk0.
  injection H as <-. repeat split; auto.
  destruct s as [a|]; simpl in Hs; [|discriminate].
  apply N.eqb_eq in Hs. now subst.
Qed.

Lemma has_id_false_filter {A} (id : A -> uuid) k (l : list A) :
  has_id id k l = false -> filter (fun x => (id x =? k)%N) l = [].
Proof.
  induction l as [|x l IH]; simpl; [reflexivity|].
  intros H. apply orb_false_iff in H as [Hx Hl].
  rewrite Hx. now apply IH.
Qed.

Lemma has_id_false_find {A} (id : A -> uuid) k (l : list A) :
  has_id id k l = false -> find (fun x => (id x =? k)%N) l = None.
Proof.
  induction l as [|x l IH]; simpl; [reflexivity|].
  intros H. apply orb_false_iff in H as [Hx Hl].
  rewrite Hx. now apply IH.
Qed.

Lemma has_id_true_find {A} (id : A -> uuid) k (l : list A) :
  has_id id k l = true ->
  exists x, find (fun x => (id x =? k)%N) l = Some x /\ id x = k.
Proof.
  induction l as [|x l IH]; simpl; [discriminate|].
  destruct (id x =? k)%N eqn:Hx; simpl.
  - intros _. exists x. split; [reflexivity | now apply N.eqb_eq].
  - exact IH.
Qed.

Lemma find_app_fresh {A} (p : A -> bool) (l : list A) (x : A) :
  find p l = None -> find p (l ++ [x]) = (if p x then Some x else None).
Proof.
  induction l as [|y l IH]; simpl; [reflexivity|].
  destruct (p y); [discriminate | exact IH].
Qed.

(** What a committed reply insertion has done: the reply is appended and
    the trigger has added the thread unless one for this reply was there
    already. *)
Lemma insert_reply_row_Ok s thread_id now NEW d d' :
  insert_reply_row s thread_id now NEW d = Ok d' ->
  exists claim,
    authenticated s = true
    /\ has_id Reply.id NEW.(Reply.id) d.(replies) = false
    /\ find_claim d NEW.(Reply.parent_claim_id) = Some claim
    /\ d'.(users) = d.(users)
    /\ d'.(claims) = d.(claims)
    /\ d'.(replies) = d.(replies) ++ [NEW]
    /\ d'.(messages) = d.(messages)
    /\ ((has_id Thread.reply_id NEW.(Reply.id) d.(threads) = true
         /\ d'.(threads) = d.(threads))
        \/ (has_id Thread.reply_id NEW.(Reply.id) d.(threads) = false
            /\ d'.(threads)
               = d.(threads)
                   ++ [Thread.mk thread_id NEW.(Reply.id)
                                 claim.(Claim.author_id)
                                 NEW.(Reply.author_id) now])).
Proof.
  unfold insert_reply_row. intros H.
  destruct (decode_text _) in H; [|discriminate]. cbn [bind] in H.
  destruct (decode_optional _) in H; [|discriminate]. cbn [bind] in H.
  inv_checks H. apply negb_true_iff in Hchk0.
  unfold handle_new_reply in H. simpl in H.
  apply insert_thread_Ok in H as (o & Ho & H).
  fold (find_claim d (Reply.parent_claim_id NEW)) in Ho.
  destruct (find_claim d (Reply.parent_claim_id NEW)) as [claim|] eqn:Hc;
    [|discriminate].
  injection Ho as <-. exists claim.
  destruct H as [[Hx ->] | (Hx & _ & ->)]; simpl in *;
    repeat split; auto.
Qed.

(** The thread the trigger adds has the id the statement was given. *)
Lemma insert_reply_row_thread_id s thread_id now NEW d d' :
  insert_reply_row s thread_id now NEW d = Ok d' ->
  has_id Thread.reply_id NEW.(Reply.id) d.(threads) = false ->
  has_id Thread.id thread_id d.(threads) = false.
Proof.
  unfold insert_reply_row. intros H Hnone.
  destruct (decode_text _) in H; [|discriminate]. cbn [bind] in H.
  destruct (decode_optional _) in H; [|discriminate]. cbn [bind] in H.
  inv_checks H. unfold handle_new_reply in H. simpl in H.
  apply insert_thread_Ok in H as (o & _ & [[Hdup _] | (_ & Htid & _)]);
    [simpl in Hdup; congruence | exact Htid].
Qed.

(** The same for the insertion the application sends: the reply starts
    'pending'. *)
Lemma insert_reply_Ok s new_id thread_id now claimId text st author d d' :
  insert_reply s new_id thread_id now claimId text st author d = Ok d' ->
  let NEW := Reply.mk new_id claimId text st pending None author now in
  exists claim,
    authenticated s = true
    /\ has_id Reply.id new_id d.(replies) = false
    /\ find_claim d claimId = Some claim
    /\ d'.(users) = d.(users)
    /\ d'.(claims) = d.(claims)
    /\ d'.(replies) = d.(replies) ++ [NEW]
    /\ d'.(messages) = d.(messages)
    /\ ((has_id Thread.reply_id new_id d.(threads) = true
         /\ d'.(threads) = d.(threads))
        \/ (has_id Thread.reply_id new_id d.(threads) = false
            /\ d'.(threads)
               = d.(threads)
                   ++ [Thread.mk thread_id new_id claim.(Claim.author_id)
                                 author now])).
Proof.
  unfold insert_reply. intros H.
  exact (insert_reply_row_Ok _ _ _ _ _ _ H).
Qed.

(* ================================================================== *)
(** ** Thread provisioning (trigger on_reply_created) *)

Lemma has_id_In {A} (id : A -> uuid) k (l : list A) :
  has_id id k l = true <-> exists x, In x l /\ id x = k.
Proof.
  unfold has_id. rewrite existsb_exists.
  split; intros (x & Hin & Hx); exists x; split; auto;
    now apply N.eqb_eq.
Qed.

Lemma has_id_app {A} (id : A -> uuid) k (l l' : list A) :
  has_id id k (l ++ l') = has_id id k l || has_id id k l'.
Proof. apply existsb_app. Qed.

(** No thread can point at a reply id that is not in use yet. *)
Lemma fresh_reply_has_no_thread d k :
  threads_reference_replies d ->
  has_id Reply.id k d.(replies) = false ->
  has_id Thread.reply_id k d.(threads) = false.
Proof.
  intros Hfk Hfresh.
  destruct (has_id Thread.reply_id k (threads d)) eqn:Ht; [|reflexivity].
  apply has_id_In in Ht as (t & Hin & <-).
  rewrite (Hfk t Hin) in Hfresh. discriminate.
Qed.

(** Running the trigger function again for a reply that has its thread
    changes nothing and raises nothing. *)
Lemma handle_new_reply_again thread_id now NEW d :
  has_id Claim.id NEW.(Reply.parent_claim_id) d.(claims) = true ->
  has_id Thread.reply_id NEW.(Reply.id) d.(threads) = true ->
  handle_new_reply thread_id now NEW d = Ok d.
Proof.
  intros Hc Ht. unfold handle_new_reply.
  apply has_id_true_find in Hc as (c & -> & _). simpl.
  now rewrite Ht.
Qed.

(** Creating another reply does not touch the threads of the replies
    that are there. *)
Lemma later_reply_keeps_threads s new_id thread_id now claimId text st
      author d d' k :
  insert_reply s new_id thread_id now claimId text st author d = Ok d' ->
  has_id Reply.id k d.(replies) = true ->
  threads_of_reply d' k = threads_of_reply d k.
Proof.
  intros H Hk.
  apply insert_reply_Ok in H as (claim & _ & Hfresh & _ & _ & _ & _ & _ & Hts).
  unfold threads_of_reply.
  destruct Hts as [[_ ->] | [_ ->]]; [reflexivity|].
  rewrite filter_app. simpl.
  destruct (new_id =? k)%N eqn:Hid; [|apply app_nil_r].
  apply N.eqb_eq in Hid. congruence.
Qed.

(** C1.  A committed reply insertion leaves exactly one thread whose
    reply_id is the new reply: before the statement there was neither the
    reply nor a thread for it, after it there are both (a statement that
    fails commits nothing), the thread's claim_owner_id is the parent
    claim's author and its reply_author_id the reply's author.
    Provisioning the thread of that reply once more, with whatever fresh
    id and time, returns the same database and no error; and a repeated
    creation call, which makes another reply, leaves this reply with its
    one thread. *)
Theorem C1_one_thread_per_reply :
  forall (s : session) (new_id thread_id : uuid) (now : timestamptz)
         (claimId : uuid) (text : jsstring) (st : StanceType)
         (author : uuid) (d d' : database),
    threads_reference_replies d ->
    insert_reply s new_id thread_id now claimId text st author d = Ok d' ->
    let r := Reply.mk new_id claimId text st pending None author now in
    exists claim,
      let t := Thread.mk thread_id new_id claim.(Claim.author_id)
                         r.(Reply.author_id) now in
      find_claim d claimId = Some claim
      /\ find_reply d new_id = None
      /\ threads_of_reply d new_id = []
      /\ find_reply d' new_id = Some r
      /\ threads_of_reply d' new_id = [t]
      /\ (forall thread_id' now',
            handle_new_reply thread_id' now' r d' = Ok d')
      /\ (forall s' new_id' thread_id' now' d'',
            insert_reply s' new_id' thread_id' now' claimId text st author
                         d' = Ok d'' ->
            threads_of_reply d'' new_id = [t]).
Proof.
  intros s new_id thread_id now claimId text st author d d' Hfk H r.
  pose proof H as Hins.
  apply insert_reply_Ok in H
    as (claim & _ & Hfresh & Hclaim & _ & Hcs & Hrs & _ & Hts).
  pose proof (fresh_reply_has_no_thread d new_id Hfk Hfresh) as Hnone.
  destruct Hts as [[Hdup _] | [_ Hts]]; [congruence|].
  exists claim. cbv zeta.
  assert (Hone : threads_of_reply d' new_id
                 = [Thread.mk thread_id new_id (Claim.author_id claim)
                              author now]).
  { unfold threads_of_reply. rewrite Hts, filter_app.
    rewrite (has_id_false_filter Thread.reply_id new_id _ Hnone).
    simpl. now rewrite N.eqb_refl. }
  assert (Hin : has_id Reply.id new_id (replies d') = true).
  { rewrite Hrs, has_id_app. simpl. rewrite N.eqb_refl.
    apply orb_true_r. }
  unfold find_reply. rewrite Hrs.
  rewrite (find_app_fresh _ _ _ (has_id_false_find Reply.id new_id _ Hfresh)).
  simpl. rewrite N.eqb_refl.
  repeat split; auto.
  - now apply has_id_false_find.
  - now apply has_id_false_filter.
  - intros thread_id' now'. apply handle_new_reply_again; simpl.
    + rewrite Hcs. unfold find_claim in Hclaim.
      apply has_id_In. apply find_some in Hclaim as [Hc Hid].
      exists claim. split; [exact Hc | now apply N.eqb_eq].
    + rewrite Hts, has_id_app. simpl.
      rewrite N.eqb_refl. apply orb_true_r.
  - intros s' new_id' thread_id' now' d'' H2.
    rewrite <- Hone. eapply later_reply_keeps_threads; eauto.
Qed.

Lemma C1_one_thread_per_reply_witness :
  threads_of_reply db_reply 20%N = [thread30]
  /\ handle_new_reply 31%N 201%Z reply20 db_reply = Ok db_reply
  /\ threads_of_reply db_reply_again 20%N = [thread30].
Proof.
  destruct (C1_one_thread_per_reply (Some bob) 20%N 30%N 200%Z 10%N
              (js "X is false") contradicts bob db_claim db_reply)
    as (claim & Hclaim & _ & _ & _ & Hthread & Hagain & Hretry).
  - intros t [].
  - reflexivity.
  - injection Hclaim as <-.
    split; [exact Hthread|]. split; [apply Hagain|].
    apply (Hretry (Some bob) 21%N 31%N 201%Z db_reply_again). reflexivity.
Defined.

(* ================================================================== *)
(** ** Reply status (policy "Claim owner can update reply status") *)

Lemma NoDup_map_eq {A} (id : A -> uuid) (l : list A) (x y : A) :
  NoDup (map id l) -> In x l -> In y l -> id x = id y -> x = y.
Proof.
  induction l as [|z l IH]; simpl; [contradiction|].
  intros Hnd Hx Hy Hid. inversion Hnd as [|? ? Hz Hnd']; subst.
  destruct Hx as [<-|Hx], Hy as [<-|Hy]; auto.
  - exfalso. apply Hz. rewrite Hid. now apply in_map.
  - exfalso. apply Hz. rewrite <- Hid. now apply in_map.
Qed.

Lemma NoDup_map_filter {A} (id : A -> uuid) (p : A -> bool) (l : list A) :
  NoDup (map id l) -> NoDup (map id (filter p l)).
Proof.
  induction l as [|x l IH]; simpl; intros Hnd; [constructor|].
  inversion Hnd as [|? ? Hx Hnd']; subst.
  destruct (p x); simpl; [|now apply IH].
  constructor; [|now apply IH].
  intros Hin. apply Hx. apply in_map_iff in Hin as (y & Hy & Hin).
  apply filter_In in Hin as [Hin _]. apply in_map_iff. eauto.
Qed.

Lemma with_replies_same d : with_replies d d.(replies) = d.
Proof. now destruct d. Qed.

Lemma find_map_keeping_id (k : uuid) (f : Reply.t -> Reply.t) l :
  (forall r, Reply.id (f r) = Reply.id r) ->
  find (fun r => (Reply.id r =? k)%N) (map f l)
  = option_map f (find (fun r => (Reply.id r =? k)%N) l).
Proof.
  intros Hf. induction l as [|r l IH]; simpl; [reflexivity|].
  rewrite Hf. destruct (Reply.id r =? k)%N; [reflexivity | exact IH].
Qed.

Lemma owner_owns_parent_claim d r claim :
  find_claim d r.(Reply.parent_claim_id) = Some claim ->
  owns_parent_claim (Some claim.(Claim.author_id)) d r = true.
Proof.
  intros H. apply find_some in H as [Hin Hid].
  unfold owns_parent_claim. apply existsb_exists.
  exists claim. split; [exact Hin|]. simpl.
  now rewrite Hid, N.eqb_refl.
Qed.

Lemma stranger_owns_no_parent_claim s d r claim :
  NoDup (map Claim.id d.(claims)) ->
  find_claim d r.(Reply.parent_claim_id) = Some claim ->
  s <> Some claim.(Claim.author_id) ->
  owns_parent_claim s d r = false.
Proof.
  intros Hnd H Hs. apply find_some in H as [Hin Hid].
  apply N.eqb_eq in Hid.
  destruct (owns_parent_claim s d r) eqn:Ho; [|reflexivity].
  exfalso. apply Hs.
  apply existsb_exists in Ho as (c & Hc & Hcond).
  apply andb_true_iff in Hcond as [Hcid Hauth].
  apply N.eqb_eq in Hcid.
  assert (c = claim) as -> by (eapply NoDup_map_eq; eauto; congruence).
  destruct s as [a|]; simpl in Hauth; [|discriminate].
  apply N.eqb_eq in Hauth. now subst.
Qed.

(** An UPDATE whose rows all pass their checks rewrites them in place. *)
Lemma update_where_map {A} (sel : A -> bool) (f : A -> result A)
      (g : A -> A) (l : list A) :
  (forall x, In x l -> sel x = true -> f x = Ok (g x)) ->
  update_where sel f l = Ok (map (fun x => if sel x then g x else x) l).
Proof.
  induction l as [|x l IH]; simpl; intros H; [reflexivity|].
  rewrite IH by (intros y Hy; apply H; now right).
  destruct (sel x) eqn:Hs; [|reflexivity].
  now rewrite (H x (or_introl eq_refl) Hs).
Qed.

Lemma decode_or_null (x : jsstring) :
  decode_optional (or_null x) = decode_text x.
Proof. now destruct x. Qed.

(** The UPDATE the two handlers send keeps the id, the parent claim and
    the author of the row: once its body is decoded it commits, and
    rewrites the rows it selects. *)
Lemma update_reply_status s replyId st reason d :
  update_reply s replyId (status_patch st reason) d
  = (run decode_optional (match reason with
                          | Some r => r
                          | None => None
                          end) ;;
     Ok (rewrite_reply s replyId (status_patch st reason) d)).
Proof.
  unfold update_reply, rewrite_reply.
  cbn [ReplyPatch.text ReplyPatch.rejection_reason status_patch
       decode_optional bind].
  destruct (decode_optional _); [|reflexivity]. cbn [bind].
  rewrite (update_where_map _ _
             (apply_reply_patch (status_patch st reason)));
    [reflexivity|].
  intros r _ Hsel. apply andb_true_iff in Hsel as [_ Hown]. cbv zeta.
  change (owns_parent_claim s d
            (apply_reply_patch (status_patch st reason) r))
    with (owns_parent_claim s d r).
  rewrite Hown. simpl. now rewrite !N.eqb_refl.
Qed.

Lemma decide_storable s replyId dec d :
  decision_error dec = None ->
  decide s replyId dec d
  = (rewrite_reply s replyId (decision_patch dec) d, Refresh).
Proof.
  destruct dec as [|reason]; simpl; intros H;
    unfold handleAcceptReply, handleRejectReply;
    rewrite update_reply_status; [reflexivity|].
  now rewrite decode_or_null, (decode_text_Ok _ H).
Qed.

Lemma decide_unstorable s replyId dec d e :
  decision_error dec = Some e ->
  decide s replyId dec d = (d, Alert (Text "An error occurred")).
Proof.
  destruct dec as [|reason]; simpl; intros H; [discriminate|].
  unfold handleRejectReply. rewrite update_reply_status.
  now rewrite decode_or_null, (decode_text_Err _ _ H).
Qed.

(** The rewriting of a reply by the author of its parent claim. *)
Lemma rewrite_reply_by_owner d r claim st reason :
  find_reply d r.(Reply.id) = Some r ->
  find_claim d r.(Reply.parent_claim_id) = Some claim ->
  find_reply (rewrite_reply (Some claim.(Claim.author_id)) r.(Reply.id)
                            (status_patch st reason) d)
             r.(Reply.id)
  = Some (apply_reply_patch (status_patch st reason) r).
Proof.
  intros Hr Hc. unfold find_reply, rewrite_reply in *. simpl.
  rewrite find_map_keeping_id.
  - rewrite Hr. simpl.
    now rewrite N.eqb_refl, (owner_owns_parent_claim d r claim Hc).
  - intros r0. now destruct (_ && _).
Qed.

(** Sent by anybody else the rewriting selects no row. *)
Lemma rewrite_reply_by_stranger s d r claim p :
  primary_keys d ->
  find_reply d r.(Reply.id) = Some r ->
  find_claim d r.(Reply.parent_claim_id) = Some claim ->
  s <> Some claim.(Claim.author_id) ->
  rewrite_reply s r.(Reply.id) p d = d.
Proof.
  intros (Hpc & Hpr & _) Hr Hc Hs. unfold rewrite_reply.
  rewrite <- (with_replies_same d) at 3. f_equal.
  rewrite <- (map_id (replies d)) at 2.
  apply map_ext_in. intros r0 Hin.
  destruct (Reply.id r0 =? Reply.id r)%N eqn:Hid; [|reflexivity].
  apply N.eqb_eq in Hid. apply find_some in Hr as [Hrin _].
  assert (r0 = r) as -> by (eapply NoDup_map_eq; eauto).
  now rewrite (stranger_owns_no_parent_claim s d r claim Hpc Hc Hs).
Qed.

Lemma decide_by_stranger s d r claim dec :
  primary_keys d ->
  find_reply d r.(Reply.id) = Some r ->
  find_claim d r.(Reply.parent_claim_id) = Some claim ->
  s <> Some claim.(Claim.author_id) ->
  fst (decide s r.(Reply.id) dec d) = d
  /\ (decision_error dec = None ->
      decide s r.(Reply.id) dec d = (d, Refresh)).
Proof.
  intros Hpk Hr Hc Hs.
  destruct (decision_error dec) as [e|] eqn:He.
  - rewrite (decide_unstorable _ _ _ _ e He). split; [reflexivity|].
    discriminate.
  - rewrite (decide_storable _ _ _ _ He),
      (rewrite_reply_by_stranger s d r claim _ Hpk Hr Hc Hs). auto.
Qed.

Lemma decide_by_owner d r claim dec :
  find_reply d r.(Reply.id) = Some r ->
  find_claim d r.(Reply.parent_claim_id) = Some claim ->
  decision_error dec = None ->
  exists r',
    find_reply (fst (decide (Some claim.(Claim.author_id)) r.(Reply.id)
                            dec d))
               r.(Reply.id) = Some r'
    /\ r'.(Reply.id) = r.(Reply.id)
    /\ r'.(Reply.parent_claim_id) = r.(Reply.parent_claim_id)
    /\ r'.(Reply.status) = decided_status dec
    /\ find_claim (fst (decide (Some claim.(Claim.author_id)) r.(Reply.id)
                               dec d))
                  r.(Reply.parent_claim_id) = Some claim.
Proof.
  intros Hr Hc He. rewrite (decide_storable _ _ _ _ He). cbn [fst].
  exists (apply_reply_patch (decision_patch dec) r).
  split; [|destruct dec; repeat split; exact Hc].
  destruct dec; apply rewrite_reply_by_owner; assumption.
Qed.

Lemma last_cons_default {A} (l : list A) : forall (x d1 d2 : A),
  last (x :: l) d1 = last (x :: l) d2.
Proof.
  induction l as [|y l IH]; intros x d1 d2; [reflexivity|].
  change (last (y :: l) d1 = last (y :: l) d2). apply IH.
Qed.

Lemma decide_all_by_owner decs : forall d r claim,
  find_reply d r.(Reply.id) = Some r ->
  find_claim d r.(Reply.parent_claim_id) = Some claim ->
  Forall (fun dec => decision_error dec = None) decs ->
  exists r',
    find_reply (decide_all (Some claim.(Claim.author_id)) r.(Reply.id)
                           decs d)
               r.(Reply.id) = Some r'
    /\ r'.(Reply.status)
       = last (map decided_status decs) r.(Reply.status).
Proof.
  induction decs as [|dec decs IH]; intros d r claim Hr Hc Hok.
  - exists r. auto.
  - inversion Hok as [|? ? Hdec Hdecs]; subst.
    destruct (decide_by_owner d r claim dec Hr Hc Hdec)
      as (r1 & Hr1 & Hid & Hparent & Hst & Hc1).
    set (d1 := fst (decide _ _ dec d)) in *.
    assert (Hr1' : find_reply d1 (Reply.id r1) = Some r1)
      by (rewrite Hid; exact Hr1).
    assert (Hc1' : find_claim d1 (Reply.parent_claim_id r1) = Some claim)
      by (rewrite Hparent; exact Hc1).
    destruct (IH d1 r1 claim Hr1' Hc1' Hdecs) as (r' & Hr' & Hst').
    rewrite Hid in Hr'. exists r'. split; [exact Hr'|].
    rewrite Hst'. simpl map.
    destruct (map decided_status decs) as [|x l]; [exact Hst|].
    change (last (decided_status dec :: x :: l) (Reply.status r))
      with (last (x :: l) (Reply.status r)).
    apply last_cons_default.
Qed.

Lemma or_null_trim (x : jsstring) :
  or_null (trim x) = if blank x then None else Some (trim x).
Proof.
  destruct (blank x) eqn:Hb.
  - apply trim_nil_iff in Hb. now rewrite Hb.
  - destruct (trim x) eqn:Ht; [|reflexivity].
    apply trim_nil_iff in Ht. congruence.
Qed.

(** C2, as the code has it.  A reply is created 'pending'.  Sent by the
    author of the parent claim, accept sets the status to 'accepted' and
    reject sets it to 'rejected' and stores the trimmed reason (null when
    it is blank); both leave the rest of the row alone.  A reason the
    store cannot hold (one with U+0000 or an unpaired surrogate) is
    refused: the handler alerts and the database stays as it was.  Sent
    by anybody else, signed in or not, accept and reject change nothing
    and, when the store can hold the reason, report no error: the update
    selects no row and the handler refreshes the page as it does after a
    success.  After one or more decisions of the parent claim's author
    that the store can hold, the status is 'accepted' or 'rejected'. *)
Theorem C2_reply_status_lifecycle :
  forall (d : database) (r : Reply.t) (claim : Claim.t),
    primary_keys d ->
    find_reply d r.(Reply.id) = Some r ->
    find_claim d r.(Reply.parent_claim_id) = Some claim ->
    let owner := Some claim.(Claim.author_id) in
    let decided st reason :=
      Reply.mk r.(Reply.id) r.(Reply.parent_claim_id) r.(Reply.text)
               r.(Reply.stance) st reason r.(Reply.author_id)
               r.(Reply.created_at) in
    (forall s new_id thread_id now claimId text st author d',
        insert_reply s new_id thread_id now claimId text st author d
        = Ok d' ->
        option_map Reply.status (find_reply d' new_id) = Some pending)
    /\ (snd (handleAcceptReply owner r.(Reply.id) d) = Refresh
        /\ find_reply (fst (handleAcceptReply owner r.(Reply.id) d))
                      r.(Reply.id)
           = Some (decided accepted r.(Reply.rejection_reason)))
    /\ (forall reason,
          text_error reason = None ->
          snd (handleRejectReply owner r.(Reply.id) reason d) = Refresh
          /\ find_reply (fst (handleRejectReply owner r.(Reply.id) reason d))
                        r.(Reply.id)
             = Some (decided rejected
                             (if blank reason then None
                              else Some (trim reason))))
    /\ (forall reason e,
          text_error reason = Some e ->
          handleRejectReply owner r.(Reply.id) reason d
          = (d, Alert (Text "An error occurred")))
    /\ (forall s dec,
          s <> owner ->
          fst (decide s r.(Reply.id) dec d) = d
          /\ (decision_error dec = None ->
              decide s r.(Reply.id) dec d = (d, Refresh)))
    /\ (forall decs,
          decs <> [] ->
          Forall (fun dec => decision_error dec = None) decs ->
          exists r',
            find_reply (decide_all owner r.(Reply.id) decs d) r.(Reply.id)
            = Some r'
            /\ (r'.(Reply.status) = accepted
                \/ r'.(Reply.status) = rejected)).
Proof.
  intros d r claim Hpk Hr Hc owner decided.
  split; [|split; [|split; [|split; [|split]]]].
  - intros s new_id thread_id now claimId text st author d' H.
    apply insert_reply_Ok in H as (_ & _ & Hfresh & _ & _ & _ & Hrs & _).
    unfold find_reply. rewrite Hrs.
    rewrite (find_app_fresh _ _ _
               (has_id_false_find Reply.id new_id _ Hfresh)).
    simpl. now rewrite N.eqb_refl.
  - change (handleAcceptReply owner (Reply.id r) d)
      with (decide owner (Reply.id r) Accept d).
    rewrite (decide_storable _ _ Accept _ eq_refl).
    split; [reflexivity|]. cbn [fst].
    apply (rewrite_reply_by_owner d r claim accepted None Hr Hc).
  - intros reason Htext.
    change (handleRejectReply owner (Reply.id r) reason d)
      with (decide owner (Reply.id r) (Reject reason) d).
    rewrite (decide_storable _ _ (Reject reason));
      [|simpl; now rewrite text_error_trim].
    split; [reflexivity|]. cbn [fst]. rewrite <- or_null_trim.
    exact (rewrite_reply_by_owner d r claim rejected
             (Some (or_null (trim reason))) Hr Hc).
  - intros reason e Htext.
    apply (decide_unstorable owner (Reply.id r) (Reject reason) d e).
    simpl. now rewrite text_error_trim.
  - intros s dec Hs. now apply (decide_by_stranger s d r claim).
  - intros decs Hne Hok.
    destruct (decide_all_by_owner decs d r claim Hr Hc Hok)
      as (r' & Hr' & Hst).
    exists r'. split; [exact Hr'|]. rewrite Hst.
    destruct decs as [|dec decs]; [congruence|]. simpl map.
    clear. revert dec. induction decs as [|dec' decs IH]; intros dec.
    + destruct dec; simpl; auto.
    + change (last (map decided_status (dec :: dec' :: decs))
                   (Reply.status r))
        with (last (map decided_status (dec' :: decs)) (Reply.status r)).
      apply IH.
Qed.

Lemma C2_reply_status_lifecycle_witness :
  option_map Reply.status
    (find_reply (fst (handleAcceptReply (Some alice) 20%N db_reply)) 20%N)
  = Some accepted
  /\ option_map Reply.rejection_reason
       (find_reply (fst (handleRejectReply (Some alice) 20%N
                           (js " insufficient evidence ") db_reply)) 20%N)
     = Some (Some (js "insufficient evidence"))
  /\ handleRejectReply (Some alice) 20%N [110%N; 0%N] db_reply
     = (db_reply, Alert (Text "An error occurred"))
  /\ decide (Some carol) 20%N Accept db_reply = (db_reply, Refresh)
  /\ decide None 20%N (Reject (js "no")) db_reply = (db_reply, Refresh)
  /\ option_map Reply.status
       (find_reply (decide_all (Some alice) 20%N
                      [Reject (js "no"); Accept] db_reply) 20%N)
     = Some accepted.
Proof.
  assert (Hpk : primary_keys db_reply).
  { unfold primary_keys. vm_compute.
    repeat split; repeat constructor; intros []. }
  destruct (C2_reply_status_lifecycle db_reply
              reply20
              claim10
              Hpk eq_refl eq_refl)
    as (_ & [_ Hacc] & Hrej & Hbad & Hstranger & Hall).
  split; [|split; [|split; [|split; [|split]]]].
  - exact (f_equal (option_map Reply.status) Hacc).
  - destruct (Hrej (js " insufficient evidence ") eq_refl) as [_ H].
    exact (f_equal (option_map Reply.rejection_reason) H).
  - apply (Hbad [110%N; 0%N] untranslatable_character). reflexivity.
  - destruct (Hstranger (Some carol) Accept) as [_ H]; [discriminate|].
    now apply H.
  - destruct (Hstranger None (Reject (js "no"))) as [_ H]; [discriminate|].
    now apply H.
  - destruct (Hall [Reject (js "no"); Accept]) as (r' & Hr' & _);
      [discriminate | repeat constructor |].
    reflexivity.
Defined.

(** The claim's "fail with Forbidden" does not hold: Carol, who is not
    the author of claim 10, accepts and rejects Bob's reply to it, and
    neither handler reports an error. *)
Lemma C2_stranger_gets_no_error :
  option_map Claim.author_id (find_claim db_reply 10%N) = Some alice
  /\ option_map Reply.parent_claim_id (find_reply db_reply 20%N) = Some 10%N
  /\ carol <> alice
  /\ handleAcceptReply (Some carol) 20%N db_reply = (db_reply, Refresh)
  /\ handleRejectReply (Some carol) 20%N (js "no") db_reply
     = (db_reply, Refresh)
  /\ ~ reports_error (snd (handleAcceptReply (Some carol) 20%N db_reply))
  /\ ~ reports_error
         (snd (handleRejectReply (Some carol) 20%N (js "no") db_reply)).
Proof.
  repeat split; try reflexivity; try discriminate; intros H; exact H.
Qed.

(* ================================================================== *)
(** ** Threads and messages are closed to third parties *)

Lemma single_Some {A} (l : list A) (x : A) : single l = Some x -> l = [x].
Proof.
  destruct l as [|y [|z l]]; simpl; try discriminate. now intros [= ->].
Qed.

Lemma stranger_is_no_participant s t :
  s <> Some t.(Thread.claim_owner_id) ->
  s <> Some t.(Thread.reply_author_id) ->
  is_participant s t = false.
Proof.
  intros Ho Ha. unfold is_participant.
  destruct s as [a|]; simpl; [|reflexivity].
  apply orb_false_iff. split; apply N.eqb_neq; congruence.
Qed.

Lemma stranger_participates_in_nothing s d t :
  NoDup (map Thread.id d.(threads)) ->
  In t d.(threads) ->
  is_participant s t = false ->
  participates_in s d t.(Thread.id) = false.
Proof.
  intros Hnd Hin Hp.
  destruct (participates_in s d (Thread.id t)) eqn:H; [|reflexivity].
  apply existsb_exists in H as (t' & Hin' & Hcond).
  apply andb_true_iff in Hcond as [Hid Hp']. apply N.eqb_eq in Hid.
  assert (t' = t) as -> by (eapply NoDup_map_eq; eauto).
  congruence.
Qed.

Lemma hidden_thread_not_selected s d id :
  participates_in s d id = false ->
  filter (fun t => (t.(Thread.id) =? id)%N) (select_threads s d) = [].
Proof.
  unfold participates_in, select_threads.
  induction (threads d) as [|t l IH]; simpl; [reflexivity|].
  intros H. apply orb_false_iff in H as [Ht Hl].
  destruct (is_participant s t) eqn:Hp; simpl; [|now apply IH].
  rewrite andb_true_r in Ht. rewrite Ht. now apply IH.
Qed.

Lemma ThreadPage_hidden s d id :
  participates_in s d id = false ->
  ThreadPage s id d
  = if authenticated s then NotFound else Redirect LoginRoute.
Proof.
  intros H. unfold ThreadPage. destruct s as [user|]; [|reflexivity].
  now rewrite hidden_thread_not_selected.
Qed.

(** The policy refuses the insertion, unless the body cannot even be
    decoded. *)
Lemma insert_message_hidden s d id new_id now sender body :
  participates_in s d id = false ->
  exists e,
    insert_message s new_id now id sender body d = Err e
    /\ (text_error body = None -> e = insufficient_privilege).
Proof.
  intros H. unfold insert_message, decode_text.
  destruct (text_error body) as [e|]; simpl.
  - exists e. split; [reflexivity | discriminate].
  - rewrite H. simpl. eauto.
Qed.

Lemma handleSendMessage_hidden s d id new_id now sender body :
  participates_in s d id = false ->
  handleSendMessage s new_id now id sender body d
  = (d, if blank body then Nothing
        else Alert (Text "Failed to send message")).
Proof.
  intros H. unfold handleSendMessage.
  rewrite trim_length_zero. destruct (blank body); [reflexivity|].
  destruct (insert_message_hidden s d id new_id now sender (trim body) H)
    as (e & -> & _).
  reflexivity.
Qed.

(** The page's own participant check never fires: a thread the caller
    takes no part in is not returned to it in the first place. *)
Lemma ThreadPage_never_redirects_home s id d :
  ThreadPage s id d <> Redirect HomeRoute.
Proof.
  unfold ThreadPage. destruct s as [user|]; [|discriminate].
  destruct (single _) as [thread|] eqn:Ht; [|discriminate].
  apply single_Some in Ht.
  assert (Hin : In thread (filter (fun t => (Thread.id t =? id)%N)
                                  (select_threads (Some user) d)))
    by (rewrite Ht; now left).
  apply filter_In in Hin as [Hin _]. apply filter_In in Hin as [_ Hp].
  unfold is_participant in Hp. simpl in Hp.
  rewrite (N.eqb_sym user), (N.eqb_sym user) in Hp.
  apply orb_true_iff in Hp as [-> | ->]; simpl;
    [|rewrite andb_false_r];
    destruct (single (filter _ (replies d))); discriminate.
Qed.

(** An UPDATE that selects no row commits and changes nothing. *)
Lemma update_where_none {A} (sel : A -> bool) (f : A -> result A)
      (l : list A) :
  (forall x, In x l -> sel x = false) -> update_where sel f l = Ok l.
Proof.
  induction l as [|x l IH]; simpl; intros H; [reflexivity|].
  rewrite (H x (or_introl eq_refl)), IH by (intros y Hy; apply H; now right).
  reflexivity.
Qed.

Lemma with_threads_same d : with_threads d d.(threads) = d.
Proof. now destruct d. Qed.

(** Who takes no part in a thread cannot rewrite it. *)
Lemma update_thread_hidden s d id p :
  participates_in s d id = false -> update_thread s id p d = Ok d.
Proof.
  intros H. unfold update_thread.
  rewrite update_where_none; [simpl; now rewrite with_threads_same|].
  intros t Hin. destruct (Thread.id t =? id)%N eqn:Hid; [|reflexivity].
  destruct (is_participant s t) eqn:Hp; [|reflexivity].
  assert (participates_in s d id = true); [|congruence].
  apply existsb_exists. exists t. now rewrite Hid, Hp.
Qed.

(** C3, as the code has it.  For a thread [t] and a caller who is neither
    its claim owner nor its reply author: the thread page never shows the
    messages; it answers notFound() to a signed-in caller, because the
    thread row itself is hidden from them and the page's own participant
    check is not reached, and redirects an anonymous caller to the login
    page.  The store returns them neither the thread nor any of its
    messages.  An insertion into the thread is refused, whoever is named
    as sender: as a violation of the row-level-security policy when the
    body can be decoded at all; the send handler leaves the database as
    it was and alerts its fixed text, or drops a blank body without a
    word.  Nor can the caller make themselves a participant: their
    UPDATE of the thread selects no row. *)
Theorem C3_threads_closed_to_strangers :
  forall (d : database) (t : Thread.t) (s : session),
    primary_keys d ->
    In t d.(threads) ->
    s <> Some t.(Thread.claim_owner_id) ->
    s <> Some t.(Thread.reply_author_id) ->
    ThreadPage s t.(Thread.id) d
    = (if authenticated s then NotFound else Redirect LoginRoute)
    /\ ~ In t (select_threads s d)
    /\ (forall m, In m (select_messages s d) ->
                  m.(Message.thread_id) <> t.(Thread.id))
    /\ (forall new_id now sender body,
          exists e,
            insert_message s new_id now t.(Thread.id) sender body d = Err e
            /\ (text_error body = None -> e = insufficient_privilege))
    /\ (forall new_id now sender body,
          handleSendMessage s new_id now t.(Thread.id) sender body d
          = (d, if blank body then Nothing
                else Alert (Text "Failed to send message")))
    /\ (forall p, update_thread s t.(Thread.id) p d = Ok d).
Proof.
  intros d t s (_ & _ & Hpk & _) Hin Ho Ha.
  pose proof (stranger_is_no_participant s t Ho Ha) as Hp.
  pose proof (stranger_participates_in_nothing s d t Hpk Hin Hp) as Hh.
  split; [|split; [|split; [|split; [|split]]]].
  - now apply ThreadPage_hidden.
  - unfold select_threads. rewrite filter_In. intros [_ H]. congruence.
  - intros m Hm Hid. unfold select_messages in Hm.
    apply filter_In in Hm as [_ Hm]. congruence.
  - intros. now apply insert_message_hidden.
  - intros. now apply handleSendMessage_hidden.
  - intros p. now apply update_thread_hidden.
Qed.

Lemma C3_threads_closed_to_strangers_witness :
  ThreadPage (Some carol) 30%N db_chat = NotFound
  /\ ThreadPage None 30%N db_chat = Redirect LoginRoute
  /\ insert_message (Some carol) 41%N 400%Z 30%N bob (js "hello") db_chat
     = Err insufficient_privilege
  /\ handleSendMessage (Some carol) 41%N 400%Z 30%N carol (js "hello")
       db_chat
     = (db_chat, Alert (Text "Failed to send message"))
  /\ update_thread (Some carol) 30%N
       (ThreadPatch.mk None None (Some carol) None None) db_chat
     = Ok db_chat.
Proof.
  assert (Hpk : primary_keys db_chat).
  { unfold primary_keys. vm_compute.
    repeat split; repeat constructor; intros []. }
  assert (Hin : In thread30 (threads db_chat))
    by (left; reflexivity).
  destruct (C3_threads_closed_to_strangers db_chat _ (Some carol) Hpk Hin)
    as (Hpage & _ & _ & Hinsert & Hsend & Hupdate);
    [discriminate | discriminate |].
  destruct (C3_threads_closed_to_strangers db_chat _ None Hpk Hin)
    as (Hanon & _); [discriminate | discriminate |].
  split; [exact Hpage|]. split; [exact Hanon|].
  split; [|split; [apply Hsend | apply Hupdate]].
  destruct (Hinsert 41%N 400%Z bob (js "hello")) as (e & He & Hcode).
  change (Thread.id thread30) with 30%N in He.
  rewrite He, (Hcode eq_refl). reflexivity.
Defined.

(** The claim's "fail with Forbidden" and "fixed participants" do not
    hold.  Carol is signed in and takes no part in thread 30 of Alice and
    Bob.  The thread page does not answer Carol with the redirect of its
    participant check but with notFound(), the answer it also gives for
    thread 99, which does not exist; and a blank message Carol sends to
    the thread is dropped without any error.  Then Bob, a participant,
    puts Carol in Alice's place under the policy "Participants can update
    threads": the statement commits, Carol's page now lists the message
    written before, and Alice's answers notFound(). *)
Lemma C3_not_forbidden_not_fixed :
  threads db_chat = [thread30]
  /\ carol <> alice /\ carol <> bob
  /\ ThreadPage (Some carol) 30%N db_chat <> Redirect HomeRoute
  /\ ThreadPage (Some carol) 30%N db_chat = NotFound
  /\ ThreadPage (Some carol) 99%N db_chat = NotFound
  /\ handleSendMessage (Some carol) 41%N 400%Z 30%N carol (js " ") db_chat
     = (db_chat, Nothing)
  /\ exists d',
       update_thread (Some bob) 30%N
         (ThreadPatch.mk None None (Some carol) None None) db_chat
       = Ok d'
       /\ ThreadPage (Some carol) 30%N d'
          = Render (mkThreadViewProps 30%N reply20 [message40] carol)
       /\ ThreadPage (Some alice) 30%N d' = NotFound.
Proof.
  split; [reflexivity|]. split; [discriminate|]. split; [discriminate|].
  split; [discriminate|]. split; [reflexivity|]. split; [reflexivity|].
  split; [reflexivity|].
  eexists. split; [reflexivity|]. split; reflexivity.
Qed.

(* ================================================================== *)
(** ** ORDER BY *)

Section OrderBy.
Context {A : Type} (le : A -> A -> bool).

Lemma insert_by_perm x l : Permutation (insert_by le x l) (x :: l).
Proof.
  induction l as [|y l IH]; simpl; [reflexivity|].
  destruct (le x y); [reflexivity|].
  rewrite IH. apply perm_swap.
Qed.

Lemma order_by_perm l : Permutation (order_by le l) l.
Proof.
  induction l as [|x l IH]; simpl; [reflexivity|].
  rewrite insert_by_perm. now apply perm_skip.
Qed.

Lemma order_by_In x l : In x (order_by le l) <-> In x l.
Proof.
  split; apply Permutation_in;
    [|symmetry]; apply order_by_perm.
Qed.

(** A row that sorts after all the others stays last. *)
Lemma insert_by_last x l m :
  le x m = true -> insert_by le x (l ++ [m]) = insert_by le x l ++ [m].
Proof.
  intros H. induction l as [|y l IH]; simpl.
  - now rewrite H.
  - destruct (le x y); [reflexivity | now rewrite IH].
Qed.

Lemma order_by_last l m :
  (forall x, In x l -> le x m = true) ->
  order_by le (l ++ [m]) = order_by le l ++ [m].
Proof.
  induction l as [|x l IH]; intros H; simpl; [reflexivity|].
  rewrite IH by (intros y Hy; apply H; now right).
  apply insert_by_last. apply H. now left.
Qed.

Hypothesis le_total : forall a b, le a b = true \/ le b a = true.
Hypothesis le_trans :
  forall a b c, le a b = true -> le b c = true -> le a c = true.

Lemma insert_by_sorted x l :
  StronglySorted (fun a b => le a b = true) l ->
  StronglySorted (fun a b => le a b = true) (insert_by le x l).
Proof.
  induction 1 as [|y l Hl IH Hy]; simpl.
  - repeat constructor.
  - destruct (le x y) eqn:Hxy.
    + constructor; [now constructor|].
      constructor; [exact Hxy|].
      eapply Forall_impl; [|exact Hy].
      intros z Hz. eapply le_trans; eauto.
    + constructor; [exact IH|].
      eapply Permutation_Forall;
        [symmetry; apply insert_by_perm|].
      constructor; [|exact Hy].
      destruct (le_total x y) as [H|H]; [congruence | exact H].
Qed.

Lemma order_by_sorted l :
  StronglySorted (fun a b => le a b = true) (order_by le l).
Proof.
  induction l as [|x l IH]; simpl; [constructor|].
  now apply insert_by_sorted.
Qed.
End OrderBy.

Lemma StronglySorted_weaken {A} (R R' : A -> A -> Prop) l :
  (forall a b, R a b -> R' a b) ->
  StronglySorted R l -> StronglySorted R' l.
Proof.
  intros HR. induction 1 as [|x l Hl IH Hx]; constructor; auto.
  eapply Forall_impl; [|exact Hx]. auto.
Qed.

Lemma ascending_sorted {A} (key : A -> timestamptz) l :
  StronglySorted (fun a b => (key a <= key b)%Z)
                 (order_by (ascending key) l).
Proof.
  apply StronglySorted_weaken
    with (R := fun a b => ascending key a b = true).
  - intros a b H. now apply Z.leb_le.
  - apply order_by_sorted; unfold ascending; intros *;
      rewrite !Z.leb_le; lia.
Qed.

Lemma descending_sorted {A} (key : A -> timestamptz) l :
  StronglySorted (fun a b => (key b <= key a)%Z)
                 (order_by (descending key) l).
Proof.
  apply StronglySorted_weaken
    with (R := fun a b => descending key a b = true).
  - intros a b H. now apply Z.leb_le.
  - apply order_by_sorted; unfold descending; intros *;
      rewrite !Z.leb_le; lia.
Qed.

(* ================================================================== *)
(** ** Sending and listing messages (ThreadView.tsx, thread page) *)

Lemma participant_participates_in s d t :
  In t d.(threads) ->
  is_participant s t = true ->
  participates_in s d t.(Thread.id) = true.
Proof.
  intros Hin Hp. apply existsb_exists. exists t.
  split; [exact Hin|]. now rewrite N.eqb_refl.
Qed.

Lemma participates_in_thread_exists s d id :
  participates_in s d id = true -> has_id Thread.id id d.(threads) = true.
Proof.
  intros H. apply existsb_exists in H as (t & Hin & Hc).
  apply andb_true_iff in Hc as [Hid _].
  apply existsb_exists. eauto.
Qed.

Lemma handleSendMessage_blank s new_id now threadId user body d :
  blank body = true ->
  handleSendMessage s new_id now threadId user body d = (d, Nothing).
Proof.
  intros H. unfold handleSendMessage. now rewrite trim_length_zero, H.
Qed.

Lemma handleSendMessage_inserts user new_id now threadId body d :
  blank body = false ->
  text_error body = None ->
  participates_in (Some user) d threadId = true ->
  mem user d.(users) = true ->
  has_id Message.id new_id d.(messages) = false ->
  handleSendMessage (Some user) new_id now threadId user body d
  = (with_messages d
       (d.(messages)
          ++ [Message.mk new_id threadId user (trim body) now]),
     ClearInput).
Proof.
  intros Hb Htext Hp Hu Hid. unfold handleSendMessage.
  rewrite trim_length_zero, Hb. unfold insert_message.
  rewrite decode_text_Ok by (now rewrite text_error_trim).
  rewrite Hp, Hid, Hu, (participates_in_thread_exists _ _ _ Hp).
  simpl. now rewrite N.eqb_refl.
Qed.

(** A body the store cannot hold is refused by the store, whoever sends
    it, and the handler alerts its fixed text. *)
Lemma handleSendMessage_unstorable s new_id now threadId user body d e :
  blank body = false ->
  text_error body = Some e ->
  handleSendMessage s new_id now threadId user body d
  = (d, Alert (Text "Failed to send message")).
Proof.
  intros Hb Htext. unfold handleSendMessage.
  rewrite trim_length_zero, Hb. unfold insert_message.
  rewrite (decode_text_Err _ e) by (now rewrite text_error_trim).
  reflexivity.
Qed.

(** C6, as the code has it.  A send whose body is blank (empty or white
    space only) inserts nothing and reports nothing: the handler just
    returns.  Any other body the store can hold, sent by a participant of
    the thread, is appended, trimmed, as a message whose sender_id is the
    caller.  A body the store cannot hold (one with U+0000 or an unpaired
    surrogate) is refused by the store: nothing is inserted and the
    handler alerts "Failed to send message". *)
Theorem C6_send_message :
  forall (d : database) (new_id : uuid) (now : timestamptz)
         (body : jsstring),
    (forall s threadId user,
        blank body = true ->
        handleSendMessage s new_id now threadId user body d = (d, Nothing))
    /\ (forall t user,
          blank body = false ->
          text_error body = None ->
          In t d.(threads) ->
          user = t.(Thread.claim_owner_id)
          \/ user = t.(Thread.reply_author_id) ->
          mem user d.(users) = true ->
          has_id Message.id new_id d.(messages) = false ->
          handleSendMessage (Some user) new_id now t.(Thread.id) user body d
          = (with_messages d
               (d.(messages)
                  ++ [Message.mk new_id t.(Thread.id) user (trim body) now]),
             ClearInput))
    /\ (forall s threadId user e,
          blank body = false ->
          text_error body = Some e ->
          handleSendMessage s new_id now threadId user body d
          = (d, Alert (Text "Failed to send message"))).
Proof.
  intros d new_id now body. split; [|split].
  - intros s threadId user Hb. now apply handleSendMessage_blank.
  - intros t user Hb Htext Hin Hu Hmem Hid.
    apply handleSendMessage_inserts; auto.
    apply participant_participates_in; [exact Hin|].
    unfold is_participant. simpl.
    destruct Hu as [-> | ->]; rewrite N.eqb_refl;
      [reflexivity | apply orb_true_r].
  - intros s threadId user e Hb Htext.
    now apply (handleSendMessage_unstorable _ _ _ _ _ _ _ e).
Qed.

Lemma C6_send_message_witness :
  handleSendMessage (Some bob) 41%N 400%Z 30%N bob (js "  ") db_chat
  = (db_chat, Nothing)
  /\ map Message.sender_id
       (messages (fst (handleSendMessage (Some alice) 41%N 400%Z 30%N alice
                         (js "fine") db_chat)))
     = [bob; alice]
  /\ handleSendMessage (Some alice) 41%N 400%Z 30%N alice [0xD83D%N] db_chat
     = (db_chat, Alert (Text "Failed to send message")).
Proof.
  split; [|split].
  - apply (C6_send_message db_chat 41%N 400%Z (js "  ")). reflexivity.
  - destruct (C6_send_message db_chat 41%N 400%Z (js "fine")) as (_ & H & _).
    assert (Hsent := H thread30 alice
                       eq_refl eq_refl (or_introl eq_refl)
                       (or_introl eq_refl) eq_refl eq_refl).
    exact (f_equal (fun x => map Message.sender_id (messages (fst x)))
                   Hsent).
  - destruct (C6_send_message db_chat 41%N 400%Z [0xD83D%N]) as (_ & _ & H).
    apply (H (Some alice) 30%N alice unpaired_surrogate);
      reflexivity.
Defined.

(** The claim's "fails with InvalidInput" does not hold: Bob, a
    participant of thread 30, sends the empty body; nothing is inserted
    and no error is reported. *)
Lemma C6_empty_body_reports_nothing :
  is_participant (Some bob) thread30 = true
  /\ handleSendMessage (Some bob) 41%N 400%Z 30%N bob [] db_chat
     = (db_chat, Nothing)
  /\ ~ reports_error
         (snd (handleSendMessage (Some bob) 41%N 400%Z 30%N bob [] db_chat)).
Proof.
  split; [reflexivity|]. split; [reflexivity|]. intros H. exact H.
Qed.

(** A participant's policy lets all the messages of the thread through. *)
Lemma participant_selects_history s d id (ms : list Message.t) :
  existsb (fun t => (t.(Thread.id) =? id)%N && is_participant s t)
          d.(threads) = true ->
  filter (fun m => (m.(Message.thread_id) =? id)%N)
         (filter (fun m => participates_in s d m.(Message.thread_id)) ms)
  = filter (fun m => (m.(Message.thread_id) =? id)%N) ms.
Proof.
  intros Hp. induction ms as [|m ms IH]; simpl; [reflexivity|].
  destruct (Message.thread_id m =? id)%N eqn:Hid.
  - assert (Hm : participates_in s d (Message.thread_id m) = true).
    { apply N.eqb_eq in Hid. rewrite Hid. exact Hp. }
    rewrite Hm. simpl. now rewrite Hid, IH.
  - destruct (participates_in s d (Message.thread_id m)); simpl;
      [now rewrite Hid|exact IH].
Qed.

(** What a rendered thread page shows. *)
Lemma ThreadPage_Render s id d view :
  ThreadPage s id d = Render view ->
  s = Some view.(currentUserId)
  /\ view.(threadId) = id
  /\ participates_in s d id = true
  /\ view.(initial_messages)
     = order_by (ascending Message.created_at)
         (filter (fun m => (m.(Message.thread_id) =? id)%N) d.(messages)).
Proof.
  unfold ThreadPage. intros H.
  destruct s as [user|]; [|discriminate].
  destruct (single _) as [thread|] eqn:Ht; [|discriminate].
  destruct (_ && _); [discriminate|].
  destruct (single (filter _ (replies d))) as [reply|]; [|discriminate].
  injection H as <-. simpl.
  apply single_Some in Ht.
  assert (Hin : In thread (filter (fun t => (Thread.id t =? id)%N)
                                  (select_threads (Some user) d)))
    by (rewrite Ht; now left).
  apply filter_In in Hin as [Hin Hid]. apply N.eqb_eq in Hid.
  apply filter_In in Hin as [Hin Hp].
  assert (Hpart : participates_in (Some user) d id = true)
    by (rewrite <- Hid; now apply participant_participates_in).
  repeat split; auto.
  unfold select_messages. now rewrite participant_selects_history.
Qed.

(** A message appended to the thread, later than all it holds, shows up
    at the end of every participant's page; the rest of the page stays. *)
Lemma ThreadPage_after_insert s id d view m :
  ThreadPage s id d = Render view ->
  m.(Message.thread_id) = id ->
  (forall x, In x view.(initial_messages) ->
             (x.(Message.created_at) < m.(Message.created_at))%Z) ->
  ThreadPage s id (with_messages d (d.(messages) ++ [m]))
  = Render (mkThreadViewProps view.(threadId) view.(context_reply)
              (view.(initial_messages) ++ [m]) view.(currentUserId)).
Proof.
  intros H Hm Hlate.
  destruct (ThreadPage_Render s id d view H) as (Hs & Hid & Hp & Hms).
  revert H. unfold ThreadPage.
  destruct s as [user|]; [|discriminate].
  unfold select_threads. simpl threads. simpl replies.
  destruct (single _) as [thread|]; [|discriminate].
  destruct (_ && _); [discriminate|].
  destruct (single (filter _ (replies d))) as [reply|]; [|discriminate].
  intros [= <-]. simpl. do 2 f_equal.
  unfold select_messages. simpl messages.
  change (fun m0 => participates_in (Some user)
                      (with_messages d (messages d ++ [m]))
                      (Message.thread_id m0))
    with (fun m0 => participates_in (Some user) d (Message.thread_id m0)).
  rewrite !participant_selects_history by exact Hp.
  rewrite filter_app. simpl. rewrite Hm, N.eqb_refl.
  apply order_by_last. intros x Hx.
  apply Z.leb_le, Z.lt_le_incl. apply Hlate. rewrite Hms.
  now apply order_by_In.
Qed.

(** The page lists the whole history of the thread, oldest first. *)
Lemma ThreadPage_lists_history s id d view :
  ThreadPage s id d = Render view ->
  StronglySorted
    (fun a b => (a.(Message.created_at) <= b.(Message.created_at))%Z)
    view.(initial_messages)
  /\ Permutation view.(initial_messages)
       (filter (fun m => (m.(Message.thread_id) =? id)%N) d.(messages)).
Proof.
  intros H. apply ThreadPage_Render in H as (_ & _ & _ & ->).
  split; [apply ascending_sorted | apply order_by_perm].
Qed.

Lemma filter_by_key {A} (id : A -> uuid) (l : list A) (x : A) :
  NoDup (map id l) -> In x l ->
  filter (fun y => (id y =? id x)%N) l = [x].
Proof.
  induction l as [|y l IH]; simpl; [contradiction|].
  intros Hnd Hin. inversion Hnd as [|? ? Hy Hnd']; subst.
  destruct Hin as [-> | Hin].
  - rewrite N.eqb_refl. f_equal.
    apply has_id_false_filter.
    destruct (has_id id (id x) l) eqn:H; [|reflexivity].
    apply has_id_In in H as (z & Hz & Hid).
    exfalso. apply Hy. rewrite <- Hid. now apply in_map.
  - destruct (id y =? id x)%N eqn:Hid; [|now apply IH].
    apply N.eqb_eq in Hid. exfalso. apply Hy. rewrite Hid. now apply in_map.
Qed.

(** In a database that satisfies its constraints the thread page renders
    for either participant of a thread. *)
Lemma ThreadPage_renders d t user :
  primary_keys d ->
  threads_reference_replies d ->
  In t d.(threads) ->
  is_participant (Some user) t = true ->
  exists reply,
    ThreadPage (Some user) t.(Thread.id) d
    = Render (mkThreadViewProps t.(Thread.id) reply
                (order_by (ascending Message.created_at)
                   (filter (fun m => (m.(Message.thread_id)
                                      =? t.(Thread.id))%N)
                           d.(messages)))
                user).
Proof.
  intros (_ & Hpr & Hpt & _) Hfk Hin Hp.
  pose proof (Hfk t Hin) as Href.
  apply has_id_In in Href as (reply & Hrin & Hrid).
  exists reply. unfold ThreadPage, select_threads.
  rewrite (filter_by_key Thread.id (filter _ (threads d)) t);
    [|now apply NoDup_map_filter | now apply filter_In].
  simpl.
  assert (Hcheck : negb (Thread.claim_owner_id t =? user)%N
                   && negb (Thread.reply_author_id t =? user)%N = false).
  { unfold is_participant in Hp. simpl in Hp.
    apply orb_true_iff in Hp as [Hp | Hp]; apply N.eqb_eq in Hp;
      rewrite <- Hp, N.eqb_refl; [reflexivity | apply andb_false_r]. }
  rewrite Hcheck, <- Hrid.
  rewrite (filter_by_key Reply.id (replies d) reply Hpr Hrin). simpl.
  unfold select_messages.
  rewrite participant_selects_history; [reflexivity|].
  apply (participant_participates_in (Some user) d t Hin Hp).
Qed.

(** C7, as the code has it.  In a database that satisfies its
    constraints, take a thread, a sender and a viewer among its two
    participants, and a body that is not blank and that the store can
    hold, sent at a time later than the messages of the thread.  The
    message is stored with the body trimmed, which is the body as sent
    when that neither starts nor ends with white space, and with the
    sender as sender_id; the list the thread page then shows to the
    viewer is the list it showed before followed by that message; the
    list is the whole history of the thread (a permutation of its stored
    messages) in ascending created_at. *)
Theorem C7_sent_message_is_listed_last :
  forall (d : database) (t : Thread.t) (sender viewer : uuid)
         (new_id : uuid) (now : timestamptz) (body : jsstring),
    primary_keys d ->
    threads_reference_replies d ->
    In t d.(threads) ->
    is_participant (Some sender) t = true ->
    is_participant (Some viewer) t = true ->
    blank body = false ->
    text_error body = None ->
    mem sender d.(users) = true ->
    has_id Message.id new_id d.(messages) = false ->
    (forall x, In x d.(messages) ->
               x.(Message.thread_id) = t.(Thread.id) ->
               (x.(Message.created_at) < now)%Z) ->
    let m := Message.mk new_id t.(Thread.id) sender (trim body) now in
    let d' := with_messages d (d.(messages) ++ [m]) in
    exists reply before,
      ThreadPage (Some viewer) t.(Thread.id) d
      = Render (mkThreadViewProps t.(Thread.id) reply before viewer)
      /\ handleSendMessage (Some sender) new_id now t.(Thread.id) sender
                           body d
         = (d', ClearInput)
      /\ (no_outer_white_space body -> m.(Message.body) = body)
      /\ ThreadPage (Some viewer) t.(Thread.id) d'
         = Render (mkThreadViewProps t.(Thread.id) reply (before ++ [m])
                                     viewer)
      /\ StronglySorted
           (fun a b =>
              (a.(Message.created_at) <= b.(Message.created_at))%Z)
           (before ++ [m])
      /\ Permutation (before ++ [m])
           (filter (fun x => (x.(Message.thread_id) =? t.(Thread.id))%N)
                   d'.(messages)).
Proof.
  intros d t sender viewer new_id now body Hpk Hfk Hin Hs Hv Hb Htext Hu
         Hfresh Hlate m d'.
  destruct (ThreadPage_renders d t viewer Hpk Hfk Hin Hv) as (reply & Hpage).
  exists reply. eexists. split; [exact Hpage|].
  assert (Hafter : ThreadPage (Some viewer) (Thread.id t) d'
                   = Render (mkThreadViewProps (Thread.id t) reply
                               (order_by (ascending Message.created_at)
                                  (filter (fun x => (Message.thread_id x
                                                     =? Thread.id t)%N)
                                          (messages d)) ++ [m])
                               viewer)).
  { apply (ThreadPage_after_insert _ _ _ _ m Hpage); [reflexivity|].
    simpl. intros x Hx. apply order_by_In, filter_In in Hx as [Hx Hid].
    apply N.eqb_eq in Hid. now apply Hlate. }
  split; [|split; [|split; [exact Hafter|]]].
  - apply handleSendMessage_inserts; auto.
    now apply participant_participates_in.
  - intros Hshape. simpl. now apply trim_fixed.
  - now apply (ThreadPage_lists_history _ _ _ _ Hafter).
Qed.

Lemma C7_sent_message_is_listed_last_witness :
  (exists view,
      ThreadPage (Some bob) 30%N
        (fst (handleSendMessage (Some alice) 41%N 400%Z 30%N alice
                (js " fine ") db_chat))
      = Render view
      /\ map Message.body view.(initial_messages)
         = [js "let's discuss"; js "fine"])
  /\ trim (js "it is fine") = js "it is fine".
Proof.
  assert (Hpk : primary_keys db_chat).
  { unfold primary_keys. simpl.
    repeat split; repeat constructor; intros []. }
  assert (Hfk : threads_reference_replies db_chat).
  { intros t [<-|[]]. reflexivity. }
  assert (Hlate : forall x, In x (messages db_chat) ->
                            Message.thread_id x = Thread.id thread30 ->
                            (Message.created_at x < 400)%Z).
  { intros x [<-|[]] _. reflexivity. }
  split.
  - destruct (C7_sent_message_is_listed_last db_chat thread30 alice bob
                41%N 400%Z (js " fine ") Hpk Hfk (or_introl eq_refl)
                eq_refl eq_refl eq_refl eq_refl eq_refl eq_refl Hlate)
      as (reply & before & Hbefore & Hsend & _ & Hafter & _).
    injection Hbefore as <- <-.
    eexists. split.
    + change (Thread.id thread30) with 30%N in Hsend, Hafter.
      rewrite Hsend. exact Hafter.
    + reflexivity.
  - destruct (C7_sent_message_is_listed_last db_chat thread30 alice bob
                41%N 400%Z (js "it is fine") Hpk Hfk (or_introl eq_refl)
                eq_refl eq_refl eq_refl eq_refl eq_refl eq_refl Hlate)
      as (reply & before & _ & _ & Hsame & _).
    apply Hsame. split; reflexivity.
Defined.

(** The claim's "body unmodified" does not hold: Alice sends " ok "
    with a space on either side; the last message Bob's page lists has
    the body "ok". *)
Lemma C7_body_not_kept_as_sent :
  exists view,
    ThreadPage (Some bob) 30%N
      (fst (handleSendMessage (Some alice) 41%N 400%Z 30%N alice
              (js " ok ") db_chat))
    = Render view
    /\ last (map Message.body view.(initial_messages)) [] = js "ok"
    /\ last (map Message.body view.(initial_messages)) [] <> js " ok ".
Proof.
  eexists. split; [reflexivity|]. split; [reflexivity | discriminate].
Qed.

(* ================================================================== *)
(** ** The "Open Discussion" link (ReplySection.tsx) *)

(** Whom the link is rendered for: the claim owner, or any signed-in
    viewer when the reply was written by the claim owner. *)
Lemma shows_open_discussion_spec s id d props reply :
  ClaimPage s id d = Render props ->
  shows_open_discussion props reply
  = auth_uid_is s props.(claimOwnerId)
    || (authenticated s
        && (reply.(Reply.author_id) =? props.(claimOwnerId))%N).
Proof.
  unfold ClaimPage. destruct (single _) as [claim|]; [|discriminate].
  now intros [= <-].
Qed.

Lemma claim_owner_offered_discussion id d props reply :
  ClaimPage (Some props.(claimOwnerId)) id d = Render props ->
  shows_open_discussion props reply = true.
Proof.
  intros H. rewrite (shows_open_discussion_spec _ _ _ _ reply H).
  simpl. now rewrite N.eqb_refl.
Qed.

(** The author of a reply to somebody else's claim does not get it. *)
Lemma reply_author_not_offered_discussion id d props reply :
  ClaimPage (Some reply.(Reply.author_id)) id d = Render props ->
  reply.(Reply.author_id) <> props.(claimOwnerId) ->
  shows_open_discussion props reply = false.
Proof.
  intros H Hne. rewrite (shows_open_discussion_spec _ _ _ _ reply H).
  simpl. apply N.eqb_neq in Hne. now rewrite Hne.
Qed.

(** C5 fails on the code.  Bob, signed in, looks at Alice's claim 10, to
    which Bob wrote reply 20; thread 30 links Alice and Bob.  The page
    lists that reply and does not render the discussion link for it: the
    condition compares the reply's author with the claim owner, not with
    the viewer. *)
Theorem C5_reply_author_not_offered_discussion :
  exists props reply,
    ClaimPage (Some bob) 10%N db_reply = Render props
    /\ props.(isLoggedIn) = true
    /\ props.(repliesPending) = [reply]
    /\ reply.(Reply.author_id) = bob
    /\ threads_of_reply db_reply reply.(Reply.id)
       = [thread30]
    /\ shows_open_discussion props reply = false.
Proof.
  do 2 eexists. split; [reflexivity|]. repeat split.
Qed.

(* ================================================================== *)
(** ** Stored text is trimmed *)

Lemma handleSubmit_pushed_claim s new_id now text ct d d' id :
  handleSubmit s new_id now text ct d = (d', Push (ClaimRoute id)) ->
  exists user,
    s = Some user
    /\ d' = with_claims d
              (d.(claims) ++ [Claim.mk new_id (trim text) ct user now]).
Proof.
  unfold handleSubmit.
  destruct (300 <? _); [discriminate|].
  destruct (_ =? 0); [discriminate|].
  destruct s as [user|]; [|discriminate].
  destruct (insert_claim _ _ _ _ _ _ _) as [d1|e] eqn:Hi; [|discriminate].
  intros [= <- _]. exists user. split; [reflexivity|].
  now apply insert_claim_Ok in Hi as (_ & _ & _ & _ & ->).
Qed.

Lemma handleReplySubmit_refreshed s new_id thread_id now claimId text st
      d d' :
  handleReplySubmit s new_id thread_id now claimId text st d
  = (d', Refresh) ->
  exists user,
    s = Some user
    /\ d'.(replies)
       = d.(replies)
           ++ [Reply.mk new_id claimId (trim text) st pending None user now].
Proof.
  unfold handleReplySubmit.
  destruct (_ =? 0); [discriminate|].
  destruct s as [user|]; [|discriminate].
  destruct (insert_reply _ _ _ _ _ _ _ _ _) as [d1|e] eqn:Hi;
    [|discriminate].
  intros [= <-]. exists user. split; [reflexivity|].
  now apply insert_reply_Ok in Hi as (_ & _ & _ & _ & _ & _ & -> & _).
Qed.

Lemma handleSendMessage_cleared s new_id now threadId user body d d' :
  handleSendMessage s new_id now threadId user body d = (d', ClearInput) ->
  d' = with_messages d
         (d.(messages)
            ++ [Message.mk new_id threadId user (trim body) now]).
Proof.
  unfold handleSendMessage.
  destruct (_ =? 0); [discriminate|].
  destruct (insert_message _ _ _ _ _ _ _) as [d1|e] eqn:Hi; [|discriminate].
  intros [= <-].
  now apply insert_message_Ok in Hi as (_ & _ & _ & ->).
Qed.

(** A reply that passes the form and the store is appended with its
    thread. *)
Lemma handleReplySubmit_inserts user new_id thread_id now claim text st d :
  blank text = false ->
  text_error text = None ->
  find_claim d claim.(Claim.id) = Some claim ->
  mem user d.(users) = true ->
  mem claim.(Claim.author_id) d.(users) = true ->
  has_id Reply.id new_id d.(replies) = false ->
  has_id Thread.reply_id new_id d.(threads) = false ->
  has_id Thread.id thread_id d.(threads) = false ->
  handleReplySubmit (Some user) new_id thread_id now claim.(Claim.id) text
                    st d
  = (mkDb d.(users) d.(claims)
          (d.(replies)
             ++ [Reply.mk new_id claim.(Claim.id) (trim text) st pending
                          None user now])
          (d.(threads)
             ++ [Thread.mk thread_id new_id claim.(Claim.author_id) user
                           now])
          d.(messages),
     Refresh).
Proof.
  intros Hb Htext Hclaim Hu Ho Hrid Hnone Htid. unfold handleReplySubmit.
  rewrite trim_length_zero, Hb.
  unfold insert_reply, insert_reply_row. cbn [Reply.text Reply.id
    Reply.rejection_reason Reply.parent_claim_id Reply.author_id
    decode_optional].
  rewrite decode_text_Ok by (now rewrite text_error_trim).
  assert (Hc : has_id Claim.id (Claim.id claim) (claims d) = true).
  { apply has_id_In. apply find_some in Hclaim as [Hin _]. eauto. }
  cbn [bind authenticated guard]. rewrite Hrid, Hc, Hu. cbn [negb bind].
  unfold handle_new_reply, insert_thread_on_conflict_do_nothing.
  cbn [Reply.id Reply.parent_claim_id Reply.author_id claims threads
       replies users with_replies].
  fold (find_claim d (Claim.id claim)). rewrite Hclaim. cbn [option_map].
  rewrite Hnone, Htid, Ho, Hu, has_id_app. simpl.
  rewrite N.eqb_refl, orb_true_r. reflexivity.
Qed.

(** C9.  Each handler stores the trim of what was typed.  A claim text,
    a reply text and a message body that pass the form and the store are
    appended trimmed, and a reject of the claim's author stores status
    'rejected' with the trimmed reason, or null when that is blank.
    Conversely, the row a submit, a reply or a send has appended when it
    reports success holds the trim of its input. *)
Theorem C9_text_trimmed_before_storage :
  forall (d : database),
    (forall user new_id now text ct,
        List.length text <= 300 ->
        blank text = false ->
        text_error text = None ->
        mem user d.(users) = true ->
        has_id Claim.id new_id d.(claims) = false ->
        handleSubmit (Some user) new_id now text ct d
        = (with_claims d
             (d.(claims) ++ [Claim.mk new_id (trim text) ct user now]),
           Push (ClaimRoute new_id)))
    /\ (forall user new_id thread_id now claim text st,
          blank text = false ->
          text_error text = None ->
          find_claim d claim.(Claim.id) = Some claim ->
          mem user d.(users) = true ->
          mem claim.(Claim.author_id) d.(users) = true ->
          has_id Reply.id new_id d.(replies) = false ->
          has_id Thread.reply_id new_id d.(threads) = false ->
          has_id Thread.id thread_id d.(threads) = false ->
          replies (fst (handleReplySubmit (Some user) new_id thread_id now
                          claim.(Claim.id) text st d))
          = d.(replies)
              ++ [Reply.mk new_id claim.(Claim.id) (trim text) st pending
                           None user now])
    /\ (forall user new_id now t body,
          blank body = false ->
          text_error body = None ->
          In t d.(threads) ->
          is_participant (Some user) t = true ->
          mem user d.(users) = true ->
          has_id Message.id new_id d.(messages) = false ->
          handleSendMessage (Some user) new_id now t.(Thread.id) user body d
          = (with_messages d
               (d.(messages)
                  ++ [Message.mk new_id t.(Thread.id) user (trim body) now]),
             ClearInput))
    /\ (forall r claim rejectReason,
          find_reply d r.(Reply.id) = Some r ->
          find_claim d r.(Reply.parent_claim_id) = Some claim ->
          text_error rejectReason = None ->
          find_reply (fst (handleRejectReply (Some claim.(Claim.author_id))
                             r.(Reply.id) rejectReason d))
                     r.(Reply.id)
          = Some (Reply.mk r.(Reply.id) r.(Reply.parent_claim_id)
                           r.(Reply.text) r.(Reply.stance) rejected
                           (if blank rejectReason then None
                            else Some (trim rejectReason))
                           r.(Reply.author_id) r.(Reply.created_at)))
    /\ (forall s d',
          (forall new_id now text ct,
              handleSubmit s new_id now text ct d
              = (d', Push (ClaimRoute new_id)) ->
              exists user,
                d'.(claims)
                = d.(claims) ++ [Claim.mk new_id (trim text) ct user now])
          /\ (forall new_id thread_id now claimId text st,
                handleReplySubmit s new_id thread_id now claimId text st d
                = (d', Refresh) ->
                exists user,
                  d'.(replies)
                  = d.(replies)
                      ++ [Reply.mk new_id claimId (trim text) st pending None
                                   user now])
          /\ (forall new_id now threadId user body,
                handleSendMessage s new_id now threadId user body d
                = (d', ClearInput) ->
                d'.(messages)
                = d.(messages)
                    ++ [Message.mk new_id threadId user (trim body) now])).
Proof.
  intros d. split; [|split; [|split; [|split]]].
  - intros. now apply handleSubmit_inserts.
  - intros user new_id thread_id now claim text st Hb Htext Hc Hu Ho Hrid
           Hnone Htid.
    now rewrite (handleReplySubmit_inserts user new_id thread_id now claim
                   text st d Hb Htext Hc Hu Ho Hrid Hnone Htid).
  - intros user new_id now t body Hb Htext Hin Hp Hu Hid.
    apply handleSendMessage_inserts; auto.
    now apply participant_participates_in.
  - intros r claim reason Hr Hc Htext.
    change (handleRejectReply (Some (Claim.author_id claim)) (Reply.id r)
                              reason d)
      with (decide (Some (Claim.author_id claim)) (Reply.id r)
                   (Reject reason) d).
    rewrite (decide_storable _ _ (Reject reason));
      [|simpl; now rewrite text_error_trim].
    cbn [fst]. rewrite <- or_null_trim.
    exact (rewrite_reply_by_owner d r claim rejected
             (Some (or_null (trim reason))) Hr Hc).
  - intros s d'. split; [|split].
    + intros new_id now text ct H.
      apply handleSubmit_pushed_claim in H as (user & _ & ->).
      now exists user.
    + intros new_id thread_id now claimId text st H.
      apply handleReplySubmit_refreshed in H as (user & _ & ->).
      now exists user.
    + intros new_id now threadId user body H.
      now apply handleSendMessage_cleared in H as ->.
Qed.

Lemma C9_text_trimmed_before_storage_witness :
  map Claim.text
    (claims (fst (handleSubmit (Some alice) 10%N 100%Z (js "  X is true ")
                    fact db_empty)))
  = [js "X is true"]
  /\ map Reply.text
       (replies (fst (handleReplySubmit (Some bob) 20%N 30%N 200%Z 10%N
                        (js "  X is false ") contradicts db_claim)))
     = [js "X is false"]
  /\ map Message.body
       (messages (fst (handleSendMessage (Some bob) 40%N 300%Z 30%N bob
                         (js " let's discuss  ") db_reply)))
     = [js "let's discuss"]
  /\ option_map Reply.rejection_reason
       (find_reply (fst (handleRejectReply (Some alice) 20%N
                           (js " no source  ") db_reply)) 20%N)
     = Some (Some (js "no source"))
  /\ option_map Reply.rejection_reason
       (find_reply (fst (handleRejectReply (Some alice) 20%N (js "   ")
                           db_reply)) 20%N)
     = Some None.
Proof.
  split; [|split; [|split; [|split]]].
  - destruct (C9_text_trimmed_before_storage db_empty) as (H & _).
    rewrite (H alice 10%N 100%Z (js "  X is true ") fact);
      try reflexivity.
    simpl. lia.
  - destruct (C9_text_trimmed_before_storage db_claim) as (_ & H & _).
    exact (f_equal (map Reply.text)
             (H bob 20%N 30%N 200%Z claim10 (js "  X is false ")
                contradicts eq_refl eq_refl eq_refl eq_refl eq_refl eq_refl
                eq_refl eq_refl)).
  - destruct (C9_text_trimmed_before_storage db_reply) as (_ & _ & H & _).
    exact (f_equal (fun x => map Message.body (messages (fst x)))
             (H bob 40%N 300%Z thread30 (js " let's discuss  ") eq_refl
                eq_refl (or_introl eq_refl) eq_refl eq_refl eq_refl)).
  - destruct (C9_text_trimmed_before_storage db_reply)
      as (_ & _ & _ & H & _).
    exact (f_equal (option_map Reply.rejection_reason)
             (H reply20 claim10 (js " no source  ") eq_refl eq_refl
                eq_refl)).
  - destruct (C9_text_trimmed_before_storage db_reply)
      as (_ & _ & _ & H & _).
    exact (f_equal (option_map Reply.rejection_reason)
             (H reply20 claim10 (js "   ") eq_refl eq_refl eq_refl)).
Defined.

(* ================================================================== *)
(** ** The home page (app/page.tsx) *)

Lemma StronglySorted_app_inv {A} (R : A -> A -> Prop) (l1 l2 : list A) :
  StronglySorted R (l1 ++ l2) ->
  StronglySorted R l1
  /\ forall x y, In x l1 -> In y l2 -> R x y.
Proof.
  induction l1 as [|a l1 IH]; simpl; intros H.
  - split; [constructor | contradiction].
  - apply StronglySorted_inv in H as [Hs Ha].
    destruct (IH Hs) as [Hs1 Hcross]. split.
    + constructor; [exact Hs1|].
      apply Forall_app in Ha as [Ha _]. exact Ha.
    + intros x y [<-|Hx] Hy; [|now apply Hcross].
      rewrite Forall_forall in Ha. apply Ha, in_or_app. now right.
Qed.

Lemma StronglySorted_map {A B} (f : A -> B) (R : B -> B -> Prop) l :
  StronglySorted R (map f l) ->
  StronglySorted (fun a b => R (f a) (f b)) l.
Proof.
  induction l as [|x l IH]; simpl; intros H; [constructor|].
  apply StronglySorted_inv in H as [Hs Hx].
  constructor; [now apply IH|].
  rewrite Forall_map in Hx. exact Hx.
Qed.

Lemma HomePage_listed answers d :
  map listed (HomePage answers d)
  = firstn 50 (order_by (descending Claim.created_at) d.(claims)).
Proof.
  unfold HomePage. rewrite map_map. simpl. apply map_id.
Qed.

(** C10.  The home page lists at most 50 claims, in descending
    created_at, and they are the most recent ones: the claims of the
    table are the listed ones together with others that are none of them
    newer than a listed one.  Each listed claim carries as reply_count
    the number of replies whose parent_claim_id is its id, or 0 when the
    count request gave no answer. *)
Theorem C10_home_page_listing :
  forall (answers : uuid -> bool) (d : database),
    let rows := HomePage answers d in
    List.length rows = Nat.min 50 (List.length d.(claims))
    /\ List.length rows <= 50
    /\ StronglySorted
         (fun a b => (b.(listed).(Claim.created_at)
                      <= a.(listed).(Claim.created_at))%Z)
         rows
    /\ (exists older,
          Permutation (map listed rows ++ older) d.(claims)
          /\ forall c row,
               In c older -> In row rows ->
               (c.(Claim.created_at)
                <= row.(listed).(Claim.created_at))%Z)
    /\ (forall row,
          In row rows ->
          row.(reply_count)
          = if answers row.(listed).(Claim.id)
            then List.length
                   (filter (fun r => (r.(Reply.parent_claim_id)
                                      =? row.(listed).(Claim.id))%N)
                           d.(replies))
            else 0).
Proof.
  intros answers d rows.
  pose proof (HomePage_listed answers d) as Hl. fold rows in Hl.
  set (sorted := order_by (descending Claim.created_at) (claims d)) in *.
  assert (Hsorted : StronglySorted
                      (fun a b => (Claim.created_at b
                                   <= Claim.created_at a)%Z) sorted)
    by apply descending_sorted.
  rewrite <- (firstn_skipn 50 sorted) in Hsorted.
  apply StronglySorted_app_inv in Hsorted as [Hfirst Hcross].
  assert (Hlen : List.length rows
                 = Nat.min 50 (List.length (claims d))).
  { rewrite <- (length_map listed), Hl, length_firstn.
    unfold sorted.
    now rewrite (Permutation_length (order_by_perm _ (claims d))). }
  split; [exact Hlen|]. split; [lia|]. split; [|split].
  - apply StronglySorted_map with (f := listed)
      (R := fun a b => (Claim.created_at b <= Claim.created_at a)%Z).
    now rewrite Hl.
  - exists (skipn 50 sorted). split.
    + rewrite Hl, firstn_skipn. apply order_by_perm.
    + intros c row Hc Hrow. apply Hcross; [|exact Hc].
      rewrite <- Hl. now apply in_map.
  - intros row Hrow. unfold rows, HomePage in Hrow.
    apply in_map_iff in Hrow as (c & <- & _). simpl.
    unfold count_replies. now destruct (answers (Claim.id c)).
Qed.

Lemma C10_home_page_listing_witness :
  map reply_count (HomePage (fun _ => true) db_chat) = [1]
  /\ map reply_count (HomePage (fun _ => false) db_chat) = [0].
Proof.
  split.
  - destruct (C10_home_page_listing (fun _ => true) db_chat)
      as (_ & _ & _ & _ & Hcount).
    assert (H := Hcount (mkClaimWithAuthor
                           claim10
                           1)
                        (or_introl eq_refl)).
    exact (f_equal (fun n => [n]) H).
  - destruct (C10_home_page_listing (fun _ => false) db_chat)
      as (_ & _ & _ & _ & Hcount).
    assert (H := Hcount (mkClaimWithAuthor
                           claim10
                           0)
                        (or_introl eq_refl)).
    exact (f_equal (fun n => [n]) H).
Defined.

(* ================================================================== *)
(** ** Claims: who can change or delete them *)

Lemma update_where_Ok {A} (sel : A -> bool) (f : A -> result A) l :
  forall l',
    update_where sel f l = Ok l' ->
    Forall2 (fun x x' => (sel x = false /\ x' = x)
                         \/ (sel x = true /\ f x = Ok x'))
            l l'.
Proof.
  induction l as [|x l IH]; simpl; intros l' H.
  - injection H as <-. constructor.
  - destruct (sel x) eqn:Hsel.
    + destruct (f x) as [x'|e] eqn:Hf; [|discriminate]. simpl in H.
      destruct (update_where sel f l) as [l''|e]; [|discriminate].
      injection H as <-. constructor; auto.
    + simpl in H.
      destruct (update_where sel f l) as [l''|e]; [|discriminate].
      injection H as <-. constructor; auto.
Qed.

Lemma eqb_or_true (a b : uuid) (c : bool) :
  (a =? b)%N || c = true -> a = b \/ c = true.
Proof.
  intros H. apply orb_true_iff in H as [H | H]; [left | now right].
  now apply N.eqb_eq.
Qed.

(** What a committed UPDATE of replies has done, row by row. *)
Lemma update_reply_Ok s replyId p d d' :
  update_reply s replyId p d = Ok d' ->
  d' = with_replies d d'.(replies)
  /\ Forall2 (fun r r' =>
                r' = r
                \/ (r.(Reply.id) = replyId
                    /\ owns_parent_claim s d r = true
                    /\ r' = apply_reply_patch p r
                    /\ owns_parent_claim s d r' = true
                    /\ (r'.(Reply.id) = r.(Reply.id)
                        \/ has_id Reply.id r'.(Reply.id) d.(replies) = false)
                    /\ (r'.(Reply.parent_claim_id) = r.(Reply.parent_claim_id)
                        \/ has_id Claim.id r'.(Reply.parent_claim_id)
                                  d.(claims) = true)
                    /\ (r'.(Reply.id) = r.(Reply.id)
                        \/ has_id Thread.reply_id r.(Reply.id) d.(threads)
                           = false)))
             d.(replies) d'.(replies).
Proof.
  unfold update_reply. intros H.
  destruct (decode_optional _) in H; [|discriminate]. cbn [bind] in H.
  destruct (decode_optional _) in H; [|discriminate]. cbn [bind] in H.
  destruct (update_where _ _ _) as [rs|e] eqn:Hu; [|discriminate].
  simpl in H. injection H as <-. split; [reflexivity|]. simpl.
  apply update_where_Ok in Hu.
  eapply Forall2_impl; [|exact Hu]. clear Hu.
  intros r r' [[_ ->] | [Hsel Hf]]; [auto|]. right.
  apply andb_true_iff in Hsel as [Hid Hown]. apply N.eqb_eq in Hid.
  cbv zeta in Hf. inv_checks Hf. injection Hf as <-.
  apply eqb_or_true in Hchk0, Hchk1, Hchk3.
  rewrite negb_true_iff in Hchk0, Hchk3.
  repeat split; auto.
Qed.

(** The same for threads. *)
Lemma update_thread_Ok s threadId p d d' :
  update_thread s threadId p d = Ok d' ->
  d' = with_threads d d'.(threads)
  /\ Forall2 (fun t t' =>
                t' = t
                \/ (t.(Thread.id) = threadId
                    /\ is_participant s t = true
                    /\ t' = apply_thread_patch p t
                    /\ is_participant s t' = true
                    /\ (t'.(Thread.id) = t.(Thread.id)
                        \/ has_id Thread.id t'.(Thread.id) d.(threads) = false)
                    /\ (t'.(Thread.reply_id) = t.(Thread.reply_id)
                        \/ (has_id Thread.reply_id t'.(Thread.reply_id)
                                   d.(threads) = false
                            /\ has_id Reply.id t'.(Thread.reply_id)
                                      d.(replies) = true))
                    /\ (t'.(Thread.id) = t.(Thread.id)
                        \/ has_id Message.thread_id t.(Thread.id)
                                  d.(messages) = false)))
             d.(threads) d'.(threads).
Proof.
  unfold update_thread. intros H.
  destruct (update_where _ _ _) as [ts|e] eqn:Hu; [|discriminate].
  simpl in H. injection H as <-. split; [reflexivity|]. simpl.
  apply update_where_Ok in Hu.
  eapply Forall2_impl; [|exact Hu]. clear Hu.
  intros t t' [[_ ->] | [Hsel Hf]]; [auto|]. right.
  apply andb_true_iff in Hsel as [Hid Hpart]. apply N.eqb_eq in Hid.
  cbv zeta in Hf. inv_checks Hf. injection Hf as <-.
  apply eqb_or_true in Hchk0, Hchk1, Hchk2, Hchk5.
  rewrite negb_true_iff in Hchk0, Hchk1, Hchk5.
  repeat split; auto.
  destruct Hchk1 as [Hsame | Hfree]; [now left|].
  destruct Hchk2 as [Hsame | Hthere]; [now left | now right].
Qed.

(** What an UPDATE of claims can do: it rewrites rows of the caller
    only, leaves their author as it is, and changes an id only when no
    reply refers to it. *)
Lemma update_claim_Ok s claimId p d d' :
  update_claim s claimId p d = Ok d' ->
  d' = with_claims d d'.(claims)
  /\ Forall2 (fun c c' =>
                c'.(Claim.author_id) = c.(Claim.author_id)
                /\ (c' = c
                    \/ (s = Some c.(Claim.author_id)
                        /\ c.(Claim.id) = claimId
                        /\ (c'.(Claim.id) = c.(Claim.id)
                            \/ has_id Claim.id c'.(Claim.id) d.(claims)
                               = false)
                        /\ (c'.(Claim.id) = c.(Claim.id)
                            \/ has_id Reply.parent_claim_id c.(Claim.id)
                                      d.(replies) = false))))
             d.(claims) d'.(claims).
Proof.
  unfold update_claim. intros H.
  destruct (decode_optional _) in H; [|discriminate]. cbn [bind] in H.
  destruct (update_where _ _ _) as [cs|e] eqn:Hu; [|discriminate].
  simpl in H. injection H as <-. split; [reflexivity|]. simpl.
  apply update_where_Ok in Hu.
  eapply Forall2_impl; [|exact Hu]. clear Hu.
  intros c c' [[_ ->] | [Hsel Hf]]; [auto|].
  apply andb_true_iff in Hsel as [Hid Hown]. apply N.eqb_eq in Hid.
  cbv zeta in Hf. inv_checks Hf. injection Hf as <-.
  apply eqb_or_true in Hchk1, Hchk3.
  rewrite negb_true_iff in Hchk1, Hchk3.
  destruct s as [uid|]; simpl in Hown, Hchk; [|discriminate].
  apply N.eqb_eq in Hown, Hchk. subst uid.
  split; [simpl; congruence|]. right. repeat split; auto.
Qed.

(** A decision either commits its rewriting or leaves the database. *)
Lemma decide_cases s replyId dec d :
  fst (decide s replyId dec d) = d
  \/ fst (decide s replyId dec d)
     = rewrite_reply s replyId (decision_patch dec) d.
Proof.
  destruct (decision_error dec) as [e|] eqn:He.
  - left. now rewrite (decide_unstorable _ _ _ _ e He).
  - right. now rewrite (decide_storable _ _ _ _ He).
Qed.

(** No request of the application touches a claim that is there. *)
Lemma perform_keeps_claims s req d :
  exists added, claims (fst (perform s req d)) = claims d ++ added.
Proof.
  destruct req; cbn [perform].
  - unfold handleSubmit.
    destruct (300 <? _); [exists []; now rewrite app_nil_r|].
    destruct (_ =? 0); [exists []; now rewrite app_nil_r|].
    destruct s as [user|]; [|exists []; now rewrite app_nil_r].
    destruct (insert_claim _ _ _ _ _ _ _) as [d'|e] eqn:Hi;
      [|exists []; now rewrite app_nil_r].
    apply insert_claim_Ok in Hi as (_ & _ & _ & _ & ->). simpl. eauto.
  - exists []. rewrite app_nil_r. unfold handleReplySubmit.
    destruct (_ =? 0); [reflexivity|].
    destruct s as [user|]; [|reflexivity].
    destruct (insert_reply _ _ _ _ _ _ _ _ _) as [d'|e] eqn:Hi;
      [|reflexivity].
    simpl. now apply insert_reply_Ok in Hi as (_ & _ & _ & _ & _ & -> & _).
  - exists []. rewrite app_nil_r.
    now destruct (decide_cases s replyId Accept d) as [H | H];
      simpl in H; rewrite H.
  - exists []. rewrite app_nil_r.
    now destruct (decide_cases s replyId (Reject rejectReason) d)
      as [H | H]; simpl in H; rewrite H.
  - exists []. rewrite app_nil_r. unfold handleSendMessage.
    destruct (_ =? 0); [reflexivity|].
    destruct (insert_message _ _ _ _ _ _ _) as [d'|e] eqn:Hi;
      [|reflexivity].
    now apply insert_message_Ok in Hi as (_ & _ & _ & ->).
Qed.

Lemma filter_all {A} (f : A -> bool) (l : list A) :
  (forall x, In x l -> f x = true) -> filter f l = l.
Proof.
  induction l as [|x l IH]; simpl; intros H; [reflexivity|].
  rewrite (H x) by now left. f_equal. apply IH. auto.
Qed.

Lemma filter_none {A} (f : A -> bool) (l : list A) :
  (forall x, In x l -> f x = false) -> filter f l = [].
Proof.
  induction l as [|x l IH]; simpl; intros H; [reflexivity|].
  rewrite (H x) by now left. apply IH. auto.
Qed.

(** A DELETE that selects no claim deletes nothing at all. *)
Lemma delete_claim_by_stranger s claimId d :
  (forall c, In c d.(claims) -> c.(Claim.id) = claimId ->
             s <> Some c.(Claim.author_id)) ->
  delete_claim s claimId d = d.
Proof.
  intros H. unfold delete_claim.
  assert (Hnone : filter (fun c => (Claim.id c =? claimId)%N
                                   && auth_uid_is s (Claim.author_id c))
                         (claims d) = []).
  { apply filter_none. intros c Hin.
    destruct (Claim.id c =? claimId)%N eqn:Hid; [|reflexivity].
    apply N.eqb_eq in Hid. specialize (H c Hin Hid).
    destruct s as [a|]; simpl; [|reflexivity].
    apply N.eqb_neq. congruence. }
  assert (Hkeep : filter
                    (fun c => negb ((Claim.id c =? claimId)%N
                                    && auth_uid_is s (Claim.author_id c)))
                    (claims d) = claims d).
  { apply filter_all. intros c Hin. apply negb_true_iff.
    destruct (_ && _) eqn:Hc; [|reflexivity].
    assert (Hf : In c []) by (rewrite <- Hnone; now apply filter_In).
    destruct Hf. }
  cbv zeta. rewrite Hnone, Hkeep. cbn [map].
  assert (Hr : filter (fun r => mem (Reply.parent_claim_id r) [])
                      (replies d) = [])
    by (apply filter_none; reflexivity).
  rewrite Hr. cbn [map].
  assert (Ht : filter (fun t => mem (Thread.reply_id t) [])
                      (threads d) = [])
    by (apply filter_none; reflexivity).
  rewrite Ht. cbn [map].
  rewrite !filter_all by reflexivity.
  now destruct d.
Qed.

Lemma mem_map_filter {A} (id : A -> uuid) (p : A -> bool) l k :
  mem k (map id (filter p l)) = true
  <-> exists x, In x l /\ p x = true /\ id x = k.
Proof.
  unfold mem. rewrite existsb_exists. split.
  - intros (k' & Hin & Hk). apply N.eqb_eq in Hk. subst k'.
    apply in_map_iff in Hin as (x & Hx & Hin).
    apply filter_In in Hin as [Hin Hp]. eauto.
  - intros (x & Hin & Hp & <-). exists (id x).
    split; [|apply N.eqb_refl].
    apply in_map. now apply filter_In.
Qed.

Lemma not_true_iff_negb (b : bool) (P : Prop) :
  (b = true <-> P) -> (negb b = true <-> ~ P).
Proof.
  intros H. destruct b; simpl; split; intros H'; try discriminate;
    try (exfalso; apply H'; now apply H); auto.
  intros HP. apply H in HP. discriminate.
Qed.

(** The DELETE of a claim by its author, row by row: the claim goes, and
    with it its replies, their threads and the messages of those threads;
    everything else stays. *)
Lemma delete_claim_by_author d claim :
  NoDup (map Claim.id d.(claims)) ->
  In claim d.(claims) ->
  let d' := delete_claim (Some claim.(Claim.author_id)) claim.(Claim.id) d in
  d'.(users) = d.(users)
  /\ (forall c, In c d'.(claims)
                <-> In c d.(claims) /\ c.(Claim.id) <> claim.(Claim.id))
  /\ (forall r, In r d'.(replies)
                <-> In r d.(replies)
                    /\ r.(Reply.parent_claim_id) <> claim.(Claim.id))
  /\ (forall t, In t d'.(threads)
                <-> In t d.(threads)
                    /\ ~ thread_of_claim d claim.(Claim.id) t)
  /\ (forall m, In m d'.(messages)
                <-> In m d.(messages)
                    /\ ~ message_of_claim d claim.(Claim.id) m).
Proof.
  intros Hnd Hin d'.
  set (doomed := fun c => (Claim.id c =? Claim.id claim)%N
                          && auth_uid_is (Some (Claim.author_id claim))
                                         (Claim.author_id c)).
  assert (Hdoomed : forall c, In c (claims d) ->
                              (doomed c = true
                               <-> Claim.id c = Claim.id claim)).
  { intros c Hc. unfold doomed. split.
    - intros H. apply andb_true_iff in H as [H _]. now apply N.eqb_eq.
    - intros H.
      assert (c = claim) as -> by (eapply NoDup_map_eq; eauto).
      simpl. now rewrite !N.eqb_refl. }
  set (gone_claims := map Claim.id (filter doomed (claims d))).
  assert (Hgc : forall k, mem k gone_claims = true <-> k = Claim.id claim).
  { intros k. unfold gone_claims. rewrite mem_map_filter. split.
    - intros (c & Hc & Hd & <-). now apply Hdoomed.
    - intros ->. exists claim. repeat split; auto.
      now apply Hdoomed. }
  set (dead_reply := fun r => mem (Reply.parent_claim_id r) gone_claims).
  set (gone_replies := map Reply.id (filter dead_reply (replies d))).
  assert (Hgr : forall t, mem (Thread.reply_id t) gone_replies = true
                          <-> thread_of_claim d (Claim.id claim) t).
  { intros t. unfold gone_replies. rewrite mem_map_filter.
    unfold thread_of_claim, dead_reply.
    split; intros (r & Hr & H1 & H2); exists r; repeat split; auto;
      now apply Hgc. }
  set (dead_thread := fun t => mem (Thread.reply_id t) gone_replies).
  set (gone_threads := map Thread.id (filter dead_thread (threads d))).
  assert (Hgt : forall m, mem (Message.thread_id m) gone_threads = true
                          <-> message_of_claim d (Claim.id claim) m).
  { intros m. unfold gone_threads. rewrite mem_map_filter.
    unfold message_of_claim, dead_thread.
    split; [intros (t & Ht & H1 & H2) | intros (t & Ht & H2 & H1)];
      exists t; repeat split; auto; now apply Hgr. }
  split; [reflexivity|].
  split; [|split; [|split]]; intros x; unfold d', delete_claim;
    cbv zeta; cbn [claims replies threads messages]; rewrite filter_In.
  - fold (doomed x). split.
    + intros [Hx H]. split; [exact Hx|].
      apply negb_true_iff in H. intros Hid.
      apply (Hdoomed x Hx) in Hid. congruence.
    + intros [Hx H]. split; [exact Hx|].
      apply negb_true_iff. destruct (doomed x) eqn:Hd; [|reflexivity].
      apply (Hdoomed x Hx) in Hd. contradiction.
  - apply and_iff_compat_l, not_true_iff_negb, Hgc.
  - apply and_iff_compat_l, not_true_iff_negb, Hgr.
  - apply and_iff_compat_l, not_true_iff_negb, Hgt.
Qed.

(** C8, as the code has it.  No request of the application changes or
    removes a claim that is stored.  The store itself lets a claim be
    updated by its author and by nobody else: an UPDATE rewrites only
    rows whose author is the caller; it can set every column but cannot
    give the row another author, and it changes the id only when no
    reply refers to the claim.  A DELETE sent by anyone but the author
    removes nothing; sent by the author it removes the claim, the replies
    to it, the threads of those replies and the messages of those
    threads, and nothing else. *)
Theorem C8_claims_change_only_through_their_author :
  forall (s : session) (d : database),
    (forall req,
        exists added, claims (fst (perform s req d)) = claims d ++ added)
    /\ (forall claimId p d',
          update_claim s claimId p d = Ok d' ->
          d' = with_claims d d'.(claims)
          /\ Forall2 (fun c c' =>
                        c'.(Claim.author_id) = c.(Claim.author_id)
                        /\ (c' = c
                            \/ (s = Some c.(Claim.author_id)
                                /\ c.(Claim.id) = claimId
                                /\ (c'.(Claim.id) = c.(Claim.id)
                                    \/ forall r,
                                         In r d.(replies) ->
                                         r.(Reply.parent_claim_id)
                                         <> c.(Claim.id)))))
                     d.(claims) d'.(claims))
    /\ (forall claimId,
          (forall c, In c d.(claims) -> c.(Claim.id) = claimId ->
                     s <> Some c.(Claim.author_id)) ->
          delete_claim s claimId d = d)
    /\ (forall claim,
          NoDup (map Claim.id d.(claims)) ->
          In claim d.(claims) ->
          s = Some claim.(Claim.author_id) ->
          let d' := delete_claim s claim.(Claim.id) d in
          d'.(users) = d.(users)
          /\ (forall c, In c d'.(claims)
                        <-> In c d.(claims)
                            /\ c.(Claim.id) <> claim.(Claim.id))
          /\ (forall r, In r d'.(replies)
                        <-> In r d.(replies)
                            /\ r.(Reply.parent_claim_id)
                               <> claim.(Claim.id))
          /\ (forall t, In t d'.(threads)
                        <-> In t d.(threads)
                            /\ ~ thread_of_claim d claim.(Claim.id) t)
          /\ (forall m, In m d'.(messages)
                        <-> In m d.(messages)
                            /\ ~ message_of_claim d claim.(Claim.id) m)).
Proof.
  intros s d. split; [|split; [|split]].
  - intros req. apply perform_keeps_claims.
  - intros claimId p d' H.
    apply update_claim_Ok in H as [Hd' Hrows]. split; [exact Hd'|].
    eapply Forall2_impl; [|exact Hrows]. clear.
    intros c c' (Hauthor & [-> | (Hs & Hid & _ & Href)]); split; auto.
    right. repeat split; auto.
    destruct Href as [Hsame | Hnone]; [now left|]. right.
    intros r Hin Hparent.
    assert (has_id Reply.parent_claim_id (Claim.id c) (replies d) = true)
      by (apply has_id_In; eauto).
    congruence.
  - intros claimId. apply delete_claim_by_stranger.
  - intros claim Hnd Hin ->. now apply delete_claim_by_author.
Qed.

Lemma C8_claims_change_only_through_their_author_witness :
  update_claim (Some carol) 10%N
    (ClaimPatch.mk None (Some (js "X is false")) None None None) db_chat
  = Ok db_chat
  /\ delete_claim (Some carol) 10%N db_chat = db_chat
  /\ ~ In message40
          (messages (delete_claim (Some alice) 10%N db_chat)).
Proof.
  split; [|split].
  - destruct (update_claim (Some carol) 10%N
                (ClaimPatch.mk None (Some (js "X is false")) None None None)
                db_chat)
      as [d'|e] eqn:Hu; [|discriminate Hu].
    destruct (C8_claims_change_only_through_their_author (Some carol)
                db_chat) as (_ & H & _).
    destruct (H _ _ _ Hu) as [Heq Hrows].
    change (claims db_chat)
      with [claim10] in Hrows.
    inversion Hrows as [|c c' cs cs' Hhead Hrest Hcs Hcs'].
    inversion Hrest as [Hnil Hnil'|].
    destruct Hhead as (_ & [Hc | [Hc _]]); [|discriminate Hc].
    rewrite Heq, <- Hcs', <- Hnil', Hc. reflexivity.
  - destruct (C8_claims_change_only_through_their_author (Some carol)
                db_chat) as (_ & _ & H & _).
    apply H. intros c [<-|[]] _. discriminate.
  - destruct (C8_claims_change_only_through_their_author (Some alice)
                db_chat) as (_ & _ & _ & H).
    destruct (H claim10)
      as (_ & _ & _ & _ & Hm).
    + vm_compute. repeat constructor. intros [].
    + left. reflexivity.
    + reflexivity.
    + intros Hin. apply Hm in Hin as [_ Hnot]. apply Hnot.
      exists thread30.
      split; [left; reflexivity|]. split; [reflexivity|].
      exists reply20.
      split; [left; reflexivity|]. split; reflexivity.
Defined.

(** The claim's "no operation modifies a claim" does not hold: under the
    policy "Authors can update their own claims" Alice rewrites the id,
    the text, the type and the date of claim 10, which Alice wrote and
    nobody has replied to yet; and once Bob has replied, Alice still
    rewrites its text and type. *)
Lemma C8_author_edits_claim :
  (exists d',
      update_claim (Some alice) 10%N
        (ClaimPatch.mk (Some 11%N) (Some (js "X is false")) (Some policy)
                       None (Some 999%Z))
        db_claim
      = Ok d'
      /\ find_claim db_claim 10%N = Some claim10
      /\ claims d' = [Claim.mk 11%N (js "X is false") policy alice 999%Z])
  /\ exists d',
       update_claim (Some alice) 10%N
         (ClaimPatch.mk None (Some (js "X is false")) (Some policy) None
                        None)
         db_reply
       = Ok d'
       /\ find_claim db_reply 10%N = Some claim10
       /\ find_claim d' 10%N
          = Some (Claim.mk 10%N (js "X is false") policy alice 100%Z).
Proof.
  split; eexists; (split; [reflexivity|]); split; reflexivity.
Qed.

(* ================================================================== *)
(** ** The constraints hold in every reachable database *)

Lemma NoDup_map_app_fresh {A} (id : A -> uuid) (l : list A) (x : A) :
  NoDup (map id l) -> has_id id (id x) l = false ->
  NoDup (map id (l ++ [x])).
Proof.
  intros Hnd Hfresh. rewrite map_app. simpl.
  apply NoDup_app_remove_l with (l := []).
  apply Permutation_NoDup with (l := id x :: map id l).
  - simpl. apply Permutation_cons_append.
  - constructor; [|exact Hnd].
    intros Hin. apply in_map_iff in Hin as (y & Hy & Hin).
    assert (has_id id (id x) l = true)
      by (apply has_id_In; eauto).
    congruence.
Qed.

Lemma NoDup_map_Forall2 {A} (id : A -> uuid) (l l' : list A) :
  Forall2 (fun x x' => id x' = id x) l l' ->
  map id l' = map id l.
Proof. induction 1; simpl; congruence. Qed.

Lemma Forall2_In_r {A B} (P : A -> B -> Prop) l l' y :
  Forall2 P l l' -> In y l' -> exists x, In x l /\ P x y.
Proof.
  induction 1 as [|x y' l l' Hxy Hl IH]; simpl; [contradiction|].
  intros [<- | Hin]; [eauto|].
  destruct (IH Hin) as (x0 & Hx0 & HP). eauto.
Qed.

Lemma has_id_Forall2 {A} (id : A -> uuid) k (l l' : list A) :
  Forall2 (fun x x' => id x' = id x) l l' ->
  has_id id k l' = has_id id k l.
Proof. induction 1 as [|x x' l l' Hx Hl IH]; simpl; congruence. Qed.

(** A key stays unique when the rows that get a new one all had the key
    [k] and get one that was not in use. *)
Lemma NoDup_map_update_in {A} (id : A -> uuid) (k : uuid) (u : list uuid)
      (l l' : list A) :
  Forall2 (fun x x' => id x' = id x \/ (id x = k /\ ~ In (id x') u)) l l' ->
  NoDup (map id l) ->
  (forall x, In x l -> In (id x) u) ->
  NoDup (map id l').
Proof.
  induction 1 as [|x x' l l' Hx Hl IH]; simpl; intros Hnd Hu;
    [constructor|].
  inversion Hnd as [|? ? Hfresh Hnd']; subst.
  constructor; [|apply IH; auto].
  intros Hin. apply in_map_iff in Hin as (y' & Hy' & Hin).
  destruct (Forall2_In_r _ _ _ _ Hl Hin) as (y & Hyin & Hy).
  destruct Hx as [Hx | [Hxk Hxu]], Hy as [Hy | [Hyk Hyu]].
  - apply Hfresh. apply in_map_iff. exists y. split; [congruence | auto].
  - apply Hyu. rewrite Hy', Hx. apply Hu. now left.
  - apply Hxu. rewrite <- Hy', Hy. apply Hu. now right.
  - apply Hfresh. apply in_map_iff. exists y. split; [congruence | auto].
Qed.

Lemma NoDup_map_update {A} (id : A -> uuid) (k : uuid) (l l' : list A) :
  NoDup (map id l) ->
  Forall2 (fun x x' => id x' = id x
                       \/ (id x = k /\ has_id id (id x') l = false))
          l l' ->
  NoDup (map id l').
Proof.
  intros Hnd H.
  apply (NoDup_map_update_in id k (map id l) l l'); auto using in_map.
  eapply Forall2_impl; [|exact H].
  intros x x' [Hx | [Hk Hfree]]; [now left|]. right. split; [exact Hk|].
  intros Hin. apply in_map_iff in Hin as (y & Hy & Hin).
  assert (has_id id (id x') l = true) by (apply has_id_In; eauto).
  congruence.
Qed.

(** A key that is referred to stays when only rows with other keys get
    a new one. *)
Lemma has_id_update {A} (id : A -> uuid) (k : uuid) (l l' : list A) :
  Forall2 (fun x x' => id x' = id x \/ id x <> k) l l' ->
  has_id id k l = true -> has_id id k l' = true.
Proof.
  induction 1 as [|x x' l l' Hx Hl IH]; simpl; [auto|].
  intros H. apply orb_true_iff in H as [H | H].
  - apply N.eqb_eq in H. destruct Hx as [-> | Hx]; [|contradiction].
    now rewrite H, N.eqb_refl.
  - rewrite (IH H). apply orb_true_r.
Qed.

Lemma fresh_claim_is_no_parent d new_id r :
  replies_reference_claims d ->
  has_id Claim.id new_id d.(claims) = false ->
  In r d.(replies) ->
  new_id <> r.(Reply.parent_claim_id).
Proof.
  intros Hfk Hfresh Hin ->. rewrite (Hfk r Hin) in Hfresh. discriminate.
Qed.

Lemma linked_insert_claim s new_id now text ct author d d' :
  insert_claim s new_id now text ct author d = Ok d' ->
  linked d -> linked d'.
Proof.
  intros H [Hpk Hfkt Hfkr Hu Hl Hm].
  apply insert_claim_Ok in H as (_ & _ & Hfresh & _ & ->).
  destruct Hpk as (Hc & Hr & Ht & Hmsg).
  constructor; try assumption.
  - unfold primary_keys. simpl. repeat split; auto.
    now apply NoDup_map_app_fresh.
  - intros r Hin. simpl. rewrite has_id_app, (Hfkr r Hin). reflexivity.
Qed.

Lemma linked_insert_reply_row s thread_id now NEW d d' :
  insert_reply_row s thread_id now NEW d = Ok d' ->
  linked d -> linked d'.
Proof.
  intros H [Hpk Hfkt Hfkr Hu Hl Hm].
  pose proof (insert_reply_row_thread_id _ _ _ _ _ _ H) as Htid.
  apply insert_reply_row_Ok in H
    as (claim & _ & Hfresh & Hclaim & _ & Hcs & Hrs & Hms & Hts).
  pose proof (fresh_reply_has_no_thread d _ Hfkt Hfresh) as Hnone.
  specialize (Htid Hnone).
  destruct Hts as [[Hdup _] | [_ Hts]]; [congruence|].
  pose proof (find_some _ _ Hclaim) as [Hcin Hcid]. apply N.eqb_eq in Hcid.
  destruct Hpk as (Hc & Hr & Ht & Hmsg).
  constructor.
  - unfold primary_keys. rewrite Hcs, Hrs, Hts, Hms.
    repeat split; auto; now apply NoDup_map_app_fresh.
  - intros t Hin. rewrite Hts in Hin. rewrite Hrs, has_id_app.
    apply in_app_or in Hin as [Hin | [<- | []]].
    + now rewrite (Hfkt t Hin).
    + simpl. rewrite N.eqb_refl. apply orb_true_r.
  - intros r Hin. rewrite Hcs. rewrite Hrs in Hin.
    apply in_app_or in Hin as [Hin | [<- | []]]; [now apply Hfkr|].
    apply has_id_In. eauto.
  - unfold unique_reply_id. rewrite Hts.
    now apply NoDup_map_app_fresh.
  - intros r Hin. rewrite Hrs in Hin. rewrite Hts, has_id_app.
    apply in_app_or in Hin as [Hin | [<- | []]].
    + now rewrite (Hl r Hin).
    + simpl. rewrite N.eqb_refl. apply orb_true_r.
  - intros m Hin. rewrite Hms in Hin. rewrite Hts, has_id_app.
    now rewrite (Hm m Hin).
Qed.

Lemma linked_insert_message s new_id now thread_id sender body d d' :
  insert_message s new_id now thread_id sender body d = Ok d' ->
  linked d -> linked d'.
Proof.
  intros H [Hpk Hfkt Hfkr Hu Hl Hm].
  apply insert_message_Ok in H as (Hp & -> & Hfresh & ->).
  destruct Hpk as (Hc & Hr & Ht & Hmsg).
  constructor; try assumption.
  - unfold primary_keys. simpl. repeat split; auto.
    now apply NoDup_map_app_fresh.
  - intros m Hin. simpl in *.
    apply in_app_or in Hin as [Hin | [<- | []]]; [now apply Hm|].
    now apply participates_in_thread_exists in Hp.
Qed.

Lemma Forall2_impl_In {A B} (P Q : A -> B -> Prop) (l : list A)
      (l' : list B) :
  (forall x y, In x l -> P x y -> Q x y) ->
  Forall2 P l l' -> Forall2 Q l l'.
Proof.
  intros H HP. induction HP as [|x y l l' Hxy Hl IH]; constructor.
  - apply H; [now left | exact Hxy].
  - apply IH. intros x0 y0 Hin. apply H. now right.
Qed.

(** A reply that has its thread keeps its id, whatever the UPDATE. *)
Lemma update_reply_keeps_ids s replyId p d d' :
  update_reply s replyId p d = Ok d' ->
  replies_have_threads d ->
  Forall2 (fun r r' => Reply.id r' = Reply.id r) d.(replies) d'.(replies).
Proof.
  intros H Hl. apply update_reply_Ok in H as [_ Hrows].
  eapply Forall2_impl_In; [|exact Hrows].
  intros r r' Hin [-> | (_ & _ & _ & _ & _ & _ & [Hid | Hnone])]; auto.
  rewrite (Hl r Hin) in Hnone. discriminate.
Qed.

Lemma linked_update_reply s replyId p d d' :
  update_reply s replyId p d = Ok d' -> linked d -> linked d'.
Proof.
  intros H [Hpk Hfkt Hfkr Hu Hl Hm].
  pose proof (update_reply_keeps_ids _ _ _ _ _ H Hl) as Hids.
  apply update_reply_Ok in H as [Hd' Hrows].
  destruct Hpk as (Hc & Hr & Ht & Hmsg).
  rewrite Hd'. constructor; simpl; try assumption.
  - unfold primary_keys. simpl.
    rewrite (NoDup_map_Forall2 Reply.id _ _ Hids). auto.
  - intros t Hin. simpl in *.
    rewrite (has_id_Forall2 Reply.id _ _ _ Hids). now apply Hfkt.
  - intros r' Hin. simpl in *.
    destruct (Forall2_In_r _ _ _ _ Hrows Hin) as (r & Hrin & Hrow).
    destruct Hrow as [-> | (_ & _ & _ & _ & _ & [Hsame | Hthere] & _)];
      [now apply Hfkr | rewrite Hsame; now apply Hfkr | exact Hthere].
  - intros r' Hin. simpl in *.
    destruct (Forall2_In_r _ _ _ _ Hids Hin) as (r & Hrin & ->).
    now apply Hl.
Qed.

(** A thread stays with its reply, whatever the UPDATE: every other
    reply has a thread of its own. *)
Lemma update_thread_keeps_reply_ids s threadId p d d' :
  update_thread s threadId p d = Ok d' ->
  replies_have_threads d ->
  Forall2 (fun t t' => Thread.reply_id t' = Thread.reply_id t)
          d.(threads) d'.(threads).
Proof.
  intros H Hl. apply update_thread_Ok in H as [_ Hrows].
  eapply Forall2_impl; [|exact Hrows].
  intros t t' [-> | (_ & _ & _ & _ & _ & [Hid | [Hfree Hthere]] & _)]; auto.
  apply has_id_In in Hthere as (r & Hrin & Hrid).
  rewrite <- Hrid, (Hl r Hrin) in Hfree. discriminate.
Qed.

Lemma linked_update_thread s threadId p d d' :
  update_thread s threadId p d = Ok d' -> linked d -> linked d'.
Proof.
  intros H [Hpk Hfkt Hfkr Hu Hl Hm].
  pose proof (update_thread_keeps_reply_ids _ _ _ _ _ H Hl) as Hrids.
  apply update_thread_Ok in H as [Hd' Hrows].
  destruct Hpk as (Hc & Hr & Ht & Hmsg).
  rewrite Hd'. constructor; simpl; try assumption.
  - unfold primary_keys. simpl. repeat split; auto.
    apply (NoDup_map_update Thread.id threadId (threads d)); [exact Ht|].
    eapply Forall2_impl; [|exact Hrows].
    now intros t t' [-> | (Hid & _ & _ & _ & [Hsame | Hfree] & _)]; auto.
  - intros t' Hin. simpl in *.
    destruct (Forall2_In_r _ _ _ _ Hrids Hin) as (t & Htin & ->).
    now apply Hfkt.
  - unfold unique_reply_id. simpl.
    now rewrite (NoDup_map_Forall2 Thread.reply_id _ _ Hrids).
  - intros r Hin. simpl in *.
    rewrite (has_id_Forall2 Thread.reply_id _ _ _ Hrids). now apply Hl.
  - intros m Hin. simpl in *.
    apply (has_id_update Thread.id _ (threads d)); [|now apply Hm].
    eapply Forall2_impl; [|exact Hrows].
    intros t t' [-> | (_ & _ & _ & _ & _ & _ & [Hsame | Hnone])]; auto.
    right. intros Hid.
    assert (has_id Message.thread_id (Thread.id t) (messages d) = true)
      by (apply has_id_In; eauto).
    congruence.
Qed.

Lemma linked_update_claim s claimId p d d' :
  update_claim s claimId p d = Ok d' -> linked d -> linked d'.
Proof.
  intros H [Hpk Hfkt Hfkr Hu Hl Hm].
  apply update_claim_Ok in H as [Hd' Hrows].
  destruct Hpk as (Hc & Hr & Ht & Hmsg).
  rewrite Hd'. constructor; simpl; try assumption.
  - unfold primary_keys. simpl. repeat split; auto.
    apply (NoDup_map_update Claim.id claimId (claims d)); [exact Hc|].
    eapply Forall2_impl; [|exact Hrows].
    now intros c c' (_ & [-> | (_ & Hid & [Hsame | Hfree] & _)]); auto.
  - intros r Hin. simpl in *.
    apply (has_id_update Claim.id _ (claims d)); [|now apply Hfkr].
    eapply Forall2_impl; [|exact Hrows].
    intros c c' (_ & [-> | (_ & _ & _ & [Hsame | Hnone])]); auto.
    right. intros Hid.
    assert (has_id Reply.parent_claim_id (Claim.id c) (replies d) = true)
      by (apply has_id_In; eauto).
    congruence.
Qed.

Lemma linked_delete_claim s claimId d :
  linked d -> linked (delete_claim s claimId d).
Proof.
  intros [Hpk Hfkt Hfkr Hu Hl Hm].
  destruct Hpk as (Hc & Hr & Ht & Hmsg).
  constructor.
  - unfold primary_keys, delete_claim. cbv zeta.
    cbn [claims replies threads messages].
    repeat split; now apply NoDup_map_filter.
  - intros t. unfold delete_claim. cbv zeta.
    cbn [claims replies threads messages].
    rewrite filter_In. intros [Hin Halive].
    pose proof (Hfkt t Hin) as Href.
    apply has_id_In in Href as (r & Hrin & Hrid).
    apply has_id_In. exists r. split; [|exact Hrid].
    apply filter_In. split; [exact Hrin|].
    apply negb_true_iff. apply negb_true_iff in Halive.
    destruct (mem (Reply.parent_claim_id r) _) eqn:Hdead; [|reflexivity].
    rewrite <- Halive. symmetry.
    apply mem_map_filter. exists r. auto.
  - intros r. unfold delete_claim. cbv zeta.
    cbn [claims replies threads messages].
    rewrite filter_In. intros [Hin Halive].
    pose proof (Hfkr r Hin) as Href.
    apply has_id_In in Href as (c & Hcin & Hcid).
    apply has_id_In. exists c. split; [|exact Hcid].
    apply filter_In. split; [exact Hcin|].
    apply negb_true_iff. apply negb_true_iff in Halive.
    destruct (_ && _) eqn:Hdoomed; [|reflexivity].
    rewrite <- Halive. symmetry. apply mem_map_filter. exists c. auto.
  - unfold unique_reply_id, delete_claim. cbv zeta.
    cbn [claims replies threads messages]. now apply NoDup_map_filter.
  - intros r. unfold delete_claim. cbv zeta.
    cbn [claims replies threads messages].
    rewrite filter_In. intros [Hin Halive].
    pose proof (Hl r Hin) as Hthread.
    apply has_id_In in Hthread as (t & Htin & Hrid).
    apply has_id_In. exists t. split; [|exact Hrid].
    apply filter_In. split; [exact Htin|].
    apply negb_true_iff.
    destruct (mem (Thread.reply_id t) _) eqn:Hdead; [|reflexivity].
    apply mem_map_filter in Hdead as (r0 & Hr0 & Hdead0 & Hid0).
    assert (r0 = r)
      by (apply (NoDup_map_eq Reply.id (replies d)); auto; congruence).
    subst r0. rewrite Hdead0 in Halive. discriminate.
  - intros m. unfold delete_claim. cbv zeta.
    cbn [claims replies threads messages].
    rewrite filter_In. intros [Hin Halive].
    pose proof (Hm m Hin) as Hthread.
    apply has_id_In in Hthread as (t & Htin & Htid).
    apply has_id_In. exists t. split; [|exact Htid].
    apply filter_In. split; [exact Htin|].
    apply negb_true_iff. apply negb_true_iff in Halive.
    destruct (mem (Thread.reply_id t) _) eqn:Hdead; [|reflexivity].
    rewrite <- Halive. symmetry. apply mem_map_filter. exists t. auto.
Qed.

(** A thread inserted through the API would be a second thread for its
    reply: where every reply has its thread, no such insertion commits. *)
Lemma insert_thread_refused s new_id now reply_id owner author d :
  replies_have_threads d ->
  exists e,
    insert_thread s new_id now reply_id owner author d = Err e
    /\ (authenticated s = true ->
        has_id Reply.id reply_id d.(replies) = true ->
        e = unique_violation).
Proof.
  intros Hl. unfold insert_thread, bind, guard.
  destruct (authenticated s); [|eexists; split; [reflexivity | discriminate]].
  destruct (negb (has_id Thread.id new_id (threads d)));
    [|eexists; split; [reflexivity | reflexivity]].
  destruct (has_id Thread.reply_id reply_id (threads d)) eqn:Hdup; simpl;
    [eexists; split; [reflexivity | reflexivity]|].
  destruct (has_id Reply.id reply_id (replies d)) eqn:Hr;
    [|eexists; split; [reflexivity | discriminate]].
  exfalso. apply has_id_In in Hr as (r & Hin & Hid).
  rewrite <- Hid, (Hl r Hin) in Hdup. discriminate.
Qed.

Lemma linked_perform s req d : linked d -> linked (fst (perform s req d)).
Proof.
  intros Hd. destruct req; cbn [perform].
  - unfold handleSubmit.
    destruct (300 <? _); [exact Hd|]. destruct (_ =? 0); [exact Hd|].
    destruct s as [user|]; [|exact Hd].
    destruct (insert_claim _ _ _ _ _ _ _) as [d'|e] eqn:Hi; [|exact Hd].
    simpl. eapply linked_insert_claim; eauto.
  - unfold handleReplySubmit.
    destruct (_ =? 0); [exact Hd|]. destruct s as [user|]; [|exact Hd].
    destruct (insert_reply _ _ _ _ _ _ _ _ _) as [d'|e] eqn:Hi; [|exact Hd].
    simpl. eapply linked_insert_reply_row; eauto.
  - unfold handleAcceptReply.
    destruct (update_reply _ _ _ _) as [d'|e] eqn:Hi; [|exact Hd].
    simpl. eapply linked_update_reply; eauto.
  - unfold handleRejectReply.
    destruct (update_reply _ _ _ _) as [d'|e] eqn:Hi; [|exact Hd].
    simpl. eapply linked_update_reply; eauto.
  - unfold handleSendMessage. destruct (_ =? 0); [exact Hd|].
    destruct (insert_message _ _ _ _ _ _ _) as [d'|e] eqn:Hi; [|exact Hd].
    simpl. eapply linked_insert_message; eauto.
Qed.

Lemma step_linked d d' : step d d' -> linked d -> linked d'.
Proof.
  intros Hstep Hd.
  destruct Hstep
    as [s req | s new_id now text ct author d' H | s claimId p d' H
        | s claimId | s thread_id now NEW d' H | s replyId p d' H
        | s new_id now reply_id owner author d' H | s threadId p d' H
        | s new_id now thread_id sender body d' H].
  - now apply linked_perform.
  - eapply linked_insert_claim; eauto.
  - eapply linked_update_claim; eauto.
  - now apply linked_delete_claim.
  - eapply linked_insert_reply_row; eauto.
  - eapply linked_update_reply; eauto.
  - destruct (insert_thread_refused s new_id now reply_id owner author d
                (linked_provisioned d Hd)) as (e & He & _).
    congruence.
  - eapply linked_update_thread; eauto.
  - eapply linked_insert_message; eauto.
Qed.

(** The keys, the references between the tables and "every reply has its
    thread" hold in every database the system can reach. *)
Lemma reachable_linked d : reachable d -> linked d.
Proof.
  induction 1 as [accounts | d d' Hd IH Hstep].
  - constructor.
    + unfold primary_keys. simpl. repeat split; constructor.
    + intros t [].
    + intros r [].
    + constructor.
    + intros r [].
    + intros m [].
  - now apply (step_linked d d').
Qed.

(** PRIMARY KEY on every table and the reference from threads to replies
    hold in every database the system can reach. *)
Lemma reachable_consistent d :
  reachable d -> primary_keys d /\ threads_reference_replies d.
Proof.
  intros H. destruct (reachable_linked d H) as [Hpk Hfk _ _ _ _]. auto.
Qed.

(** The sample databases are reachable. *)
Lemma db_chat_reachable : reachable db_chat.
Proof.
  apply reachable_step with (d := db_reply).
  - apply reachable_step with (d := db_claim).
    + apply reachable_step with (d := db_empty);
        [apply reachable_empty|].
      change db_claim
        with (fst (perform (Some alice)
                     (SubmitClaim 10%N 100%Z (js "X is true") fact)
                     db_empty)).
      apply step_request.
    + change db_reply
        with (fst (perform (Some bob)
                     (SubmitReply 20%N 30%N 200%Z 10%N (js "X is false")
                                  contradicts)
                     db_claim)).
      apply step_request.
  - change db_chat
      with (fst (perform (Some bob)
                   (SendMessage 40%N 300%Z 30%N bob (js "let's discuss"))
                   db_reply)).
    apply step_request.
Qed.

(** X1.  What the three forms store is never empty and neither starts
    nor ends with white space; a stored claim text has at most 300 code
    units.  (A successful submit appends one claim, a successful reply
    one reply, a successful send one message.) *)
Theorem X1_stored_text_shape :
  forall (s : session) (d d' : database),
    (forall new_id now text ct,
        handleSubmit s new_id now text ct d
        = (d', Push (ClaimRoute new_id)) ->
        exists c,
          d'.(claims) = d.(claims) ++ [c]
          /\ c.(Claim.text) <> []
          /\ List.length c.(Claim.text) <= 300
          /\ no_outer_white_space c.(Claim.text))
    /\ (forall new_id thread_id now claimId text st,
          handleReplySubmit s new_id thread_id now claimId text st d
          = (d', Refresh) ->
          exists r,
            d'.(replies) = d.(replies) ++ [r]
            /\ r.(Reply.text) <> []
            /\ no_outer_white_space r.(Reply.text))
    /\ (forall new_id now threadId user body,
          handleSendMessage s new_id now threadId user body d
          = (d', ClearInput) ->
          exists m,
            d'.(messages) = d.(messages) ++ [m]
            /\ m.(Message.body) <> []
            /\ no_outer_white_space m.(Message.body)).
Proof.
  intros s d d'. split; [|split].
  - intros new_id now text ct H.
    destruct (handleSubmit_pushed_claim _ _ _ _ _ _ _ _ H)
      as (user & _ & ->).
    eexists. split; [reflexivity|]. simpl.
    unfold handleSubmit in H.
    destruct (300 <? List.length text) eqn:Hlen; [discriminate|].
    destruct (List.length (trim text) =? 0) eqn:Hb; [discriminate|].
    apply Nat.ltb_ge in Hlen. pose proof (length_trim text).
    split; [now apply trim_not_nil|]. split; [lia|].
    apply trim_no_outer_white_space.
  - intros new_id thread_id now claimId text st H.
    destruct (handleReplySubmit_refreshed _ _ _ _ _ _ _ _ _ H)
      as (user & _ & ->).
    eexists. split; [reflexivity|]. simpl.
    unfold handleReplySubmit in H.
    destruct (List.length (trim text) =? 0) eqn:Hb; [discriminate|].
    split; [now apply trim_not_nil | apply trim_no_outer_white_space].
  - intros new_id now threadId user body H.
    rewrite (handleSendMessage_cleared _ _ _ _ _ _ _ _ H).
    eexists. split; [reflexivity|]. simpl.
    unfold handleSendMessage in H.
    destruct (List.length (trim body) =? 0) eqn:Hb; [discriminate|].
    split; [now apply trim_not_nil | apply trim_no_outer_white_space].
Qed.

Lemma X1_stored_text_shape_witness :
  (exists c,
      claims db_claim = claims db_empty ++ [c]
      /\ Claim.text c <> [] /\ List.length (Claim.text c) <= 300
      /\ no_outer_white_space (Claim.text c))
  /\ (exists r,
        replies db_reply = replies db_claim ++ [r]
        /\ Reply.text r <> [] /\ no_outer_white_space (Reply.text r))
  /\ (exists m,
        messages db_chat = messages db_reply ++ [m]
        /\ Message.body m <> [] /\ no_outer_white_space (Message.body m)).
Proof.
  split; [|split].
  - destruct (X1_stored_text_shape (Some alice) db_empty db_claim)
      as (H & _).
    exact (H 10%N 100%Z (js " X is true ") fact eq_refl).
  - destruct (X1_stored_text_shape (Some bob) db_claim db_reply)
      as (_ & H & _).
    exact (H 20%N 30%N 200%Z 10%N (js "X is false  ") contradicts eq_refl).
  - destruct (X1_stored_text_shape (Some bob) db_reply db_chat)
      as (_ & _ & H).
    exact (H 40%N 300%Z 30%N bob (js "  let's discuss") eq_refl).
Defined.

(* ================================================================== *)
(** ** What a request can do to the tables *)

Lemma same_content_refl (r : Reply.t) : same_content r r.
Proof. repeat split. Qed.

Lemma Forall2_same_content_refl (l : list Reply.t) :
  Forall2 same_content l l.
Proof. induction l; constructor; auto using same_content_refl. Qed.

Lemma Forall2_same_content_patch (sel : Reply.t -> bool) st reason l :
  Forall2 same_content l
    (map (fun r => if sel r
                   then apply_reply_patch (status_patch st reason) r
                   else r) l).
Proof.
  induction l as [|r l IH]; simpl; constructor; [|exact IH].
  destruct (sel r); repeat split.
Qed.

Lemma decide_same_content s replyId dec d :
  exists rs,
    fst (decide s replyId dec d) = with_replies d rs
    /\ Forall2 same_content d.(replies) rs.
Proof.
  destruct (decide_cases s replyId dec d) as [-> | ->].
  - exists (replies d). split; [now destruct d|].
    apply Forall2_same_content_refl.
  - eexists. split; [reflexivity|].
    destruct dec; apply Forall2_same_content_patch.
Qed.

Lemma with_claims_same d : with_claims d d.(claims) = d.
Proof. now destruct d. Qed.

(** Without a session the policy on replies selects no row. *)
Lemma rewrite_reply_anonymous replyId p d : rewrite_reply None replyId p d = d.
Proof.
  unfold rewrite_reply.
  rewrite (map_ext _ (fun r => r));
    [rewrite map_id; apply with_replies_same|].
  intros r.
  assert (H : owns_parent_claim None d r = false).
  { unfold owns_parent_claim. induction (claims d) as [|c l IH];
      simpl; [reflexivity|]. now rewrite andb_false_r. }
  now rewrite H, andb_false_r.
Qed.

Lemma decide_anonymous replyId dec d : fst (decide None replyId dec d) = d.
Proof.
  destruct (decide_cases None replyId dec d) as [H | H]; rewrite H;
    [reflexivity | apply rewrite_reply_anonymous].
Qed.

Lemma insert_message_anonymous new_id now threadId user body d :
  exists e, insert_message None new_id now threadId user body d = Err e.
Proof.
  unfold insert_message, decode_text.
  destruct (text_error body); simpl; [eauto|].
  rewrite andb_false_r. simpl. eauto.
Qed.

(** X2.  Without a session no request changes the database: a valid
    claim or reply sends the visitor to the login page, accept and reject
    select no row, and a message is refused by the store, which the
    send handler reports with its fixed text. *)
Theorem X2_anonymous_requests_change_nothing :
  forall (req : request) (d : database),
    fst (perform None req d) = d
    /\ (forall new_id now text ct,
          blank text = false -> List.length text <= 300 ->
          handleSubmit None new_id now text ct d = (d, Push LoginRoute))
    /\ (forall new_id thread_id now claimId text st,
          blank text = false ->
          handleReplySubmit None new_id thread_id now claimId text st d
          = (d, Push LoginRoute))
    /\ (forall new_id now threadId user body,
          blank body = false ->
          handleSendMessage None new_id now threadId user body d
          = (d, Alert (Text "Failed to send message"))).
Proof.
  intros req d. split; [|split; [|split]].
  - destruct req as [? ? ? ? | ? ? ? ? ? ? | replyId | replyId reason
                     | new_id now thread sender body]; cbn [perform].
    + unfold handleSubmit.
      destruct (300 <? _); [reflexivity|]. now destruct (_ =? 0).
    + unfold handleReplySubmit. now destruct (_ =? 0).
    + apply (decide_anonymous replyId Accept).
    + apply (decide_anonymous replyId (Reject reason)).
    + unfold handleSendMessage. destruct (_ =? 0); [reflexivity|].
      now destruct (insert_message_anonymous new_id now thread sender
                      (trim body) d) as (e & ->).
  - intros new_id now text ct Hb Hlen. unfold handleSubmit.
    apply Nat.ltb_ge in Hlen. now rewrite Hlen, trim_length_zero, Hb.
  - intros new_id thread_id now claimId text st Hb.
    unfold handleReplySubmit. now rewrite trim_length_zero, Hb.
  - intros new_id now threadId user body Hb. unfold handleSendMessage.
    rewrite trim_length_zero, Hb.
    now destruct (insert_message_anonymous new_id now threadId user
                    (trim body) d) as (e & ->).
Qed.

Lemma X2_anonymous_requests_change_nothing_witness :
  handleSubmit None 11%N 150%Z (js "Y is true") value db_chat
  = (db_chat, Push LoginRoute)
  /\ handleReplySubmit None 21%N 31%N 150%Z 10%N (js "indeed") supports
       db_chat
     = (db_chat, Push LoginRoute)
  /\ handleSendMessage None 41%N 400%Z 30%N bob (js "hello") db_chat
     = (db_chat, Alert (Text "Failed to send message")).
Proof.
  destruct (X2_anonymous_requests_change_nothing (AcceptReply 20%N) db_chat)
    as (_ & Hclaim & Hreply & Hsend).
  split; [|split].
  - apply Hclaim; [reflexivity | simpl; lia].
  - apply Hreply. reflexivity.
  - apply Hsend. reflexivity.
Defined.

(** Everything a request does, table by table. *)
Lemma perform_effect s req d :
  exists cs rs' rs ts ms,
    (fst (perform s req d)).(users) = d.(users)
    /\ (fst (perform s req d)).(claims) = d.(claims) ++ cs
    /\ (fst (perform s req d)).(replies) = rs' ++ rs
    /\ Forall2 same_content d.(replies) rs'
    /\ (fst (perform s req d)).(threads) = d.(threads) ++ ts
    /\ (fst (perform s req d)).(messages) = d.(messages) ++ ms
    /\ Forall (fun c => s = Some c.(Claim.author_id)) cs
    /\ Forall (fun r => s = Some r.(Reply.author_id)) rs
    /\ Forall (fun t => s = Some t.(Thread.reply_author_id)) ts
    /\ Forall (fun m => s = Some m.(Message.sender_id)) ms.
Proof.
  assert (Hsame : forall fb : feedback,
             exists cs rs' rs ts ms,
               (fst (d, fb)).(users) = d.(users)
               /\ (fst (d, fb)).(claims) = d.(claims) ++ cs
               /\ (fst (d, fb)).(replies) = rs' ++ rs
               /\ Forall2 same_content d.(replies) rs'
               /\ (fst (d, fb)).(threads) = d.(threads) ++ ts
               /\ (fst (d, fb)).(messages) = d.(messages) ++ ms
               /\ Forall (fun c => s = Some c.(Claim.author_id)) cs
               /\ Forall (fun r => s = Some r.(Reply.author_id)) rs
               /\ Forall (fun t => s = Some t.(Thread.reply_author_id)) ts
               /\ Forall (fun m => s = Some m.(Message.sender_id)) ms).
  { intros fb. exists [], (replies d), [], [], []. simpl.
    rewrite !app_nil_r.
    repeat split; auto using Forall2_same_content_refl. }
  destruct req; simpl.
  - unfold handleSubmit.
    destruct (300 <? _); [apply Hsame|]. destruct (_ =? 0); [apply Hsame|].
    destruct s as [user|]; [|apply Hsame].
    destruct (insert_claim _ _ _ _ _ _ _) as [d'|e] eqn:Hi; [|apply Hsame].
    apply insert_claim_Ok in Hi as (_ & _ & _ & _ & ->).
    eexists [_], (replies d), [], [], []. simpl. rewrite !app_nil_r.
    repeat split; auto using Forall2_same_content_refl.
  - unfold handleReplySubmit.
    destruct (_ =? 0); [apply Hsame|].
    destruct s as [user|]; [|apply Hsame].
    destruct (insert_reply _ _ _ _ _ _ _ _ _) as [d'|e] eqn:Hi;
      [|apply Hsame].
    apply insert_reply_Ok in Hi
      as (claim & _ & _ & _ & Hus & Hcs & Hrs & Hms & Hts). simpl.
    destruct Hts as [[_ Hts] | [_ Hts]].
    + eexists [], (replies d), [_], [], []. rewrite !app_nil_r.
      repeat split; eauto using Forall2_same_content_refl.
    + eexists [], (replies d), [_], [_], []. rewrite !app_nil_r.
      repeat split; eauto using Forall2_same_content_refl.
  - destruct (decide_same_content s replyId Accept d) as (rs & Hd & Hrs).
    simpl in Hd. rewrite Hd.
    exists [], rs, [], [], []. simpl. rewrite !app_nil_r.
    repeat split; auto.
  - destruct (decide_same_content s replyId (Reject rejectReason) d)
      as (rs & Hd & Hrs).
    simpl in Hd. rewrite Hd.
    exists [], rs, [], [], []. simpl. rewrite !app_nil_r.
    repeat split; auto.
  - unfold handleSendMessage. destruct (_ =? 0); [apply Hsame|].
    destruct (insert_message _ _ _ _ _ _ _) as [d'|e] eqn:Hi; [|apply Hsame].
    apply insert_message_Ok in Hi as (_ & -> & _ & ->).
    eexists [], (replies d), [], [], [_]. simpl. rewrite !app_nil_r.
    repeat split; auto using Forall2_same_content_refl.
Qed.

(** X3.  No request removes a row or rewrites a claim, a thread or a
    message, and of a reply it can change only the status and the
    rejection reason: claims, threads and messages are extended at the
    end, and the replies that were there keep their id, parent claim,
    text, stance, author and date, in the same order. *)
Theorem X3_requests_only_append :
  forall (s : session) (req : request) (d : database),
    let d' := fst (perform s req d) in
    d'.(users) = d.(users)
    /\ (exists cs, d'.(claims) = d.(claims) ++ cs)
    /\ (exists rs' rs,
          d'.(replies) = rs' ++ rs /\ Forall2 same_content d.(replies) rs')
    /\ (exists ts, d'.(threads) = d.(threads) ++ ts)
    /\ (exists ms, d'.(messages) = d.(messages) ++ ms).
Proof.
  intros s req d d'.
  destruct (perform_effect s req d)
    as (cs & rs' & rs & ts & ms & Hu & Hc & Hr & Hsame & Ht & Hm & _).
  repeat split; eauto.
Qed.

(** X4.  Every row a request adds carries the caller: the claim's and
    the reply's author_id, the thread's reply_author_id and the message's
    sender_id are the id of the session that sent the request. *)
Theorem X4_added_rows_carry_the_caller :
  forall (s : session) (req : request) (d : database),
    let d' := fst (perform s req d) in
    (exists cs,
        d'.(claims) = d.(claims) ++ cs
        /\ Forall (fun c => s = Some c.(Claim.author_id)) cs)
    /\ (exists rs,
          List.length d'.(replies)
          = List.length d.(replies) + List.length rs
          /\ rs = skipn (List.length d.(replies)) d'.(replies)
          /\ Forall (fun r => s = Some r.(Reply.author_id)) rs)
    /\ (exists ts,
          d'.(threads) = d.(threads) ++ ts
          /\ Forall (fun t => s = Some t.(Thread.reply_author_id)) ts)
    /\ (exists ms,
          d'.(messages) = d.(messages) ++ ms
          /\ Forall (fun m => s = Some m.(Message.sender_id)) ms).
Proof.
  intros s req d d'.
  destruct (perform_effect s req d)
    as (cs & rs' & rs & ts & ms & _ & Hc & Hr & Hsame & Ht & Hm
        & Hcs & Hrs & Hts & Hms).
  split; [eauto|]. split; [|split; eauto].
  exists rs. fold d' in Hr. rewrite Hr, length_app.
  pose proof (Forall2_length Hsame) as Hlen.
  split; [lia|]. split; [|exact Hrs].
  rewrite Hlen, skipn_app, skipn_all, Nat.sub_diag. reflexivity.
Qed.

(* ================================================================== *)
(** ** The claim page: groups, buttons and reasons *)

Lemma status_eqb_eq (a b : ReplyStatus) : status_eqb a b = true <-> a = b.
Proof. destruct a, b; simpl; split; congruence. Qed.



(** What a rendered claim page hands to the reply section. *)
Lemma ClaimPage_Render s id d props :
  ClaimPage s id d = Render props ->
  let listing :=
    order_by (ascending Reply.created_at)
      (filter (fun r => (r.(Reply.parent_claim_id) =? id)%N) d.(replies)) in
  exists claim,
    single (filter (fun c => (c.(Claim.id) =? id)%N) d.(claims)) = Some claim
    /\ props.(claimId) = id
    /\ props.(claimOwnerId) = claim.(Claim.author_id)
    /\ props.(isLoggedIn) = authenticated s
    /\ props.(isClaimOwner) = auth_uid_is s claim.(Claim.author_id)
    /\ forall st,
         replies_with_status st props
         = filter (fun r => status_eqb r.(Reply.status) st) listing.
Proof.
  unfold ClaimPage. destruct (single _) as [claim|]; [|discriminate].
  intros [= <-]. exists claim. simpl. repeat split. now intros [].
Qed.





(** X7.  A decision of the claim's author that the store can hold (an
    accept, or a reject whose reason has neither U+0000 nor an unpaired
    surrogate) shows on the claim page of every viewer: the reply is
    listed in the group of the new status and no longer among the pending
    ones, no Accept or Reject button is offered for it, and the reason
    displayed is the trimmed reason of a reject, or nothing when that is
    blank or the decision is an accept. *)
Theorem X7_decision_shows_on_claim_page :
  forall (d : database) (r : Reply.t) (claim : Claim.t) (dec : decision)
         (viewer : session),
    primary_keys d ->
    find_reply d r.(Reply.id) = Some r ->
    find_claim d r.(Reply.parent_claim_id) = Some claim ->
    decision_error dec = None ->
    let d' := fst (decide (Some claim.(Claim.author_id)) r.(Reply.id) dec d)
    in
    exists props r',
      ClaimPage viewer claim.(Claim.id) d' = Render props
      /\ find_reply d' r.(Reply.id) = Some r'
      /\ In r' (replies_with_status (decided_status dec) props)
      /\ (forall x, In x props.(repliesPending) ->
                    x.(Reply.id) <> r.(Reply.id))
      /\ shows_accept_reject props r' = false
      /\ displayed_rejection_reason r'
         = match dec with
           | Accept => None
           | Reject reason =>
               if blank reason then None else Some (trim reason)
           end.
Proof.
  intros d r claim dec viewer (Hpc & Hpr & _) Hr Hc Hok d'.
  set (p := decision_patch dec).
  assert (Hd' : d' = rewrite_reply (Some (Claim.author_id claim))
                       (Reply.id r) p d)
    by (unfold d'; now rewrite (decide_storable _ _ _ _ Hok)).
  assert (Hst : ReplyPatch.status p = Some (decided_status dec))
    by (now destruct dec).
  assert (Hr' : find_reply d' (Reply.id r) = Some (apply_reply_patch p r)).
  { rewrite Hd'. unfold p.
    destruct dec; apply rewrite_reply_by_owner; assumption. }
  assert (Hcs : claims d' = claims d) by (now rewrite Hd').
  set (r' := apply_reply_patch p r) in *.
  pose proof (find_some _ _ Hc) as [Hcin Hcid]. apply N.eqb_eq in Hcid.
  assert (Hpage : exists props,
             ClaimPage viewer (Claim.id claim) d' = Render props).
  { unfold ClaimPage. rewrite Hcs.
    rewrite (filter_by_key Claim.id (claims d) claim Hpc Hcin). simpl.
    eauto. }
  destruct Hpage as (props & Hpage). exists props, r'.
  pose proof (ClaimPage_Render _ _ _ _ Hpage)
    as (claim' & _ & _ & _ & _ & _ & Hgroups).
  assert (Hin' : forall st x,
             In x (replies_with_status st props)
             <-> In x (replies d')
                 /\ Reply.parent_claim_id x = Claim.id claim
                 /\ Reply.status x = st).
  { intros st x. rewrite Hgroups, filter_In, order_by_In, filter_In.
    rewrite status_eqb_eq, N.eqb_eq. tauto. }
  assert (Hstatus : Reply.status r' = decided_status dec)
    by (unfold r'; simpl; now rewrite Hst).
  assert (Hids : map Reply.id (replies d') = map Reply.id (replies d)).
  { rewrite Hd'. simpl. rewrite map_map. apply map_ext.
    intros x. destruct (_ && _); [|reflexivity]. now destruct dec. }
  pose proof (find_some _ _ Hr') as [Hr'in _].
  assert (Hparent : Reply.parent_claim_id r' = Claim.id claim)
    by (unfold r', p; destruct dec; simpl; congruence).
  split; [exact Hpage|]. split; [exact Hr'|].
  split; [|split; [|split]].
  - apply Hin'. repeat split; auto.
  - intros x Hx Hid. apply (Hin' pending) in Hx as (Hx & _ & Hxs).
    assert (Hrid : Reply.id r' = Reply.id r)
      by (unfold r', p; now destruct dec).
    assert (x = r').
    { apply (NoDup_map_eq Reply.id (replies d')); auto;
        [now rewrite Hids | congruence]. }
    subst x. rewrite Hstatus in Hxs. destruct dec; discriminate.
  - unfold shows_accept_reject. rewrite Hstatus.
    destruct dec; apply andb_false_r.
  - unfold displayed_rejection_reason. rewrite Hstatus.
    destruct dec as [|reason]; [reflexivity|]. simpl.
    unfold r', p. simpl.
    rewrite or_null_trim. destruct (blank reason) eqn:Hb; [reflexivity|].
    destruct (trim reason) eqn:Ht; [|reflexivity].
    apply trim_nil_iff in Ht. congruence.
Qed.

Lemma X7_decision_shows_on_claim_page_witness :
  exists props r',
    ClaimPage (Some bob) 10%N
      (fst (handleRejectReply (Some alice) 20%N (js " no source ") db_reply))
    = Render props
    /\ In r' props.(repliesRejected)
    /\ displayed_rejection_reason r' = Some (js "no source").
Proof.
  assert (Hpk : primary_keys db_reply).
  { unfold primary_keys. simpl.
    repeat split; repeat constructor; intros []. }
  destruct (X7_decision_shows_on_claim_page db_reply reply20 claim10
              (Reject (js " no source ")) (Some bob) Hpk eq_refl eq_refl
              eq_refl)
    as (props & r' & Hpage & _ & Hin & _ & _ & Hreason).
  exists props, r'. split; [exact Hpage|]. split; [exact Hin|].
  exact Hreason.
Defined.

(* ================================================================== *)
(** ** What every reachable database has *)

(** X8.  In every database reached from empty tables by requests of the
    application and by the statements the policies of the schema permit,
    every reply has its parent claim and exactly one thread.  No UPDATE
    parts them: one of replies that commits changes no reply's id, and
    one of threads that commits leaves every thread with its reply. *)
Theorem X8_every_reply_has_its_thread :
  forall (d : database),
    reachable d ->
    (forall r, In r d.(replies) ->
       exists claim t,
         find_claim d r.(Reply.parent_claim_id) = Some claim
         /\ threads_of_reply d r.(Reply.id) = [t])
    /\ (forall s replyId p d',
          update_reply s replyId p d = Ok d' ->
          map Reply.id d'.(replies) = map Reply.id d.(replies))
    /\ (forall s threadId p d',
          update_thread s threadId p d = Ok d' ->
          map Thread.reply_id d'.(threads)
          = map Thread.reply_id d.(threads)).
Proof.
  intros d Hd.
  destruct (reachable_linked d Hd) as [_ _ Hfkr Hu Hl _].
  split; [|split].
  - intros r Hin.
    destruct (has_id_true_find Claim.id _ _ (Hfkr r Hin))
      as (claim & Hclaim & _).
    pose proof (Hl r Hin) as Hthread.
    apply has_id_In in Hthread as (t & Htin & Hrid).
    exists claim, t. split; [exact Hclaim|].
    unfold threads_of_reply. rewrite <- Hrid.
    now apply (filter_by_key Thread.reply_id).
  - intros s replyId p d' H.
    apply NoDup_map_Forall2.
    now apply (update_reply_keeps_ids s replyId p).
  - intros s threadId p d' H.
    apply NoDup_map_Forall2.
    now apply (update_thread_keeps_reply_ids s threadId p).
Qed.

Lemma X8_every_reply_has_its_thread_witness :
  (exists claim t,
      find_claim db_chat 10%N = Some claim
      /\ threads_of_reply db_chat 20%N = [t])
  /\ map Reply.id
       (replies (fst (handleAcceptReply (Some alice) 20%N db_chat)))
     = [20%N]
  /\ map Thread.reply_id
       (threads (with_threads db_chat
                   [Thread.mk 30%N 20%N carol bob 200%Z]))
     = [20%N].
Proof.
  destruct (X8_every_reply_has_its_thread db_chat db_chat_reachable)
    as (Hone & Hreplies & Hthreads).
  split; [|split].
  - exact (Hone reply20 (or_introl eq_refl)).
  - exact (Hreplies (Some alice) 20%N (status_patch accepted None) _
             eq_refl).
  - exact (Hthreads (Some bob) 30%N
             (ThreadPatch.mk None None (Some carol) None None) _ eq_refl).
Defined.

(** The thread page of a stored thread, whoever asks. *)
Lemma ThreadPage_of_thread d t viewer :
  NoDup (map Thread.id d.(threads)) ->
  In t d.(threads) ->
  ThreadPage (Some viewer) t.(Thread.id) d
  = if is_participant (Some viewer) t then
      match single (filter (fun r => (r.(Reply.id)
                                      =? t.(Thread.reply_id))%N)
                           d.(replies)) with
      | None => NotFound
      | Some reply =>
          Render (mkThreadViewProps t.(Thread.id) reply
                    (order_by (ascending Message.created_at)
                       (filter (fun m => (m.(Message.thread_id)
                                          =? t.(Thread.id))%N)
                               d.(messages)))
                    viewer)
      end
    else NotFound.
Proof.
  intros Hnd Hin. destruct (is_participant (Some viewer) t) eqn:Hp.
  - unfold ThreadPage, select_threads.
    rewrite (filter_by_key Thread.id (filter _ (threads d)) t);
      [|now apply NoDup_map_filter | now apply filter_In].
    simpl.
    assert (Hcheck : negb (Thread.claim_owner_id t =? viewer)%N
                     && negb (Thread.reply_author_id t =? viewer)%N
                     = false).
    { unfold is_participant in Hp. simpl in Hp.
      apply orb_true_iff in Hp as [Hp | Hp]; apply N.eqb_eq in Hp;
        rewrite <- Hp, N.eqb_refl; [reflexivity | apply andb_false_r]. }
    rewrite Hcheck.
    destruct (single _) as [reply|]; [|reflexivity].
    unfold select_messages.
    rewrite participant_selects_history; [reflexivity|].
    apply (participant_participates_in (Some viewer) d t Hin Hp).
  - rewrite ThreadPage_hidden; [reflexivity|].
    now apply stranger_participates_in_nothing.
Qed.

(** X9.  The participants of a thread are not fixed.  Under the policy
    "Participants can update threads" a participant can put any two
    accounts into the two participant columns, as long as the caller
    stays one of them.  The statement commits and touches nothing but
    that row; the thread page then renders for the new participants, with
    the reply and the messages the caller saw before, whoever wrote them,
    and answers notFound() to every other account, a replaced participant
    included. *)
Theorem X9_participants_can_be_replaced :
  forall (d : database) (t : Thread.t) (caller owner' author' : uuid)
         (view : ThreadViewProps),
    primary_keys d ->
    In t d.(threads) ->
    ThreadPage (Some caller) t.(Thread.id) d = Render view ->
    caller = owner' \/ caller = author' ->
    mem owner' d.(users) = true ->
    mem author' d.(users) = true ->
    let t' := Thread.mk t.(Thread.id) t.(Thread.reply_id) owner' author'
                        t.(Thread.created_at) in
    let d' := with_threads d
                (map (fun x => if (x.(Thread.id) =? t.(Thread.id))%N
                               then t' else x)
                     d.(threads)) in
    update_thread (Some caller) t.(Thread.id)
      (ThreadPatch.mk None None (Some owner') (Some author') None) d
    = Ok d'
    /\ forall viewer,
         ThreadPage (Some viewer) t.(Thread.id) d'
         = if (viewer =? owner')%N || (viewer =? author')%N
           then Render (mkThreadViewProps t.(Thread.id)
                          view.(context_reply) view.(initial_messages)
                          viewer)
           else NotFound.
Proof.
  intros d t caller owner' author' view (_ & _ & Hnd & _) Hin Hpage Hcaller
         Ho Ha t' d'.
  set (p := ThreadPatch.mk None None (Some owner') (Some author') None).
  assert (Hsame : forall x, In x (threads d) ->
                            (Thread.id x =? Thread.id t)%N = true -> x = t).
  { intros x Hx Hid. apply N.eqb_eq in Hid.
    now apply (NoDup_map_eq Thread.id (threads d)). }
  pose proof (ThreadPage_of_thread d t caller Hnd Hin) as Hcaller_page.
  rewrite Hpage in Hcaller_page.
  destruct (is_participant (Some caller) t) eqn:Hp; [|discriminate].
  destruct (single _) as [reply|] eqn:Hreply; [|discriminate].
  injection Hcaller_page as Hview.
  assert (Hrows : map (fun x => if (Thread.id x =? Thread.id t)%N
                                   && is_participant (Some caller) x
                                then apply_thread_patch p x else x)
                      (threads d)
                  = threads d').
  { apply map_ext_in. intros x Hx.
    destruct (Thread.id x =? Thread.id t)%N eqn:Hid; [|reflexivity].
    rewrite (Hsame x Hx Hid), Hp. reflexivity. }
  assert (Hstays : is_participant (Some caller) t' = true).
  { unfold is_participant. simpl.
    destruct Hcaller as [-> | ->]; rewrite N.eqb_refl;
      [reflexivity | apply orb_true_r]. }
  split.
  - unfold update_thread.
    rewrite (update_where_map _ _ (apply_thread_patch p)).
    + simpl. now rewrite Hrows.
    + intros x Hx Hsel. apply andb_true_iff in Hsel as [Hid _].
      rewrite (Hsame x Hx Hid). cbv zeta.
      change (apply_thread_patch p t) with t'.
      rewrite Hstays. simpl. rewrite !N.eqb_refl, Ho, Ha.
      now rewrite !orb_true_r.
  - intros viewer.
    assert (Hnd' : NoDup (map Thread.id (threads d'))).
    { unfold d'. simpl. rewrite map_map.
      rewrite (map_ext_in _ Thread.id); [exact Hnd|].
      intros x Hx. destruct (Thread.id x =? Thread.id t)%N eqn:Hid;
        [|reflexivity].
      now rewrite (Hsame x Hx Hid). }
    assert (Hin' : In t' (threads d')).
    { unfold d'. simpl. apply in_map_iff. exists t.
      now rewrite N.eqb_refl. }
    pose proof (ThreadPage_of_thread d' t' viewer Hnd' Hin') as Hviewer.
    change (Thread.id t') with (Thread.id t) in Hviewer.
    rewrite Hviewer. unfold is_participant. simpl.
    destruct ((viewer =? owner')%N || (viewer =? author')%N);
      [|reflexivity].
    rewrite Hreply, Hview. reflexivity.
Qed.

Lemma X9_participants_can_be_replaced_witness :
  ThreadPage (Some carol) 30%N
    (with_threads db_chat [Thread.mk 30%N 20%N carol bob 200%Z])
  = Render (mkThreadViewProps 30%N reply20 [message40] carol)
  /\ ThreadPage (Some alice) 30%N
       (with_threads db_chat [Thread.mk 30%N 20%N carol bob 200%Z])
     = NotFound.
Proof.
  assert (Hpk : primary_keys db_chat).
  { unfold primary_keys. simpl.
    repeat split; repeat constructor; intros []. }
  destruct (X9_participants_can_be_replaced db_chat thread30 bob carol bob
              (mkThreadViewProps 30%N reply20 [message40] bob)
              Hpk (or_introl eq_refl) eq_refl (or_intror eq_refl)
              eq_refl eq_refl)
    as (_ & Hpages).
  split; [exact (Hpages carol) | exact (Hpages alice)].
Defined.

(** X10.  The policy lets every signed-in user insert threads, but in a
    reachable database no such insertion commits: a thread for a reply
    that exists is refused as a unique violation, because the reply has
    its thread already, and one for a reply that does not exist is
    refused by the reference to replies. *)
Theorem X10_no_thread_can_be_added :
  forall (d : database) (s : session) (new_id : uuid) (now : timestamptz)
         (reply_id claim_owner_id reply_author_id : uuid),
    reachable d ->
    exists e,
      insert_thread s new_id now reply_id claim_owner_id reply_author_id d
      = Err e
      /\ (authenticated s = true ->
          has_id Reply.id reply_id d.(replies) = true ->
          e = unique_violation).
Proof.
  intros d s new_id now reply_id owner author Hd.
  apply insert_thread_refused.
  now destruct (reachable_linked d Hd).
Qed.

Lemma X10_no_thread_can_be_added_witness :
  insert_thread (Some carol) 31%N 400%Z 20%N carol bob db_chat
  = Err unique_violation.
Proof.
  destruct (X10_no_thread_can_be_added db_chat (Some carol) 31%N 400%Z 20%N
              carol bob db_chat_reachable) as (e & He & Hu).
  rewrite He. f_equal. apply Hu; reflexivity.
Defined.

(* ================================================================== *)
(** ** The live feed agrees with a reload *)

Lemma select_messages_by_fresh_id s d m :
  has_id Message.id m.(Message.id) d.(messages) = false ->
  participates_in s d m.(Message.thread_id) = true ->
  filter (fun x => (x.(Message.id) =? m.(Message.id))%N)
         (select_messages s (with_messages d (d.(messages) ++ [m])))
  = [m].
Proof.
  intros Hfresh Hp. unfold select_messages. simpl messages.
  change (fun m0 => participates_in s
                      (with_messages d (messages d ++ [m]))
                      (Message.thread_id m0))
    with (fun m0 => participates_in s d (Message.thread_id m0)).
  rewrite filter_app, filter_app. simpl. rewrite Hp. simpl.
  rewrite N.eqb_refl.
  rewrite (filter_none _ (filter _ (messages d))); [reflexivity|].
  intros x Hx. apply filter_In in Hx as [Hx _].
  apply N.eqb_neq. intros Hid.
  assert (has_id Message.id (Message.id m) (messages d) = true)
    by (apply has_id_In; eauto).
  congruence.
Qed.

(** X11.  A participant sends a message to a thread as in C7 (a body
    that is not blank and that the store can hold, a time later than the
    thread's messages).  When
    the INSERT event is delivered to a participant's open view, the local
    list becomes the list shown before followed by the new message, which
    is the list a reload of the thread page shows; views of other threads
    ignore the event; and a second delivery of the same event appends the
    message once more, since the callback does not look for it in the
    list. *)
Theorem X11_live_feed_agrees_with_reload :
  forall (d : database) (t : Thread.t) (sender viewer : uuid)
         (new_id : uuid) (now : timestamptz) (body : jsstring),
    primary_keys d ->
    threads_reference_replies d ->
    In t d.(threads) ->
    is_participant (Some sender) t = true ->
    is_participant (Some viewer) t = true ->
    blank body = false ->
    text_error body = None ->
    mem sender d.(users) = true ->
    has_id Message.id new_id d.(messages) = false ->
    (forall x, In x d.(messages) ->
               x.(Message.thread_id) = t.(Thread.id) ->
               (x.(Message.created_at) < now)%Z) ->
    let m := Message.mk new_id t.(Thread.id) sender (trim body) now in
    let d' := fst (handleSendMessage (Some sender) new_id now t.(Thread.id)
                                     sender body d) in
    exists reply before,
      ThreadPage (Some viewer) t.(Thread.id) d
      = Render (mkThreadViewProps t.(Thread.id) reply before viewer)
      /\ deliver (Some viewer) t.(Thread.id) m d' before = before ++ [m]
      /\ ThreadPage (Some viewer) t.(Thread.id) d'
         = Render (mkThreadViewProps t.(Thread.id) reply
                     (deliver (Some viewer) t.(Thread.id) m d' before)
                     viewer)
      /\ (forall other localMessages,
            other <> t.(Thread.id) ->
            deliver (Some viewer) other m d' localMessages = localMessages)
      /\ deliver (Some viewer) t.(Thread.id) m d'
           (deliver (Some viewer) t.(Thread.id) m d' before)
         = before ++ [m; m].
Proof.
  intros d t sender viewer new_id now body Hpk Hfk Hin Hs Hv Hb Htext Hu
         Hfresh Hlate m d'.
  assert (Hd' : d' = with_messages d (messages d ++ [m])).
  { unfold d'. rewrite handleSendMessage_inserts; auto.
    now apply participant_participates_in. }
  destruct (ThreadPage_renders d t viewer Hpk Hfk Hin Hv) as (reply & Hpage).
  exists reply. eexists. split; [exact Hpage|].
  assert (Hdeliver : forall l,
             deliver (Some viewer) (Thread.id t) m d' l = l ++ [m]).
  { intros l. unfold deliver.
    change (Message.thread_id m) with (Thread.id t).
    rewrite N.eqb_refl. unfold on_message_inserted. rewrite Hd'.
    rewrite (select_messages_by_fresh_id (Some viewer) d m Hfresh);
      [reflexivity|].
    now apply participant_participates_in. }
  split; [apply Hdeliver|]. split; [|split].
  - rewrite Hdeliver, Hd'.
    apply (ThreadPage_after_insert _ _ _ _ m Hpage); [reflexivity|].
    simpl. intros x Hx. apply order_by_In, filter_In in Hx as [Hx Hid].
    apply N.eqb_eq in Hid. now apply Hlate.
  - intros other l Hother. unfold deliver.
    change (Message.thread_id m) with (Thread.id t).
    apply not_eq_sym, N.eqb_neq in Hother. now rewrite Hother.
  - rewrite !Hdeliver, <- app_assoc. reflexivity.
Qed.

Lemma X11_live_feed_agrees_with_reload_witness :
  deliver (Some bob) 30%N
    (Message.mk 41%N 30%N alice (js "fine") 400%Z)
    (fst (handleSendMessage (Some alice) 41%N 400%Z 30%N alice
            (js " fine ") db_chat))
    [message40]
  = [message40; Message.mk 41%N 30%N alice (js "fine") 400%Z].
Proof.
  assert (Hpk : primary_keys db_chat).
  { unfold primary_keys. simpl.
    repeat split; repeat constructor; intros []. }
  assert (Hfk : threads_reference_replies db_chat).
  { intros t [<-|[]]. reflexivity. }
  destruct (X11_live_feed_agrees_with_reload db_chat thread30 alice bob
              41%N 400%Z (js " fine ") Hpk Hfk (or_introl eq_refl)
              eq_refl eq_refl eq_refl eq_refl eq_refl eq_refl)
    as (reply & before & Hbefore & Hlive & _).
  - intros x [<-|[]] _. reflexivity.
  - injection Hbefore as <- <-. exact Hlive.
Defined.

(* ================================================================== *)
(** ** Accounts and their profiles *)

Lemma has_id_map {A} (id : A -> uuid) k (l : list A) :
  has_id id k l = mem k (map id l).
Proof.
  unfold has_id, mem. induction l as [|x l IH]; simpl; [reflexivity|].
  now rewrite IH, N.eqb_sym.
Qed.

(** What a committed UPDATE of profiles has done: it rewrites rows of the
    caller only and leaves their id. *)
Lemma update_profile_Ok s profileId p a a' :
  update_profile s profileId p a = Ok a' ->
  a'.(auth_users) = a.(auth_users)
  /\ Forall2 (fun q q' =>
                q'.(Profile.id) = q.(Profile.id)
                /\ (q' = q \/ s = Some q.(Profile.id)))
             a.(profiles) a'.(profiles).
Proof.
  unfold update_profile. intros H.
  destruct (decode_optional _) in H; [|discriminate]. cbn [bind] in H.
  destruct (update_where _ _ _) as [ps|e] eqn:Hu; [|discriminate].
  simpl in H. injection H as <-. split; [reflexivity|]. simpl.
  apply update_where_Ok in Hu.
  eapply Forall2_impl; [|exact Hu]. clear Hu.
  intros q q' [[_ ->] | [Hsel Hf]]; [auto|].
  apply andb_true_iff in Hsel as [_ Hown].
  cbv zeta in Hf. inv_checks Hf. injection Hf as <-.
  destruct s as [uid|]; simpl in Hown, Hchk; [|discriminate].
  apply N.eqb_eq in Hown, Hchk. subst uid.
  split; [simpl; congruence | now right].
Qed.

(** One profile per account, in the order of the accounts. *)
Lemma reachable_accounts_paired a :
  reachable_accounts a ->
  NoDup (map AuthUser.id a.(auth_users))
  /\ map Profile.id a.(profiles) = map AuthUser.id a.(auth_users).
Proof.
  induction 1 as [|a a' Ha [Hnd Hids] Hstep]; [split; constructor|].
  destruct Hstep as [now NEW a' H | s id n now a' H | s id p a' H].
  - unfold sign_up, handle_new_user in H. inv_checks H.
    apply negb_true_iff in Hchk. injection H as <-. simpl. split.
    + now apply NoDup_map_app_fresh.
    + rewrite !map_app, Hids. reflexivity.
  - unfold insert_profile in H.
    destruct (decode_optional _) in H; [|discriminate]. cbn [bind] in H.
    inv_checks H. exfalso.
    apply negb_true_iff in Hchk0.
    rewrite has_id_map, Hids, <- has_id_map in Hchk0. congruence.
  - apply update_profile_Ok in H as (Hu & Hrows). rewrite Hu.
    split; [exact Hnd|]. rewrite <- Hids.
    apply NoDup_map_Forall2.
    eapply Forall2_impl; [|exact Hrows]. now intros q q' [Hid _].
Qed.

(** X12.  A sign-up with an id that is not in use always commits, the
    trigger never stands in its way, and it adds exactly one profile: its
    id is the account's id and its display name the account's full_name
    or, when there is none, its email.  The pages then show the full
    name when it is a non-empty string, "Anonymous" when it is the empty
    string (whatever the email), and otherwise the email, or "Anonymous"
    when that is missing or empty too. *)
Theorem X12_sign_up_creates_the_profile :
  forall (a : accounts) (now : timestamptz) (NEW : AuthUser.t),
    reachable_accounts a ->
    has_id AuthUser.id NEW.(AuthUser.id) a.(auth_users) = false ->
    let p := Profile.mk NEW.(AuthUser.id)
                        (COALESCE NEW.(AuthUser.full_name)
                                  NEW.(AuthUser.email))
                        now in
    sign_up now NEW a
    = Ok (mkAccounts (a.(auth_users) ++ [NEW]) (a.(profiles) ++ [p]))
    /\ filter (fun q => (q.(Profile.id) =? NEW.(AuthUser.id))%N)
              (a.(profiles) ++ [p]) = [p]
    /\ getDisplayName (OneProfile p.(Profile.display_name))
       = name_after_sign_up NEW
    /\ getDisplayName (ProfileArray [p.(Profile.display_name)])
       = name_after_sign_up NEW
    /\ getDisplayName (OneProfile p.(Profile.display_name)) <> [].
Proof.
  intros a now NEW Ha Hfresh p.
  destruct (reachable_accounts_paired a Ha) as [Hnd Hids].
  assert (Hnone : has_id Profile.id (AuthUser.id NEW) (profiles a) = false)
    by (now rewrite has_id_map, Hids, <- has_id_map).
  split; [|split; [|split; [|split]]].
  - unfold sign_up, handle_new_user, bind, guard. simpl.
    rewrite Hfresh, Hnone, has_id_app. simpl.
    now rewrite N.eqb_refl, orb_true_r.
  - rewrite filter_app, (has_id_false_filter Profile.id _ _ Hnone).
    simpl. now rewrite N.eqb_refl.
  - unfold name_after_sign_up. simpl.
    destruct (AuthUser.full_name NEW) as [[|c n]|]; reflexivity.
  - unfold name_after_sign_up. simpl.
    destruct (AuthUser.full_name NEW) as [[|c n]|]; reflexivity.
  - simpl. destruct (AuthUser.full_name NEW) as [[|c n]|]; simpl;
      try discriminate.
    destruct (AuthUser.email NEW) as [[|c n]|]; discriminate.
Qed.

Lemma X12_sign_up_creates_the_profile_witness :
  sign_up 60%Z (AuthUser.mk bob (Some (js "bob@example.org")) (Some []))
          sample_accounts
  = Ok (mkAccounts
          (auth_users sample_accounts
             ++ [AuthUser.mk bob (Some (js "bob@example.org")) (Some [])])
          (profiles sample_accounts ++ [Profile.mk bob (Some []) 60%Z]))
  /\ getDisplayName (OneProfile (Some [])) = js "Anonymous".
Proof.
  assert (Hreach : reachable_accounts sample_accounts).
  { apply more_accounts with (a := mkAccounts [] []); [constructor|].
    apply step_sign_up
      with (now := 50%Z)
           (NEW := AuthUser.mk alice (Some (js "alice@example.org")) None).
    reflexivity. }
  destruct (X12_sign_up_creates_the_profile sample_accounts 60%Z
              (AuthUser.mk bob (Some (js "bob@example.org")) (Some []))
              Hreach eq_refl)
    as (Hsign & _ & Hname & _).
  split; [exact Hsign | exact Hname].
Defined.

(** X13.  In every state of the accounts reached by sign-ups and by
    insertions and updates of profiles under their policies, every
    account has exactly one profile; an insertion of a profile through
    the API therefore never commits, and an update that commits rewrites
    no profile but the caller's own and leaves its id. *)
Theorem X13_one_profile_per_account :
  forall (a : accounts),
    reachable_accounts a ->
    (forall u, In u a.(auth_users) ->
       exists p,
         filter (fun q => (q.(Profile.id) =? u.(AuthUser.id))%N)
                a.(profiles) = [p])
    /\ (forall p, In p a.(profiles) ->
          has_id AuthUser.id p.(Profile.id) a.(auth_users) = true)
    /\ (forall s id display_name now,
          exists e, insert_profile s id display_name now a = Err e)
    /\ (forall s profileId p a',
          update_profile s profileId p a = Ok a' ->
          a'.(auth_users) = a.(auth_users)
          /\ Forall2 (fun q q' =>
                        q'.(Profile.id) = q.(Profile.id)
                        /\ (q' = q \/ s = Some q.(Profile.id)))
                     a.(profiles) a'.(profiles)).
Proof.
  intros a Ha. destruct (reachable_accounts_paired a Ha) as [Hnd Hids].
  split; [|split; [|split]].
  - intros u Hu.
    assert (Hhas : has_id Profile.id (AuthUser.id u) (profiles a) = true).
    { rewrite has_id_map, Hids, <- has_id_map. apply has_id_In. eauto. }
    apply has_id_In in Hhas as (p & Hp & Hid). exists p.
    rewrite <- Hid. apply filter_by_key; [|exact Hp]. now rewrite Hids.
  - intros p Hp. rewrite has_id_map, <- Hids, <- has_id_map.
    apply has_id_In. eauto.
  - intros s id n now. unfold insert_profile, bind, guard.
    destruct (decode_optional n); [|eauto].
    destruct (auth_uid_is s id); [|eauto].
    destruct (has_id Profile.id id (profiles a)) eqn:Hp; simpl; [eauto|].
    rewrite has_id_map, Hids, <- has_id_map in Hp. rewrite Hp. eauto.
  - intros s id p a'. apply update_profile_Ok.
Qed.

Lemma X13_one_profile_per_account_witness :
  (exists p,
      filter (fun q => (Profile.id q =? alice)%N) (profiles sample_accounts)
      = [p])
  /\ (exists e,
        insert_profile (Some alice) alice (Some (js "Alice")) 70%Z
                       sample_accounts = Err e)
  /\ forall a',
       update_profile (Some bob) alice
         (ProfilePatch.mk None (Some (Some (js "Mallory"))) None)
         sample_accounts = Ok a' ->
       profiles a' = profiles sample_accounts.
Proof.
  assert (Hreach : reachable_accounts sample_accounts).
  { apply more_accounts with (a := mkAccounts [] []); [constructor|].
    apply step_sign_up
      with (now := 50%Z)
           (NEW := AuthUser.mk alice (Some (js "alice@example.org")) None).
    reflexivity. }
  destruct (X13_one_profile_per_account sample_accounts Hreach)
    as (Hone & _ & Hins & Hupd).
  split; [|split].
  - apply (Hone (AuthUser.mk alice (Some (js "alice@example.org")) None)).
    left. reflexivity.
  - apply Hins.
  - intros a' Hu. destruct (Hupd _ _ _ _ Hu) as [_ Hrows].
    change (profiles sample_accounts)
      with [Profile.mk alice (Some (js "alice@example.org")) 50%Z]
      in Hrows |- *.
    inversion Hrows as [|q q' qs qs' Hhead Hrest Hqs Hqs'].
    inversion Hrest as [Hnil Hnil'|].
    destruct Hhead as (_ & [-> | Hs]); [reflexivity | discriminate Hs].
Defined.

(* ================================================================== *)
(** ** From a form to the pages *)

Lemma no_reply_to_fresh_claim d new_id :
  replies_reference_claims d ->
  has_id Claim.id new_id d.(claims) = false ->
  filter (fun r => (r.(Reply.parent_claim_id) =? new_id)%N) d.(replies) = [].
Proof.
  intros Hfk Hfresh. apply filter_none. intros r Hin.
  apply N.eqb_neq. apply not_eq_sym.
  now apply (fresh_claim_is_no_parent d new_id r).
Qed.

(** X14.  After a successful submit the page the form pushes to renders
    the new claim for every viewer, signed in or not: it is owned by the
    submitter, only the submitter is its claim owner, and it has no
    replies yet. *)
Theorem X14_submitted_claim_has_its_page :
  forall (d d' : database) (s viewer : session) (new_id id : uuid)
         (now : timestamptz) (text : jsstring) (ct : ClaimType),
    replies_reference_claims d ->
    handleSubmit s new_id now text ct d = (d', Push (ClaimRoute id)) ->
    exists user,
      s = Some user
      /\ id = new_id
      /\ find_claim d' id = Some (Claim.mk id (trim text) ct user now)
      /\ ClaimPage viewer id d'
         = Render (mkReplySectionProps id user (authenticated viewer)
                     (auth_uid_is viewer user) [] [] []).
Proof.
  intros d d' s viewer new_id id now text ct Hfk H.
  pose proof H as H'. unfold handleSubmit in H'.
  destruct (300 <? _); [discriminate|]. destruct (_ =? 0); [discriminate|].
  destruct s as [user|]; [|discriminate].
  destruct (insert_claim _ _ _ _ _ _ _) as [d1|e] eqn:Hi; [|discriminate].
  injection H' as <- <-.
  apply insert_claim_Ok in Hi as (_ & _ & Hfresh & _ & ->).
  exists user. split; [reflexivity|]. split; [reflexivity|]. split.
  - unfold find_claim. simpl.
    rewrite (find_app_fresh _ _ _ (has_id_false_find Claim.id _ _ Hfresh)).
    simpl. now rewrite N.eqb_refl.
  - unfold ClaimPage. simpl claims. simpl replies.
    rewrite filter_app, (has_id_false_filter Claim.id _ _ Hfresh).
    simpl. rewrite N.eqb_refl. simpl.
    now rewrite (no_reply_to_fresh_claim d new_id Hfk Hfresh).
Qed.

Lemma X14_submitted_claim_has_its_page_witness :
  ClaimPage None 10%N db_claim
  = Render (mkReplySectionProps 10%N alice false false [] [] []).
Proof.
  destruct (X14_submitted_claim_has_its_page db_empty db_claim (Some alice)
              None 10%N 10%N 100%Z (js "X is true") fact)
    as (user & Hs & _ & _ & Hpage).
  - intros r [].
  - reflexivity.
  - injection Hs as <-. exact Hpage.
Defined.

(** The thread page of a participant, with the reply it shows. *)
Lemma ThreadPage_renders_reply d t user :
  primary_keys d ->
  threads_reference_replies d ->
  In t d.(threads) ->
  is_participant (Some user) t = true ->
  exists reply,
    In reply d.(replies)
    /\ reply.(Reply.id) = t.(Thread.reply_id)
    /\ ThreadPage (Some user) t.(Thread.id) d
       = Render (mkThreadViewProps t.(Thread.id) reply
                   (order_by (ascending Message.created_at)
                      (filter (fun m => (m.(Message.thread_id)
                                         =? t.(Thread.id))%N)
                              d.(messages)))
                   user).
Proof.
  intros Hpk Hfk Hin Hp.
  destruct (ThreadPage_renders d t user Hpk Hfk Hin Hp) as (reply & Hpage).
  exists reply. split; [|split; [|exact Hpage]];
    unfold ThreadPage, select_threads in Hpage;
    destruct Hpk as (_ & Hpr & Hpt & _);
    rewrite (filter_by_key Thread.id (filter _ (threads d)) t) in Hpage
      by (try apply NoDup_map_filter; try apply filter_In; auto);
    simpl in Hpage;
    destruct (_ && _); try discriminate;
    destruct (single _) as [r|] eqn:Hr; try discriminate;
    injection Hpage as ->;
    apply single_Some in Hr;
    assert (Hrin : In reply
                      (filter (fun r => (Reply.id r =? Thread.reply_id t)%N)
                              (replies d)))
      by (rewrite Hr; now left);
    apply filter_In in Hrin as [Hrin Hid]; [exact Hrin|].
  now apply N.eqb_eq.
Qed.

(** X15.  After a successful reply, the claim page of every viewer lists
    the new reply among the pending ones, and the thread the trigger has
    opened renders for the author of the claim and for the author of the
    reply, showing that reply and no message yet. *)
Theorem X15_reply_opens_its_thread :
  forall (d d' : database) (user : uuid) (viewer : session)
         (new_id thread_id : uuid) (now : timestamptz) (claimId : uuid)
         (text : jsstring) (st : StanceType),
    linked d ->
    handleReplySubmit (Some user) new_id thread_id now claimId text st d
    = (d', Refresh) ->
    let r := Reply.mk new_id claimId (trim text) st pending None user now in
    exists claim props,
      find_claim d claimId = Some claim
      /\ ClaimPage viewer claimId d' = Render props
      /\ In r props.(repliesPending)
      /\ ThreadPage (Some claim.(Claim.author_id)) thread_id d'
         = Render (mkThreadViewProps thread_id r []
                                     claim.(Claim.author_id))
      /\ ThreadPage (Some user) thread_id d'
         = Render (mkThreadViewProps thread_id r [] user).
Proof.
  intros d d' user viewer new_id thread_id now claimId text st
         [Hpk Hfkt Hfkr Hu Hl Hm] H r.
  unfold handleReplySubmit in H.
  destruct (_ =? 0); [discriminate|].
  destruct (insert_reply _ _ _ _ _ _ _ _ _) as [d1|e] eqn:Hi;
    [|discriminate].
  injection H as <-.
  destruct (linked_insert_reply_row _ _ _ _ _ _ Hi
              (mkLinked d Hpk Hfkt Hfkr Hu Hl Hm))
    as [Hpk' Hfkt' _ _ _ _].
  pose proof (insert_reply_row_thread_id _ _ _ _ _ _ Hi) as Htid.
  apply insert_reply_Ok in Hi
    as (claim & _ & Hfresh & Hclaim & _ & Hcs & Hrs & Hms & Hts).
  pose proof (fresh_reply_has_no_thread d new_id Hfkt Hfresh) as Hnone.
  specialize (Htid Hnone).
  destruct Hts as [[Hdup _] | [_ Hts]]; [congruence|].
  fold r in Hrs.
  set (t := Thread.mk thread_id new_id (Claim.author_id claim) user now)
    in *.
  pose proof (find_some _ _ Hclaim) as [Hcin Hcid]. apply N.eqb_eq in Hcid.
  assert (Hrin : In r (replies d1))
    by (rewrite Hrs; apply in_or_app; right; now left).
  assert (Htin : In t (threads d1))
    by (rewrite Hts; apply in_or_app; right; now left).
  assert (Hpage : exists props, ClaimPage viewer claimId d1 = Render props).
  { unfold ClaimPage. rewrite Hcs, <- Hcid.
    destruct Hpk as (Hc & _).
    rewrite (filter_by_key Claim.id (claims d) claim Hc Hcin). simpl.
    eauto. }
  destruct Hpage as (props & Hpage).
  exists claim, props. split; [exact Hclaim|]. split; [exact Hpage|].
  assert (Hempty : filter (fun m => (Message.thread_id m =? thread_id)%N)
                          (messages d1) = []).
  { rewrite Hms. apply filter_none. intros m Hin.
    apply N.eqb_neq. intros Hid.
    pose proof (Hm m Hin) as Hthere. congruence. }
  assert (Hthread : forall who,
             is_participant (Some who) t = true ->
             ThreadPage (Some who) thread_id d1
             = Render (mkThreadViewProps thread_id r [] who)).
  { intros who Hwho.
    destruct (ThreadPage_renders_reply d1 t who Hpk' Hfkt' Htin Hwho)
      as (reply & Hreply & Hrid & Hshown).
    simpl in Hshown, Hrid. rewrite Hempty in Hshown. simpl in Hshown.
    assert (reply = r) as ->; [|exact Hshown].
    destruct Hpk' as (_ & Hpr & _).
    now apply (NoDup_map_eq Reply.id (replies d1)). }
  split; [|split].
  - apply ClaimPage_Render in Hpage as (_ & _ & _ & _ & _ & _ & Hgroups).
    change (repliesPending props) with (replies_with_status pending props).
    rewrite Hgroups. apply filter_In. split; [|reflexivity].
    apply order_by_In, filter_In. split; [exact Hrin|].
    simpl. apply N.eqb_refl.
  - apply Hthread. unfold is_participant. simpl.
    now rewrite N.eqb_refl.
  - apply Hthread. unfold is_participant. simpl.
    rewrite N.eqb_refl. apply orb_true_r.
Qed.

Lemma X15_reply_opens_its_thread_witness :
  ThreadPage (Some alice) 30%N db_reply
  = Render (mkThreadViewProps 30%N reply20 [] alice)
  /\ ThreadPage (Some bob) 30%N db_reply
     = Render (mkThreadViewProps 30%N reply20 [] bob).
Proof.
  assert (Hlinked : linked db_claim).
  { constructor.
    - unfold primary_keys. simpl. repeat split; repeat constructor.
      intros [].
    - intros t [].
    - intros r [].
    - constructor.
    - intros r [].
    - intros m []. }
  destruct (X15_reply_opens_its_thread db_claim db_reply bob None 20%N 30%N
              200%Z 10%N (js "X is false") contradicts Hlinked eq_refl)
    as (claim & props & Hclaim & _ & _ & Howner & Hauthor).
  injection Hclaim as <-. split; [exact Howner | exact Hauthor].
Defined.

(** X16.  In every reachable database the thread page renders for both
    current participants of every stored thread: it shows the reply the
    thread belongs to and the stored messages of that thread, all of them
    and no others, oldest first.  Whenever it renders at all, the viewer
    is a current participant of the thread and what it lists are stored
    messages of that thread. *)
Theorem X16_thread_page_of_a_participant :
  forall (d : database),
    reachable d ->
    (forall t user,
        In t d.(threads) ->
        is_participant (Some user) t = true ->
        exists reply,
          find_reply d t.(Thread.reply_id) = Some reply
          /\ ThreadPage (Some user) t.(Thread.id) d
             = Render (mkThreadViewProps t.(Thread.id) reply
                         (order_by (ascending Message.created_at)
                            (filter (fun m => (m.(Message.thread_id)
                                               =? t.(Thread.id))%N)
                                    d.(messages)))
                         user))
    /\ (forall viewer id view,
          ThreadPage viewer id d = Render view ->
          exists t,
            In t d.(threads)
            /\ t.(Thread.id) = id
            /\ is_participant viewer t = true
            /\ forall m,
                 In m view.(initial_messages) ->
                 In m d.(messages) /\ m.(Message.thread_id) = id).
Proof.
  intros d Hd.
  destruct (reachable_linked d Hd) as [Hpk Hfkt _ _ _ _].
  split.
  - intros t user Hin Hp.
    destruct (ThreadPage_renders_reply d t user Hpk Hfkt Hin Hp)
      as (reply & Hrin & Hrid & Hpage).
    exists reply. split; [|exact Hpage].
    destruct (has_id_true_find Reply.id (Thread.reply_id t) (replies d))
      as (r0 & Hfind & Hid0); [apply has_id_In; eauto|].
    unfold find_reply. rewrite Hfind. f_equal.
    destruct Hpk as (_ & Hpr & _).
    apply (NoDup_map_eq Reply.id (replies d)); auto; [|congruence].
    now apply find_some in Hfind as [H _].
  - intros viewer id view Hpage.
    apply ThreadPage_Render in Hpage as (_ & _ & Hp & Hms).
    apply existsb_exists in Hp as (t & Htin & Hcond).
    apply andb_true_iff in Hcond as [Hid Hpart]. apply N.eqb_eq in Hid.
    exists t. repeat split; auto.
    + rewrite Hms in H. now apply order_by_In, filter_In in H as [H _].
    + rewrite Hms in H. apply order_by_In, filter_In in H as [_ H].
      now apply N.eqb_eq.
Qed.

Lemma X16_thread_page_of_a_participant_witness :
  (exists reply,
      find_reply db_chat 20%N = Some reply
      /\ ThreadPage (Some alice) 30%N db_chat
         = Render (mkThreadViewProps 30%N reply [message40] alice))
  /\ exists t,
       In t (threads db_chat)
       /\ Thread.id t = 30%N
       /\ is_participant (Some bob) t = true
       /\ forall m,
            In m [message40] ->
            In m (messages db_chat) /\ Message.thread_id m = 30%N.
Proof.
  destruct (X16_thread_page_of_a_participant db_chat db_chat_reachable)
    as (Hrenders & Hshown).
  split.
  - exact (Hrenders thread30 alice (or_introl eq_refl) eq_refl).
  - exact (Hshown (Some bob) 30%N
             (mkThreadViewProps 30%N reply20 [message40] bob) eq_refl).
Defined.

(* ================================================================== *)
(** ** What a deletion leaves of the pages *)

Lemma In_firstn_incl {A} (n : nat) (l : list A) (x : A) :
  In x (firstn n l) -> In x l.
Proof.
  revert l. induction n as [|n IH]; intros [|y l]; simpl; auto;
    try contradiction.
  intros [H | H]; auto.
Qed.

Lemma filter_filter_absorb {A} (f g : A -> bool) (l : list A) :
  (forall x, In x l -> f x = true -> g x = true) ->
  filter f (filter g l) = filter f l.
Proof.
  intros H. induction l as [|x l IH]; simpl; [reflexivity|].
  assert (IH' : filter f (filter g l) = filter f l)
    by (apply IH; intros y Hy; apply H; now right).
  destruct (f x) eqn:Hf.
  - rewrite (H x (or_introl eq_refl) Hf). simpl. now rewrite Hf, IH'.
  - destruct (g x); simpl; [now rewrite Hf|exact IH'].
Qed.

(** X17.  After its author has deleted a claim, the claim page answers
    notFound() to every viewer, the home page does not list the claim,
    and the pages of the threads that hung on it answer notFound() even
    to their former participants; the page of every other claim is what
    it was. *)
Theorem X17_deleted_claim_is_gone_from_the_pages :
  forall (d : database) (claim : Claim.t),
    primary_keys d ->
    In claim d.(claims) ->
    let d' := delete_claim (Some claim.(Claim.author_id)) claim.(Claim.id) d
    in
    (forall viewer, ClaimPage viewer claim.(Claim.id) d' = NotFound)
    /\ (forall answers row,
          In row (HomePage answers d') ->
          row.(listed).(Claim.id) <> claim.(Claim.id))
    /\ (forall t user,
          In t d.(threads) ->
          thread_of_claim d claim.(Claim.id) t ->
          ThreadPage (Some user) t.(Thread.id) d' = NotFound)
    /\ (forall viewer other,
          other <> claim.(Claim.id) ->
          ClaimPage viewer other d' = ClaimPage viewer other d).
Proof.
  intros d claim Hpk Hin d'.
  pose proof Hpk as (Hpc & _ & Hpt & _).
  destruct (delete_claim_by_author d claim Hpc Hin)
    as (_ & Hclaims & _ & Hthreads & _).
  fold d' in Hclaims, Hthreads.
  split; [|split; [|split]].
  - intros viewer. unfold ClaimPage.
    rewrite (filter_none _ (claims d')); [reflexivity|].
    intros c Hc. apply Hclaims in Hc as [_ Hne]. now apply N.eqb_neq.
  - intros answers row Hrow. unfold HomePage in Hrow.
    apply in_map_iff in Hrow as (c & <- & Hc). simpl.
    apply (In_firstn_incl 50), order_by_In in Hc.
    now apply Hclaims in Hc as [_ Hne].
  - intros t user Htin Hdead. unfold ThreadPage, select_threads.
    rewrite (filter_none (fun t0 => (Thread.id t0 =? Thread.id t)%N));
      [reflexivity|].
    intros t' Ht'. apply filter_In in Ht' as [Ht' _].
    apply Hthreads in Ht' as [Ht' Halive].
    apply N.eqb_neq. intros Hid. apply Halive.
    assert (t' = t)
      by (apply (NoDup_map_eq Thread.id (threads d)); auto).
    now subst t'.
  - intros viewer other Hother. unfold ClaimPage, d', delete_claim.
    cbv zeta. cbn [claims replies threads messages].
    rewrite !filter_filter_absorb; [reflexivity| |].
    + intros r _ Hr. apply N.eqb_eq in Hr. apply negb_true_iff.
      destruct (mem (Reply.parent_claim_id r) _) eqn:Hdead; [|reflexivity].
      apply mem_map_filter in Hdead as (c & _ & Hdoomed & Hcid).
      apply andb_true_iff in Hdoomed as [Hdoomed _].
      apply N.eqb_eq in Hdoomed. congruence.
    + intros c _ Hc. apply N.eqb_eq in Hc. apply negb_true_iff.
      apply andb_false_iff. left. apply N.eqb_neq. congruence.
Qed.

Lemma X17_deleted_claim_is_gone_from_the_pages_witness :
  ClaimPage (Some bob) 10%N (delete_claim (Some alice) 10%N db_chat)
  = NotFound
  /\ ThreadPage (Some bob) 30%N (delete_claim (Some alice) 10%N db_chat)
     = NotFound.
Proof.
  assert (Hpk : primary_keys db_chat).
  { unfold primary_keys. simpl.
    repeat split; repeat constructor; intros []. }
  destruct (X17_deleted_claim_is_gone_from_the_pages db_chat claim10 Hpk
              (or_introl eq_refl))
    as (Hclaim & _ & Hthread & _).
  split; [apply Hclaim|].
  apply (Hthread thread30 bob (or_introl eq_refl)).
  exists reply20. split; [left; reflexivity|]. split; reflexivity.
Defined.
